(** * Hope Box firmware (hope.ino): navigation state machine, passcode
      entry and slide renderer, as a shallow embedding.

    The sketch is a single-threaded control loop over a handful of
    globals.  Every function of the sketch becomes a computation in a
    small state-and-trace monad: the state is the record of globals, the
    trace is the sequence of commands sent to the motor pin, the LED
    strip, the clock ([delay]) and the display.  The inputs of one pass of
    [loop] (pin levels and clock readings) are gathered in a [Tick]. *)

From Stdlib Require Import ZArith Lia.
From stdpp Require Import base numbers list strings.

Local Open Scope Z_scope.

(** ** Configuration constants (the #define block) *)

Definition BUTTON_0 : Z := 0.
Definition BUTTON_1 : Z := 1.
Definition BUTTON_SELECT : Z := 2.
Definition BUTTON_BACK : Z := 5.
Definition RGB_LED_COUNT : Z := 3.
Definition VIBRATION_MOTOR_PIN : Z := 21.

Definition SCREEN_W : Z := 128.
Definition SCREEN_H : Z := 160.
Definition PASS_LENGTH : Z := 4.
Definition TIMEOUT_MS : Z := 5000.
Definition DEBOUNCE : Z := 60.

Definition VIB_SHORT : Z := 50.
Definition VIB_MEDIUM : Z := 100.
Definition VIB_LONG : Z := 150.
Definition VIB_PATTERN_GAP : Z := 40.

Definition BG_COLOR : Z := 0xEF7D.
Definition CARD_BG : Z := 0xFFFF.
Definition SHADOW : Z := 0xCE79.
Definition TEXT_DARK : Z := 0x2945.
Definition TEXT_LIGHT : Z := 0x8C51.
Definition ACCENT_BLUE : Z := 0x4D7F.
Definition ACCENT_PURPLE : Z := 0x9A7F.
Definition ACCENT_PINK : Z := 0xFBDA.
Definition ACCENT_ORANGE : Z := 0xFC60.
Definition SUCCESS_GREEN : Z := 0x07E0.
Definition ERROR_RED : Z := 0xF800.
Definition CIRCLE_EMPTY : Z := 0xD69A.

(** Logic levels of a digital line: [HIGH] is 1, [LOW] is 0. *)
Definition HIGH : bool := true.
Definition LOW : bool := false.

(** ** Machine integers

    [uint8_t], [uint16_t] and [unsigned long] (32 bits on the target) are
    integers in [Z] reduced modulo their width on every store.  [int]
    division and remainder truncate towards zero. *)

Definition u8 (z : Z) : Z := z mod 256.
Definition u16 (z : Z) : Z := z mod 65536.
Definition u32 (z : Z) : Z := z mod 4294967296.

Definition idiv (a b : Z) : Z := Z.quot a b.
Definition irem (a b : Z) : Z := Z.rem a b.

(** ** Globals *)

Inductive State := BOOTING | LOCKED | UNLOCKING | MENU | CONTENT.

#[global] Instance State_eq_dec : EqDecision State.
Proof. solve_decision. Defined.

Record Dev := mkDev {
  currentState : State;
  enteredPasscode : list Z;
  passIndex : Z;
  lastPressTime : Z;
  lastButton0 : bool;
  lastButton1 : bool;
  lastButtonSelect : bool;
  lastButtonBack : bool;
  selectedMenuItem : Z;
  currentPage : Z;
  maxPages : Z;
  lastMemoryPage : Z
}.

Definition CORRECT_PASSCODE : list Z := [0; 0; 0; 0].

(** The initialisers of the globals, before [setup] runs. *)
Definition power_on : Dev :=
  {| currentState := BOOTING;
     enteredPasscode := [0; 0; 0; 0];
     passIndex := 0;
     lastPressTime := 0;
     lastButton0 := HIGH;
     lastButton1 := HIGH;
     lastButtonSelect := HIGH;
     lastButtonBack := HIGH;
     selectedMenuItem := 0;
     currentPage := 0;
     maxPages := 0;
     lastMemoryPage := 0 |}.

Definition with_currentState (v : State) (d : Dev) : Dev :=
  mkDev v (enteredPasscode d) (passIndex d) (lastPressTime d)
        (lastButton0 d) (lastButton1 d) (lastButtonSelect d) (lastButtonBack d)
        (selectedMenuItem d) (currentPage d) (maxPages d) (lastMemoryPage d).

Definition with_enteredPasscode (v : list Z) (d : Dev) : Dev :=
  mkDev (currentState d) v (passIndex d) (lastPressTime d)
        (lastButton0 d) (lastButton1 d) (lastButtonSelect d) (lastButtonBack d)
        (selectedMenuItem d) (currentPage d) (maxPages d) (lastMemoryPage d).

Definition with_passIndex (v : Z) (d : Dev) : Dev :=
  mkDev (currentState d) (enteredPasscode d) v (lastPressTime d)
        (lastButton0 d) (lastButton1 d) (lastButtonSelect d) (lastButtonBack d)
        (selectedMenuItem d) (currentPage d) (maxPages d) (lastMemoryPage d).

Definition with_lastPressTime (v : Z) (d : Dev) : Dev :=
  mkDev (currentState d) (enteredPasscode d) (passIndex d) v
        (lastButton0 d) (lastButton1 d) (lastButtonSelect d) (lastButtonBack d)
        (selectedMenuItem d) (currentPage d) (maxPages d) (lastMemoryPage d).

Definition with_lastButtons (b0 b1 bs bb : bool) (d : Dev) : Dev :=
  mkDev (currentState d) (enteredPasscode d) (passIndex d) (lastPressTime d)
        b0 b1 bs bb
        (selectedMenuItem d) (currentPage d) (maxPages d) (lastMemoryPage d).

Definition with_selectedMenuItem (v : Z) (d : Dev) : Dev :=
  mkDev (currentState d) (enteredPasscode d) (passIndex d) (lastPressTime d)
        (lastButton0 d) (lastButton1 d) (lastButtonSelect d) (lastButtonBack d)
        v (currentPage d) (maxPages d) (lastMemoryPage d).

Definition with_currentPage (v : Z) (d : Dev) : Dev :=
  mkDev (currentState d) (enteredPasscode d) (passIndex d) (lastPressTime d)
        (lastButton0 d) (lastButton1 d) (lastButtonSelect d) (lastButtonBack d)
        (selectedMenuItem d) v (maxPages d) (lastMemoryPage d).

Definition with_maxPages (v : Z) (d : Dev) : Dev :=
  mkDev (currentState d) (enteredPasscode d) (passIndex d) (lastPressTime d)
        (lastButton0 d) (lastButton1 d) (lastButtonSelect d) (lastButtonBack d)
        (selectedMenuItem d) (currentPage d) v (lastMemoryPage d).

Definition with_lastMemoryPage (v : Z) (d : Dev) : Dev :=
  mkDev (currentState d) (enteredPasscode d) (passIndex d) (lastPressTime d)
        (lastButton0 d) (lastButton1 d) (lastButtonSelect d) (lastButtonBack d)
        (selectedMenuItem d) (currentPage d) (maxPages d) v.

(** ** Commands sent to the collaborators *)

(** Calls on the display object [tft]. *)
Inductive Tft :=
| StartWrite
| EndWrite
| SetAddrWindow (x y w h : Z)
| PushColor (c : Z)
| DrawFastHLine (x y w c : Z)
| DrawFastVLine (x y h c : Z)
| FillRect (x y w h c : Z)
| FillRoundRect (x y w h r c : Z)
| DrawRoundRect (x y w h r c : Z)
| FillCircle (x y r c : Z)
| DrawCircle (x y r c : Z)
| DrawPixel (x y c : Z)
| SetTextSize (s : Z)
| SetTextColor (c : Z)
| SetCursor (x y : Z)
| Print (s : string)
| PrintNum (n : Z).

(** Renderers of the sketch that only lay out fixed text or a small
    pictogram.  They read none of the navigation globals besides their
    arguments, and are recorded as one command each. *)
Inductive Leaf :=
| LetterContent (page : Z)
| QuoteContent (page : Z)
| AboutContent (page : Z)
| LoveLetter (x y : Z)
| Landscape (x y : Z)
| Note (x y : Z)
| Profile (x y : Z).

Inductive Event :=
| DigitalWrite (pin : Z) (level : bool)
| Delay (ms : Z)
| SetPixelColor (n : Z) (color : Z)
| Show
| Display (c : Tft)
| Render (r : Leaf).

#[global] Instance Tft_eq_dec : EqDecision Tft.
Proof. solve_decision. Defined.
#[global] Instance Leaf_eq_dec : EqDecision Leaf.
Proof. solve_decision. Defined.
#[global] Instance Event_eq_dec : EqDecision Event.
Proof. solve_decision. Defined.

(** ** The monad of the sketch: globals in, globals and commands out *)

Record M (A : Type) : Type := mkM { run : Dev -> A * Dev * list Event }.
Arguments mkM {A} _.
Arguments run {A} _ _.

#[global] Instance M_ret : MRet M := fun A a => mkM (fun d => (a, d, [])).

#[global] Instance M_bind : MBind M := fun A B k m =>
  mkM (fun d =>
    let r1 := run m d in
    let r2 := run (k r1.1.1) r1.1.2 in
    (r2.1.1, r2.1.2, r1.2 ++ r2.2)).

Definition emit (e : Event) : M unit := mkM (fun d => (tt, d, [e])).
Definition gets {A} (f : Dev -> A) : M A := mkM (fun d => (f d, d, [])).
Definition modify (f : Dev -> Dev) : M unit := mkM (fun d => (tt, f d, [])).
Definition skip : M unit := mret tt.

(** [if (c()) { t } else { e }] for a boolean-valued call [c]. *)
Definition ifM {A} (c : M bool) (t e : M A) : M A :=
  c ≫= fun b : bool => if b then t else e.

(** Globals after, and commands issued by, a computation. *)
Definition after {A} (m : M A) (d : Dev) : Dev := (run m d).1.2.
Definition events {A} (m : M A) (d : Dev) : list Event := (run m d).2.
Definition result {A} (m : M A) (d : Dev) : A := (run m d).1.1.

(** [for] loops over an [int] counter. *)
Fixpoint forEach {A} (l : list A) (body : A -> M unit) : M unit :=
  match l with
  | [] => skip
  | x :: r => body x ;; forEach r body
  end.

(** [for (int i = lo; i < hi; i++)] *)
Definition for_lt (lo hi : Z) (body : Z -> M unit) : M unit :=
  forEach (seqZ lo (hi - lo)) body.

(** [for (int i = lo; i <= hi; i++)] *)
Definition for_le (lo hi : Z) (body : Z -> M unit) : M unit :=
  forEach (seqZ lo (hi + 1 - lo)) body.

(** [for (int i = lo; i < hi; i += step)], [step > 0] *)
Definition for_by (lo hi step : Z) (body : Z -> M unit) : M unit :=
  forEach ((fun k => lo + k * step) <$> seqZ 0 ((hi - lo + step - 1) `div` step)) body.

(** ** Drivers: Arduino core, NeoPixel strip, display *)

Definition digitalWrite (pin : Z) (level : bool) : M unit := emit (DigitalWrite pin level).
Definition delay (ms : Z) : M unit := emit (Delay ms).
Definition tft (c : Tft) : M unit := emit (Display c).
Definition render (r : Leaf) : M unit := emit (Render r).

(** [Adafruit_NeoPixel::Color]: packed 0x00RRGGBB. *)
Definition Color (r g b : Z) : Z :=
  Z.lor (Z.shiftl (u8 r) 16) (Z.lor (Z.shiftl (u8 g) 8) (u8 b)).

(** ** Vibration functions *)

Definition vibrate (duration : Z) : M unit :=
  digitalWrite VIBRATION_MOTOR_PIN HIGH ;;
  delay duration ;;
  digitalWrite VIBRATION_MOTOR_PIN LOW.

Definition vibratePattern (count onTime offTime : Z) : M unit :=
  for_lt 0 count (fun i =>
    digitalWrite VIBRATION_MOTOR_PIN HIGH ;;
    delay onTime ;;
    digitalWrite VIBRATION_MOTOR_PIN LOW ;;
    if decide (i < count - 1) then delay offTime else skip).

Definition successVibration : M unit :=
  vibrate VIB_SHORT ;;
  delay VIB_PATTERN_GAP ;;
  vibrate VIB_SHORT ;;
  delay VIB_PATTERN_GAP ;;
  vibrate VIB_LONG.

Definition errorVibration : M unit :=
  vibrate VIB_LONG ;;
  delay VIB_PATTERN_GAP ;;
  vibrate VIB_SHORT.

Definition menuNavigationVibration : M unit := vibrate VIB_SHORT.
Definition buttonPressVibration : M unit := vibrate 30.
Definition unlockVibration : M unit := vibratePattern 3 60 40.
Definition pageTurnVibration : M unit := vibrate VIB_SHORT.

(** ** Passcode check *)

(** The body of the [for] loop of [checkPasscode], with its early
    [return false], over the indices still to visit. *)
Fixpoint checkPasscode_from (idx : list Z) (entered : list Z) : bool :=
  match idx with
  | [] => true
  | i :: rest =>
      if decide (entered !!! Z.to_nat i ≠ CORRECT_PASSCODE !!! Z.to_nat i)
      then false
      else checkPasscode_from rest entered
  end.

Definition checkPasscode : M bool :=
  gets (fun d => checkPasscode_from (seqZ 0 PASS_LENGTH) (enteredPasscode d)).

(** ** RGB LED control *)

Definition setRGBLeds (color : Z) : M unit :=
  for_lt 0 RGB_LED_COUNT (fun i => emit (SetPixelColor i color)) ;;
  emit Show.

Definition rgbPulseEffect (color : Z) : M unit :=
  for_lt 0 3 (fun _ =>
    setRGBLeds color ;;
    delay 80 ;;
    setRGBLeds (Color 0 0 0) ;;
    delay 80) ;;
  setRGBLeds color.

Definition rgbRainbow : M unit :=
  emit (SetPixelColor 0 (Color 150 50 200)) ;;
  emit (SetPixelColor 1 (Color 255 100 180)) ;;
  emit (SetPixelColor 2 (Color 0 100 255)) ;;
  emit Show.

(** ** RGB565 helper: the three arguments are [uint8_t], the result [uint16_t] *)

Definition RGB (r g b : Z) : Z :=
  u16 (Z.lor (Z.lor (Z.shiftl (Z.land (u8 r) 0xF8) 8)
                    (Z.shiftl (Z.land (u8 g) 0xFC) 3))
             (Z.shiftr (u8 b) 3)).

(** The vertical gradient painted row by row on the lock screen. *)
Definition lockGradientRow (x y w : Z) : M unit :=
  let shade := u8 (235 - idiv y 15) in
  tft (DrawFastHLine x y w (RGB shade (shade + 5) (shade + 10))).

(** The vertical gradient of the menu and of the text content screens. *)
Definition menuGradientRow (y : Z) : M unit :=
  let shade := u8 (245 - idiv y 12) in
  tft (DrawFastHLine 0 y SCREEN_W (RGB (shade - 5) shade (shade + 8))).

(** An image table for the concrete runs below: pixel [i] holds [i] itself,
    reduced to 16 bits. *)
Definition test_card : Z -> Z := fun i => i mod 65536.

Section Firmware.

(** The image table of pic1.h: [pic1 i] is the 16-bit pixel at index [i]
    of the array (row-major, [SCREEN_W] pixels per row).  The header is
    not part of the sketch file; the table is a parameter. *)
Variable pic1 : Z -> Z.

(** ** Full-screen image *)

Definition drawFullScreenImage (imageData : Z -> Z) : M unit :=
  tft StartWrite ;;
  tft (SetAddrWindow 0 0 SCREEN_W SCREEN_H) ;;
  for_lt 0 (SCREEN_W * SCREEN_H) (fun i => tft (PushColor (imageData i))) ;;
  tft EndWrite.

(** ** Slide animation *)

(** The body of the [for (int i = 1; i <= steps; i++)] loop. *)
Definition slideStep (direction : bool) (stepSize : Z) (i : Z) : M unit :=
  let offset := i * stepSize in
  (if direction then
     tft (SetAddrWindow 0 0 offset SCREEN_H) ;;
     for_lt 0 SCREEN_H (fun y =>
       for_lt 0 offset (fun x =>
         let srcX := SCREEN_W - offset + x in
         let pixelIndex := y * SCREEN_W + srcX in
         tft (PushColor (pic1 pixelIndex))))
   else
     tft (SetAddrWindow (SCREEN_W - offset) 0 offset SCREEN_H) ;;
     for_lt 0 SCREEN_H (fun y =>
       for_lt 0 offset (fun x =>
         let srcX := x in
         let pixelIndex := y * SCREEN_W + srcX in
         tft (PushColor (pic1 pixelIndex))))) ;;
  delay 8.

Definition slideAnimation (direction : bool) : M unit :=
  let steps := 16 in
  let stepSize := idiv SCREEN_W steps in
  for_le 1 steps (slideStep direction stepSize) ;;
  drawFullScreenImage pic1.

(** ** Lock screen *)

Definition drawLockIcon (x y : Z) (unlocked : bool) : M unit :=
  if unlocked then
    tft (FillRoundRect (x - 10) (y - 2) 20 24 4 (RGB 230 255 230)) ;;
    tft (DrawRoundRect (x - 10) (y - 2) 20 24 4 SUCCESS_GREEN) ;;
    tft (DrawRoundRect (x - 9) (y - 1) 18 22 3 SUCCESS_GREEN) ;;
    tft (FillCircle x (y + 8) 3 SUCCESS_GREEN) ;;
    tft (FillRect (x - 1) (y + 10) 2 6 SUCCESS_GREEN) ;;
    let shackleY := y - 24 in
    tft (DrawCircle x shackleY 10 SUCCESS_GREEN) ;;
    tft (DrawCircle x shackleY 9 SUCCESS_GREEN) ;;
    tft (DrawFastVLine (x - 10) shackleY 8 SUCCESS_GREEN) ;;
    tft (DrawFastVLine (x - 9) shackleY 8 SUCCESS_GREEN)
  else
    tft (FillRoundRect (x - 10) (y - 2) 20 24 4 (RGB 240 245 255)) ;;
    tft (DrawRoundRect (x - 10) (y - 2) 20 24 4 ACCENT_BLUE) ;;
    tft (DrawRoundRect (x - 9) (y - 1) 18 22 3 ACCENT_BLUE) ;;
    tft (FillCircle x (y + 8) 3 ACCENT_BLUE) ;;
    tft (FillRect (x - 1) (y + 10) 2 6 ACCENT_BLUE) ;;
    tft (DrawPixel (x - 1) (y + 7) (RGB 200 220 255)) ;;
    tft (DrawCircle x (y - 12) 10 ACCENT_BLUE) ;;
    tft (DrawCircle x (y - 12) 9 ACCENT_BLUE) ;;
    tft (DrawCircle x (y - 12) 8 ACCENT_BLUE) ;;
    tft (DrawFastVLine (x - 10) (y - 12) 10 ACCENT_BLUE) ;;
    tft (DrawFastVLine (x - 9) (y - 12) 10 ACCENT_BLUE) ;;
    tft (DrawFastVLine (x - 8) (y - 12) 10 ACCENT_BLUE) ;;
    tft (DrawFastVLine (x + 8) (y - 12) 10 ACCENT_BLUE) ;;
    tft (DrawFastVLine (x + 9) (y - 12) 10 ACCENT_BLUE) ;;
    tft (DrawFastVLine (x + 10) (y - 12) 10 ACCENT_BLUE).

Definition drawPasscodeCircles : M unit :=
  let spacing := 24 in
  let startX := idiv (SCREEN_W - (PASS_LENGTH - 1) * spacing) 2 in
  let circleY := 138 in
  for_lt 133 151 (fun y => lockGradientRow 15 y 98) ;;
  for_lt 0 PASS_LENGTH (fun i =>
    let x := startX + i * spacing in
    cursor ← gets passIndex;
    if decide (i < cursor) then
      sym ← gets (fun d => enteredPasscode d !!! Z.to_nat i);
      let fillColor :=
        if decide (sym = 0) then ACCENT_BLUE
        else if decide (sym = 1) then ACCENT_PURPLE
        else if decide (sym = 2) then ACCENT_PINK
        else ACCENT_ORANGE in
      tft (FillCircle x circleY 7 fillColor) ;;
      tft (DrawCircle x circleY 7 fillColor) ;;
      tft (SetTextSize 1) ;;
      tft (SetTextColor CARD_BG) ;;
      tft (SetCursor (x - 3) (circleY - 4)) ;;
      tft (PrintNum sym)
    else
      tft (DrawCircle x circleY 7 CIRCLE_EMPTY) ;;
      tft (DrawCircle x circleY 6 CIRCLE_EMPTY) ;;
      tft (FillCircle x circleY 2 CIRCLE_EMPTY)).

Definition drawLockScreen : M unit :=
  for_lt 0 SCREEN_H (fun y => lockGradientRow 0 y SCREEN_W) ;;
  let cardY := 30 in
  let cardH := 85 in
  let cardW := 104 in
  let cardX := idiv (SCREEN_W - cardW) 2 in
  tft (FillRoundRect (cardX + 2) (cardY + 2) cardW cardH 15 SHADOW) ;;
  tft (FillRoundRect cardX cardY cardW cardH 15 CARD_BG) ;;
  tft (DrawRoundRect cardX cardY cardW cardH 15 ACCENT_BLUE) ;;
  drawLockIcon (idiv SCREEN_W 2) 65 false ;;
  tft (SetTextSize 1) ;;
  tft (SetTextColor TEXT_DARK) ;;
  let lockedTextW := 6 * 6 in
  tft (SetCursor (idiv (SCREEN_W - lockedTextW) 2) 95) ;;
  tft (Print "LOCKED") ;;
  tft (SetTextColor TEXT_LIGHT) ;;
  let passcodeTextW := 14 * 6 in
  tft (SetCursor (idiv (SCREEN_W - passcodeTextW) 2) 118) ;;
  tft (Print "Enter Passcode") ;;
  drawPasscodeCircles.

(** The banner strip repainted by both animations. *)
Definition bannerGradient : M unit :=
  for_lt 60 95 (fun y => lockGradientRow 10 y 108).

Definition showUnlockAnimation : M unit :=
  rgbPulseEffect (Color 0 255 0) ;;
  successVibration ;;
  for_lt 0 2 (fun _ =>
    tft (FillRect 10 60 108 35 BG_COLOR) ;;
    delay 20 ;;
    bannerGradient ;;
    delay 15 ;;
    tft (SetTextSize 2) ;;
    tft (SetTextColor SUCCESS_GREEN) ;;
    tft (SetCursor 22 70) ;;
    tft (Print "UNLOCKED") ;;
    delay 300 ;;
    tft (FillRect 10 60 108 35 BG_COLOR) ;;
    bannerGradient ;;
    delay 200) ;;
  tft (FillRect 10 60 108 35 BG_COLOR) ;;
  bannerGradient ;;
  delay 15 ;;
  tft (SetTextSize 2) ;;
  tft (SetTextColor SUCCESS_GREEN) ;;
  tft (SetCursor 22 70) ;;
  tft (Print "UNLOCKED") ;;
  rgbRainbow ;;
  delay 300.

Definition showLockedAnimation : M unit :=
  for_lt 0 3 (fun _ =>
    setRGBLeds (Color 255 0 0) ;;
    vibrate VIB_SHORT ;;
    setRGBLeds (Color 0 0 0) ;;
    delay 100) ;;
  errorVibration ;;
  for_lt 0 2 (fun _ =>
    tft (FillRect 10 60 108 35 BG_COLOR) ;;
    delay 20 ;;
    bannerGradient ;;
    delay 15 ;;
    tft (SetTextSize 2) ;;
    tft (SetTextColor ERROR_RED) ;;
    tft (SetCursor 28 70) ;;
    tft (Print "LOCKED") ;;
    delay 300 ;;
    tft (FillRect 10 60 108 35 BG_COLOR) ;;
    bannerGradient ;;
    delay 200) ;;
  modify (with_passIndex 0) ;;
  for_lt 0 PASS_LENGTH (fun i =>
    modify (fun d => with_enteredPasscode (<[Z.to_nat i := 0]> (enteredPasscode d)) d)) ;;
  setRGBLeds (Color 0 100 255) ;;
  drawLockScreen.

(** ** Menu *)

Definition menuTitles : list string :=
  ["Hope Letter"; "Memories"; "Quote"; "About"]%string.
Definition menuColors : list Z :=
  [ACCENT_PURPLE; ACCENT_PINK; ACCENT_BLUE; ACCENT_ORANGE].

Definition drawMenuItem (itemIndex : Z) (isSelected : bool) : M unit :=
  let items := menuTitles in
  let colors := menuColors in
  let startY := 55 in
  let itemHeight := 20 in
  let spacing := 3 in
  let y := startY + itemIndex * (itemHeight + spacing) in
  let color := colors !!! Z.to_nat itemIndex in
  tft (FillRoundRect 13 (y + 2) 102 itemHeight 10 (RGB 190 195 205)) ;;
  tft (FillRoundRect 12 (y + 1) 102 itemHeight 10 SHADOW) ;;
  (if isSelected then
     tft (FillRoundRect 11 y 106 itemHeight 10 color) ;;
     for_lt 0 3 (fun b =>
       tft (DrawRoundRect (11 + b) (y + b) (106 - b * 2) (itemHeight - b * 2) (10 - b) color))
   else
     tft (FillRoundRect 11 y 106 itemHeight 10 CARD_BG) ;;
     for_lt 0 2 (fun b =>
       tft (DrawRoundRect (11 + b) (y + b) (106 - b * 2) (itemHeight - b * 2) (10 - b) color))) ;;
  let badgeX := 19 in
  let badgeY := y + 10 in
  let badgeColor := if isSelected then CARD_BG else color in
  let badgeTextColor := if isSelected then color else CARD_BG in
  tft (FillCircle (badgeX + 1) (badgeY + 1) 7 (RGB 180 185 195)) ;;
  tft (FillCircle badgeX badgeY 8 badgeColor) ;;
  tft (FillCircle badgeX badgeY 7 badgeColor) ;;
  tft (SetTextSize 1) ;;
  tft (SetTextColor badgeTextColor) ;;
  tft (SetCursor (badgeX - 3) (badgeY - 4)) ;;
  tft (PrintNum (itemIndex + 1)) ;;
  let emojiBaseX := 32 in
  let emojiBaseY := y + 4 in
  (if isSelected then
     tft (FillCircle (emojiBaseX + 6) (emojiBaseY + 6) 8 (RGB 255 255 255)) ;;
     tft (DrawCircle (emojiBaseX + 6) (emojiBaseY + 6) 8 (RGB 240 245 250))
   else
     tft (FillCircle (emojiBaseX + 6) (emojiBaseY + 6) 8 (RGB 248 250 252)) ;;
     tft (DrawCircle (emojiBaseX + 6) (emojiBaseY + 6) 8 (RGB 230 235 240))) ;;
  match itemIndex with
  | 0 => render (LoveLetter (emojiBaseX + 1) (emojiBaseY + 1))
  | 1 => render (Landscape (emojiBaseX + 1) (emojiBaseY + 2))
  | 2 => render (Note (emojiBaseX + 1) (emojiBaseY + 1))
  | 3 => render (Profile (emojiBaseX + 1) (emojiBaseY + 1))
  | _ => skip
  end ;;
  tft (SetTextSize 1) ;;
  (if isSelected then tft (SetTextColor CARD_BG) else tft (SetTextColor TEXT_DARK)) ;;
  tft (SetCursor 48 (y + 6)) ;;
  tft (Print (items !!! Z.to_nat itemIndex)).

Definition drawMenu : M unit :=
  setRGBLeds (Color 150 50 200) ;;
  unlockVibration ;;
  for_lt 0 SCREEN_H menuGradientRow ;;
  let titleY := 8 in
  tft (FillRoundRect 24 (titleY + 3) 80 28 14 (RGB 180 185 195)) ;;
  tft (FillRoundRect 23 titleY 80 28 14 CARD_BG) ;;
  for_lt 0 3 (fun i =>
    tft (DrawRoundRect (23 + i) (titleY + i) (80 - i * 2) (28 - i * 2) (14 - i) ACCENT_PURPLE)) ;;
  tft (SetTextSize 2) ;;
  tft (SetTextColor TEXT_DARK) ;;
  tft (SetCursor 41 15) ;;
  tft (Print "MENU") ;;
  tft (FillCircle 15 45 2 ACCENT_PURPLE) ;;
  tft (FillCircle 113 45 2 ACCENT_PURPLE) ;;
  for_lt 0 2 (fun i => tft (DrawFastHLine 20 (45 + i) 88 (RGB 210 215 225))) ;;
  for_lt 0 4 (fun i =>
    sel ← gets selectedMenuItem;
    drawMenuItem i (bool_decide (i = sel))).

(** ** Content screens *)

Definition drawPageIndicator : M unit :=
  pages ← gets maxPages;
  if decide (pages <= 1) then skip
  else
    let dotSize := 4 in
    let spacing := 9 in
    let totalWidth := pages * dotSize + (pages - 1) * spacing in
    let startX := idiv (SCREEN_W - totalWidth) 2 in
    let dotY := 148 in
    for_lt 0 pages (fun i =>
      let x := startX + i * (dotSize + spacing) + idiv dotSize 2 in
      page ← gets currentPage;
      if decide (i = page) then
        tft (FillCircle x dotY dotSize ACCENT_PURPLE) ;;
        tft (DrawCircle x dotY (dotSize + 1) ACCENT_PURPLE)
      else
        tft (DrawCircle x dotY 2 CIRCLE_EMPTY) ;;
        tft (FillCircle x dotY 1 CIRCLE_EMPTY)).

(** [if (maxPages > 1) { drawPageIndicator(); }] *)
Definition indicatorIfPaged : M unit :=
  pages ← gets maxPages;
  if decide (pages > 1) then drawPageIndicator else skip.

(** The title-bar layout of [showContent], used for every content but
    the image content. *)
Definition drawTitleBar (contentIndex : Z) : M unit :=
  let titles := menuTitles in
  let colors := menuColors in
  for_lt 0 SCREEN_H menuGradientRow ;;
  tft (FillRoundRect 6 7 116 22 10 (RGB 180 185 195)) ;;
  tft (FillRoundRect 5 5 116 22 10 (colors !!! Z.to_nat contentIndex)) ;;
  tft (SetTextSize 1) ;;
  tft (SetTextColor CARD_BG) ;;
  let titleW := Z.of_nat (String.length (titles !!! Z.to_nat contentIndex)) * 6 in
  tft (SetCursor (idiv (SCREEN_W - titleW) 2) 12) ;;
  tft (Print (titles !!! Z.to_nat contentIndex)).

Definition showContent (contentIndex : Z) : M unit :=
  match contentIndex with
  | 0 => modify (with_maxPages 6)
  | 1 => modify (with_maxPages 3)
  | 2 => modify (with_maxPages 2)
  | 3 => modify (with_maxPages 1)
  | _ => skip
  end ;;
  modify (with_currentPage 0) ;;
  modify (with_lastMemoryPage 0) ;;
  vibrate VIB_MEDIUM ;;
  if decide (contentIndex = 1) then
    drawFullScreenImage pic1 ;;
    indicatorIfPaged
  else
    drawTitleBar contentIndex ;;
    page ← gets currentPage;
    (if decide (contentIndex = 0 ∨ contentIndex = 2) then
       match contentIndex with
       | 0 => render (LetterContent page)
       | 2 => render (QuoteContent page)
       | _ => skip
       end
     else if decide (contentIndex = 3) then render (AboutContent page)
     else skip) ;;
    indicatorIfPaged.

Definition updatePageContent (contentIndex : Z) : M unit :=
  pageTurnVibration ;;
  if decide (contentIndex = 1) then
    page ← gets currentPage;
    lastPage ← gets lastMemoryPage;
    let slideDirection := bool_decide (page > lastPage) in
    modify (with_lastMemoryPage page) ;;
    slideAnimation slideDirection ;;
    indicatorIfPaged
  else
    page ← gets currentPage;
    (if decide (contentIndex = 0 ∨ contentIndex = 2) then
       tft (FillRect 0 31 SCREEN_W 113 BG_COLOR) ;;
       for_lt 31 144 menuGradientRow ;;
       match contentIndex with
       | 0 => render (LetterContent page)
       | 2 => render (QuoteContent page)
       | _ => skip
       end
     else if decide (contentIndex = 3) then render (AboutContent page)
     else skip) ;;
    indicatorIfPaged.

(** ** Inputs of one pass of [loop] *)

Inductive Button := Button0 | Button1 | ButtonSelect | ButtonBack.

#[global] Instance Button_eq_dec : EqDecision Button.
Proof. solve_decision. Defined.

(** What the environment answers during one pass: the level of each line
    at the top of [handleButtons], its level when re-read after the
    debounce delay (read only after a falling edge), the value of
    [millis()] when each press is accepted, and the value of [millis()]
    in the timeout test of [loop]. *)
Record Tick := mkTick {
  sampled : Button -> bool;
  settled : Button -> bool;
  pressedAt : Button -> Z;
  loopAt : Z
}.

(** ** Button handler *)

(** The LOCKED branch, written four times in [handleButtons]; the copies
    differ in the stored symbol, the LED colour and the ring colour. *)
Definition enterSymbol (symbol ledColor ringColor : Z) : M unit :=
  modify (fun d =>
    with_enteredPasscode (<[Z.to_nat (passIndex d) := symbol]> (enteredPasscode d)) d) ;;
  modify (fun d => with_passIndex (u8 (passIndex d + 1)) d) ;;
  setRGBLeds ledColor ;;
  let spacing := 24 in
  let startX := idiv (SCREEN_W - (PASS_LENGTH - 1) * spacing) 2 in
  cursor ← gets passIndex;
  let x := startX + (cursor - 1) * spacing in
  let y := 138 in
  for_by 7 11 2 (fun r =>
    tft (DrawCircle x y r ringColor) ;;
    delay 8) ;;
  drawPasscodeCircles ;;
  cursor ← gets passIndex;
  if decide (cursor >= PASS_LENGTH) then
    delay 150 ;;
    ifM checkPasscode
      (modify (with_currentState UNLOCKING) ;;
       showUnlockAnimation ;;
       drawMenu ;;
       modify (with_currentState MENU))
      showLockedAnimation
  else skip.

(** The [switch (selectedMenuItem)] that sets the ambient colour. *)
Definition menuAmbient : M unit :=
  sel ← gets selectedMenuItem;
  match sel with
  | 0 => setRGBLeds (Color 150 50 200)
  | 1 => setRGBLeds (Color 255 100 180)
  | 2 => setRGBLeds (Color 0 100 255)
  | 3 => setRGBLeds (Color 255 150 0)
  | _ => skip
  end.

(** The test [currentState == LOCKED && passIndex < PASS_LENGTH]. *)
Definition acceptingSymbol (d : Dev) : bool :=
  bool_decide (currentState d = LOCKED) && bool_decide (passIndex d < PASS_LENGTH).

(** Body of the accepted press of BUTTON_0 (UP). *)
Definition onButton0 (now : Z) : M unit :=
  modify (with_lastPressTime (u32 now)) ;;
  buttonPressVibration ;;
  d ← gets id;
  if acceptingSymbol d then
    enterSymbol 0 (Color 0 100 255) ACCENT_BLUE
  else if decide (currentState d = MENU) then
    let oldSelection := selectedMenuItem d in
    modify (with_selectedMenuItem
              (if decide (selectedMenuItem d = 0) then 3 else u8 (selectedMenuItem d - 1))) ;;
    menuNavigationVibration ;;
    menuAmbient ;;
    drawMenuItem oldSelection false ;;
    sel ← gets selectedMenuItem;
    drawMenuItem sel true
  else if decide (currentState d = CONTENT) then
    if decide (currentPage d > 0) then
      modify (with_currentPage (u8 (currentPage d - 1))) ;;
      updatePageContent (selectedMenuItem d)
    else skip
  else skip.

(** Body of the accepted press of BUTTON_1 (DOWN). *)
Definition onButton1 (now : Z) : M unit :=
  modify (with_lastPressTime (u32 now)) ;;
  buttonPressVibration ;;
  d ← gets id;
  if acceptingSymbol d then
    enterSymbol 1 (Color 150 50 200) ACCENT_PURPLE
  else if decide (currentState d = MENU) then
    let oldSelection := selectedMenuItem d in
    modify (with_selectedMenuItem (u8 (irem (selectedMenuItem d + 1) 4))) ;;
    menuNavigationVibration ;;
    menuAmbient ;;
    drawMenuItem oldSelection false ;;
    sel ← gets selectedMenuItem;
    drawMenuItem sel true
  else if decide (currentState d = CONTENT) then
    if decide (currentPage d < maxPages d - 1) then
      modify (with_currentPage (u8 (currentPage d + 1))) ;;
      updatePageContent (selectedMenuItem d)
    else skip
  else skip.

(** Body of the accepted press of BUTTON_SELECT. *)
Definition onButtonSelect (now : Z) : M unit :=
  modify (with_lastPressTime (u32 now)) ;;
  buttonPressVibration ;;
  d ← gets id;
  if acceptingSymbol d then
    enterSymbol 2 (Color 255 100 180) ACCENT_PINK
  else if decide (currentState d = MENU) then
    showContent (selectedMenuItem d) ;;
    modify (with_currentState CONTENT) ;;
    setRGBLeds (Color 50 50 50)
  else skip.

(** Body of the accepted press of BUTTON_BACK. *)
Definition onButtonBack (now : Z) : M unit :=
  modify (with_lastPressTime (u32 now)) ;;
  buttonPressVibration ;;
  d ← gets id;
  if acceptingSymbol d then
    enterSymbol 3 (Color 255 150 0) ACCENT_ORANGE
  else if decide (currentState d = CONTENT) then
    drawMenu ;;
    modify (with_currentState MENU)
  else skip.

(** Edge detection and debounce of one line: on a HIGH-to-LOW edge wait
    [DEBOUNCE], read the line again and run the body if it is still LOW.
    Returns the level that ends up in the local [currentButtonX]. *)
Definition debounced (t : Tick) (b : Button) (last : Dev -> bool) (body : M unit) : M bool :=
  let current := sampled t b in
  was ← gets last;
  if bool_decide (current = LOW) && bool_decide (was = HIGH) then
    delay DEBOUNCE ;;
    let current := settled t b in
    (if bool_decide (current = LOW) then body else skip) ;;
    mret current
  else mret current.

Definition handleButtons (t : Tick) : M unit :=
  currentButton0 ← debounced t Button0 lastButton0 (onButton0 (pressedAt t Button0));
  currentButton1 ← debounced t Button1 lastButton1 (onButton1 (pressedAt t Button1));
  currentButtonSelect ←
    debounced t ButtonSelect lastButtonSelect (onButtonSelect (pressedAt t ButtonSelect));
  currentButtonBack ←
    debounced t ButtonBack lastButtonBack (onButtonBack (pressedAt t ButtonBack));
  modify (with_lastButtons currentButton0 currentButton1 currentButtonSelect currentButtonBack).

(** ** Main loop *)

(** The test of the idle timeout; [millis() - lastPressTime] is an
    [unsigned long] difference. *)
Definition timedOut (now : Z) (d : Dev) : bool :=
  bool_decide (currentState d = LOCKED)
  && bool_decide (u32 (u32 now - lastPressTime d) > TIMEOUT_MS)
  && bool_decide (passIndex d > 0).

Definition loop (t : Tick) : M unit :=
  handleButtons t ;;
  d ← gets id;
  if timedOut (loopAt t) d then
    modify (with_passIndex 0) ;;
    for_lt 0 PASS_LENGTH (fun i =>
      modify (fun d => with_enteredPasscode (<[Z.to_nat i := 0]> (enteredPasscode d)) d)) ;;
    drawPasscodeCircles
  else skip.

(** Successive passes of [loop], one per tick. *)
Definition passes (ticks : list Tick) : M unit := forEach ticks loop.

(** A pass during which button [b] is found LOW on both reads (an accepted
    press if the line was HIGH on the previous pass) and the other lines
    are HIGH; [at] is the clock at the press, [now] the clock in the
    timeout test. *)
Definition pressing (b : Button) (at_ now : Z) : Tick :=
  mkTick (fun b' => if decide (b' = b) then LOW else HIGH)
         (fun b' => if decide (b' = b) then LOW else HIGH)
         (fun _ => at_) now.

(** A pass during which all four lines are HIGH. *)
Definition released (now : Z) : Tick :=
  mkTick (fun _ => HIGH) (fun _ => HIGH) (fun _ => now) now.

(** Press and release of one button: two passes. *)
Definition click (b : Button) (at_ now later : Z) : list Tick :=
  [pressing b at_ now; released later].

(** Successive clicks of the same button, one per triple of clock readings. *)
Definition clicks (b : Button) (times : list (Z * Z * Z)) : list Tick :=
  flat_map (fun ts => click b ts.1.1 ts.1.2 ts.2) times.

(** The globals when [setup] returns: of the globals above, [setup]
    assigns only [currentState]. *)
Definition locked_start : Dev := with_currentState LOCKED power_on.

(** ** Vocabulary of the statements *)

(** A computation that leaves the globals alone and issues the same
    commands from every state. *)
Definition silent (m : M unit) (es : list Event) : Prop :=
  forall d, run m d = (tt, d, es).

(** A computation that leaves the globals alone. *)
Definition keeps {A} (m : M A) : Prop := forall d, after m d = d.

(** The passcode symbol entered by each button, the handler of its
    accepted press, and the level recorded for it on the previous pass. *)
Definition symbolOf (b : Button) : Z :=
  match b with Button0 => 0 | Button1 => 1 | ButtonSelect => 2 | ButtonBack => 3 end.

Definition onButton (b : Button) (now : Z) : M unit :=
  match b with
  | Button0 => onButton0 now
  | Button1 => onButton1 now
  | ButtonSelect => onButtonSelect now
  | ButtonBack => onButtonBack now
  end.

Definition lastLevel (b : Button) (d : Dev) : bool :=
  match b with
  | Button0 => lastButton0 d
  | Button1 => lastButton1 d
  | ButtonSelect => lastButtonSelect d
  | ButtonBack => lastButtonBack d
  end.

(** The levels recorded at the end of a pass in which only [b] is LOW. *)
Definition onlyLow (b : Button) (d : Dev) : Dev :=
  with_lastButtons (bool_decide (b <> Button0)) (bool_decide (b <> Button1))
                   (bool_decide (b <> ButtonSelect)) (bool_decide (b <> ButtonBack)) d.

(** A pass in which neither SELECT nor BACK is found LOW: whatever the
    other two lines do, the only inputs are "previous" and "next". *)
Definition pagingOnly (t : Tick) : Prop :=
  sampled t ButtonSelect = HIGH /\ sampled t ButtonBack = HIGH.

(** The Content state with a page cursor inside [0, pages). *)
Definition paging (pages : Z) (d : Dev) : Prop :=
  currentState d = CONTENT /\ maxPages d = pages /\
  0 <= currentPage d < pages /\ pages <= 255.

(** The Memories content on display: Content state, menu entry 1, the
    slide bookkeeping in step with the page cursor. *)
Definition memories (d : Dev) : Prop :=
  currentState d = CONTENT /\ selectedMenuItem d = 1 /\
  lastMemoryPage d = currentPage d /\
  0 <= currentPage d < maxPages d /\ maxPages d <= 255.

(** A pass in which no press is accepted: every line is either HIGH, or
    was already LOW on the previous pass, or is HIGH again when re-read. *)
Definition quiet (t : Tick) (d : Dev) : Prop :=
  forall b, sampled t b = LOW -> lastLevel b d = HIGH -> settled t b = HIGH.

(** The attempt after [passIndex = 0] and the loop clearing the four slots. *)
Definition cleared (d : Dev) : Dev :=
  with_enteredPasscode
    (<[3%nat := 0]> (<[2%nat := 0]> (<[1%nat := 0]> (<[0%nat := 0]> (enteredPasscode d)))))
    (with_passIndex 0 d).

(** The pixels [g lo], ..., [g (hi-1)] pushed to the display one by one. *)
Definition pushes (g : Z -> Z) (lo hi : Z) : list Event :=
  (fun i => Display (PushColor (g i))) <$> seqZ lo (hi - lo).

(** The commands of one step of the slide: the window, the strip row by
    row, the pause. *)
Definition stepEvents (dir : bool) (stepSize i : Z) : list Event :=
  ([Display (SetAddrWindow (if dir then 0 else SCREEN_W - i * stepSize) 0 (i * stepSize) SCREEN_H)]
   ++ flat_map (fun y =>
        pushes (fun x => pic1 (y * SCREEN_W + (if dir then SCREEN_W - i * stepSize + x else x)))
               0 (i * stepSize))
        (seqZ 0 (SCREEN_H - 0)))
  ++ [Delay 8].

(** Commands of a pixel transfer whose pixels are all read from the
    image table [img], at indices inside the table, and the pauses between
    transfers. *)
Definition fromImage (img : Z -> Z) (e : Event) : Prop :=
  match e with
  | Display StartWrite | Display EndWrite | Display (SetAddrWindow _ _ _ _) | Delay _ => True
  | Display (PushColor c) => exists k, 0 <= k < SCREEN_W * SCREEN_H /\ c = img k
  | _ => False
  end.

(** Commands of the kinds that make up the title-bar layout: gradient
    rows, rounded rectangles and text. *)
Definition titleBarCommand (e : Event) : bool :=
  match e with
  | Display (DrawFastHLine _ _ _ _) | Display (FillRoundRect _ _ _ _ _ _)
  | Display (SetTextSize _) | Display (SetTextColor _) | Display (SetCursor _ _)
  | Display (Print _) => true
  | _ => false
  end.

(** Commands that change what the display shows. *)
Definition touchesDisplay (e : Event) : bool :=
  match e with
  | Display _ | Render _ => true
  | _ => false
  end.

(** Commands that drive the vibration motor. *)
Definition drivesMotor (e : Event) : bool :=
  match e with
  | DigitalWrite pin _ => bool_decide (pin = VIBRATION_MOTOR_PIN)
  | _ => false
  end.

(** ** The display's pixel memory under pixel streams

    The display collaborator accepts a rectangular pixel-write command:
    an address window [(x, y, w, h)] followed by a stream of pixels that
    fills the window row by row.  Only these commands are interpreted;
    shape and text commands, and a pixel pushed past the end of the
    window, are outside this model ([None]). *)

Record Panel := mkPanel {
  winX : Z; winY : Z; winW : Z; winH : Z;
  cursor : Z;
  pixel : Z -> Z -> Z
}.

Definition panel_cmd (c : Tft) (p : Panel) : option Panel :=
  match c with
  | StartWrite | EndWrite => Some p
  | SetAddrWindow x y w h => Some (mkPanel x y w h 0 (pixel p))
  | PushColor c =>
      if decide (0 < winW p /\ 0 <= cursor p < winW p * winH p) then
        let X := winX p + cursor p `mod` winW p in
        let Y := winY p + cursor p `div` winW p in
        Some (mkPanel (winX p) (winY p) (winW p) (winH p) (cursor p + 1)
                (fun x y => if decide (x = X /\ y = Y) then c else pixel p x y))
      else None
  | _ => None
  end.

Definition panel_event (e : Event) (p : Panel) : option Panel :=
  match e with
  | Display c => panel_cmd c p
  | Render _ => None
  | _ => Some p
  end.

Fixpoint paint (es : list Event) (p : Panel) : option Panel :=
  match es with
  | [] => Some p
  | e :: rest =>
      match panel_event e p with
      | Some p' => paint rest p'
      | None => None
      end
  end.

(** ** States used in the concrete runs *)

(** The globals after the four presses of UP that unlock the device. *)
Definition unlocked : Dev :=
  after (passes
           (clicks Button0 [(0, 0, 0); (100, 100, 100); (200, 200, 200); (300, 300, 300)]))
        locked_start.

(** ... and after SELECT on the first menu entry (six pages of text). *)
Definition reading : Dev :=
  after (passes (click ButtonSelect 400 400 400)) unlocked.

(** The globals after one press of DOWN on the lock screen, at time 0. *)
Definition one_symbol : Dev :=
  after (passes (click Button1 0 0 0)) locked_start.

(** ** The globals after one pass, as a function

    What a pass of [loop] does to the globals, written without the
    commands: the effect of each accepted press, then the levels recorded
    for the four lines, then the idle timeout. *)

(** The globals after the LOCKED branch of a handler has stored the
    symbol [s]. *)
Definition entered (s : Z) (d : Dev) : Dev :=
  let d1 := with_passIndex (u8 (passIndex d + 1))
              (with_enteredPasscode (<[Z.to_nat (passIndex d) := s]> (enteredPasscode d)) d) in
  if decide (passIndex d1 >= PASS_LENGTH) then
    if result checkPasscode d1 then with_currentState MENU d1 else cleared d1
  else d1.

(** The globals after [showContent]. *)
Definition opened (contentIndex : Z) (d : Dev) : Dev :=
  with_lastMemoryPage 0
    (with_currentPage 0
       match contentIndex with
       | 0 => with_maxPages 6 d
       | 1 => with_maxPages 3 d
       | 2 => with_maxPages 2 d
       | 3 => with_maxPages 1 d
       | _ => d
       end).

(** The globals after the page cursor has moved to [page] and
    [updatePageContent] has run. *)
Definition turned (page : Z) (d : Dev) : Dev :=
  let d2 := with_currentPage page d in
  if decide (selectedMenuItem d = 1) then with_lastMemoryPage page d2 else d2.

(** The globals after the accepted press of button [b] at clock [now]. *)
Definition pressed (b : Button) (now : Z) (d : Dev) : Dev :=
  let d1 := with_lastPressTime (u32 now) d in
  if acceptingSymbol d then entered (symbolOf b) d1
  else
    match currentState d, b with
    | MENU, Button0 =>
        with_selectedMenuItem
          (if decide (selectedMenuItem d = 0) then 3 else u8 (selectedMenuItem d - 1)) d1
    | MENU, Button1 => with_selectedMenuItem (u8 (irem (selectedMenuItem d + 1) 4)) d1
    | MENU, ButtonSelect => with_currentState CONTENT (opened (selectedMenuItem d) d1)
    | CONTENT, Button0 =>
        if decide (currentPage d > 0) then turned (u8 (currentPage d - 1)) d1 else d1
    | CONTENT, Button1 =>
        if decide (currentPage d < maxPages d - 1) then turned (u8 (currentPage d + 1)) d1
        else d1
    | CONTENT, ButtonBack => with_currentState MENU d1
    | _, _ => d1
    end.

(** A press of [b] is accepted in this pass: the line was HIGH on the
    previous pass, is LOW now and is still LOW after the debounce delay. *)
Definition accepts (t : Tick) (d : Dev) (b : Button) : bool :=
  negb (sampled t b) && lastLevel b d && negb (settled t b).

(** The line is LOW now, was HIGH, and is HIGH again after the debounce
    delay. *)
Definition bounces (t : Tick) (d : Dev) (b : Button) : bool :=
  negb (sampled t b) && lastLevel b d && settled t b.

(** The level that ends up in [lastButtonX]: the second reading if there
    was one, the first otherwise. *)
Definition recorded (t : Tick) (d : Dev) (b : Button) : bool :=
  if sampled t b then HIGH else if lastLevel b d then settled t b else LOW.

(** The globals after [handleButtons], and after the whole pass. *)
Definition handled (t : Tick) (d : Dev) : Dev :=
  let press b d' := if accepts t d b then pressed b (pressedAt t b) d' else d' in
  with_lastButtons (recorded t d Button0) (recorded t d Button1)
                   (recorded t d ButtonSelect) (recorded t d ButtonBack)
    (press ButtonBack (press ButtonSelect (press Button1 (press Button0 d)))).

Definition passed (t : Tick) (d : Dev) : Dev :=
  let d1 := handled t d in
  if timedOut (loopAt t) d1 then cleared d1 else d1.

(** ** Vocabulary of the further properties *)

(** The page count [showContent] gives each menu entry. *)
Definition pagesOf (sel : Z) : Z := [6; 3; 2; 1] !!! Z.to_nat sel.

(** The shape of the globals between two passes of [loop]: the
    navigation state is one of Locked, Menu, Content; the attempt has its
    four slots, each holding a symbol; the cursor of an open attempt is
    below [PASS_LENGTH]; outside the Locked state the slots hold the
    reference sequence; the selection indexes the four-entry catalog; and
    in the Content state the page cursor is a page of the selected entry,
    with the slide bookkeeping of the image content in step with it. *)
Definition wellFormed (d : Dev) : Prop :=
  length (enteredPasscode d) = Z.to_nat PASS_LENGTH /\
  Forall (fun s => 0 <= s <= 3) (enteredPasscode d) /\
  0 <= selectedMenuItem d < 4 /\
  match currentState d with
  | LOCKED => 0 <= passIndex d < PASS_LENGTH
  | MENU => passIndex d = PASS_LENGTH /\ enteredPasscode d = CORRECT_PASSCODE
  | CONTENT =>
      passIndex d = PASS_LENGTH /\ enteredPasscode d = CORRECT_PASSCODE /\
      maxPages d = pagesOf (selectedMenuItem d) /\
      0 <= currentPage d < maxPages d /\
      (selectedMenuItem d = 1 -> lastMemoryPage d = currentPage d)
  | BOOTING | UNLOCKING => False
  end.

(** A pass in which several buttons are found LOW on both reads, the
    others HIGH. *)
Definition chord (low : Button -> bool) (at_ now : Z) : Tick :=
  mkTick (fun b => negb (low b)) (fun b => negb (low b)) (fun _ => at_) now.

(** Every command of a computation's trace satisfies [P], from every
    state of the globals. *)
Definition always (P : list Event -> Prop) {A} (m : M A) : Prop :=
  forall d, P (events m d).

(** The motor is driven in whole pulses: each HIGH on the motor pin is
    followed by one pause of at most [VIB_LONG] and then by the LOW, with
    nothing in between. *)
Inductive Pulsed : list Event -> Prop :=
| Pulsed_nil : Pulsed []
| Pulsed_other e es : drivesMotor e = false -> Pulsed es -> Pulsed (e :: es)
| Pulsed_pulse ms es :
    0 <= ms <= VIB_LONG -> Pulsed es ->
    Pulsed (DigitalWrite VIBRATION_MOTOR_PIN HIGH :: Delay ms
            :: DigitalWrite VIBRATION_MOTOR_PIN LOW :: es).

(** The LED strip: a colour staged for a pixel with [setPixelColor]
    is not visible until [show].  [staging] tells whether a trace ends with
    colours staged and not yet shown. *)
Definition staging (pending : bool) (es : list Event) : bool :=
  foldl (fun st e => match e with
                     | SetPixelColor _ _ => true
                     | Show => false
                     | _ => st
                     end) pending es.

Definition Latched (es : list Event) : Prop := staging false es = false.

(** The time a trace spends in [delay], and the number of times it
    starts the motor. *)
Definition duration (es : list Event) : Z :=
  foldr (fun e acc => match e with Delay ms => ms + acc | _ => acc end) 0 es.

Definition motorStarts (es : list Event) : Z :=
  Z.of_nat (length (filter (fun e => e = DigitalWrite VIBRATION_MOTOR_PIN HIGH) es)).

(** A circle command whose disc lies within the screen (every other
    command counts as on screen), and the filled dot that marks the
    current page in the page indicator. *)
Definition circleOnScreen (e : Event) : bool :=
  match e with
  | Display (FillCircle x y r _) | Display (DrawCircle x y r _) =>
      bool_decide (0 <= x - r /\ x + r < SCREEN_W /\ 0 <= y - r /\ y + r < SCREEN_H)
  | _ => true
  end.

Definition currentDot (e : Event) : bool :=
  match e with
  | Display (FillCircle _ _ r c) => bool_decide (r = 4 /\ c = ACCENT_PURPLE)
  | _ => false
  end.

(** ** RGB LED control: the functions the sketch defines and does not call *)

Definition setRGBLed (ledIndex color : Z) : M unit :=
  if decide (ledIndex < RGB_LED_COUNT) then
    emit (SetPixelColor ledIndex color) ;;
    emit Show
  else skip.

(** [for (int i = hi; i >= lo; i -= step)], [step > 0] *)
Definition for_down (hi lo step : Z) (body : Z -> M unit) : M unit :=
  forEach ((fun k => hi - k * step) <$> seqZ 0 ((hi - lo) `div` step + 1)) body.

(** One step of either fade of [rgbBreathEffect]. *)
Definition breathStep (r g b brightness : Z) : M unit :=
  let r_scaled := u8 (idiv (r * brightness) 255) in
  let g_scaled := u8 (idiv (g * brightness) 255) in
  let b_scaled := u8 (idiv (b * brightness) 255) in
  setRGBLeds (Color r_scaled g_scaled b_scaled) ;;
  delay 10.

Definition rgbBreathEffect (color cycles : Z) : M unit :=
  let r := u8 (Z.land (Z.shiftr color 16) 0xFF) in
  let g := u8 (Z.land (Z.shiftr color 8) 0xFF) in
  let b := u8 (Z.land color 0xFF) in
  for_lt 0 cycles (fun _ =>
    for_by 0 255 5 (breathStep r g b) ;;
    for_down 255 0 5 (breathStep r g b)).

(** ** Boot logo

    The table of image.h is not part of the sketch file; it is an
    argument. *)
Definition showBootLogo (unnamed_1_1_ : Z -> Z) : M unit :=
  tft StartWrite ;;
  tft (SetAddrWindow 0 0 SCREEN_W SCREEN_H) ;;
  for_lt 0 (SCREEN_W * SCREEN_H) (fun i => tft (PushColor (unnamed_1_1_ i))) ;;
  tft EndWrite.

(** ** Start-up: [setup] and [initSDCard]

    The calls of [setup] and [initSDCard] on the serial port, the SPI bus,
    the pin configuration, the two device drivers and the SD card library
    are further commands; the commands of the rest of the sketch are
    wrapped in [Core].  The three SD globals join the globals of the
    navigation. *)

Definition SD_CS : Z := 9.
Definition SD_MISO : Z := 8.

Inductive PinModeOf := INPUT | INPUT_PULLUP | OUTPUT.
Inductive TabColour := INITR_BLACKTAB.
Inductive FileMode := FILE_WRITE.

Inductive Boot :=
| SerialBegin (baud : Z)
| SerialPrint (s : string)
| SerialPrintln (s : string)
| SerialPrintfSize (megabytes : Z)
| SpiBegin
| SpiSetFrequency (hz : Z)
| PinMode (pin : Z) (mode : PinModeOf)
| LedsBegin
| LedsSetBrightness (b : Z)
| TftInitR (tab : TabColour)
| TftSetRotation (r : Z)
| TftDrawRect (x y w h c : Z)
| TftFillTriangle (x0 y0 x1 y1 x2 y2 c : Z)
| SdBegin (cs : Z)
| SdOpen (path : string) (mode : FileMode)
| FilePrintln (s : string)
| FileClose
| Core (e : Event).

#[global] Instance PinModeOf_eq_dec : EqDecision PinModeOf.
Proof. solve_decision. Defined.
#[global] Instance TabColour_eq_dec : EqDecision TabColour.
Proof. solve_decision. Defined.
#[global] Instance FileMode_eq_dec : EqDecision FileMode.
Proof. solve_decision. Defined.
#[global] Instance Boot_eq_dec : EqDecision Boot.
Proof. solve_decision. Defined.

(** What the SD card library answers during [initSDCard]: the result of
    [SD.begin], of [SD.cardType()] and [SD.cardSize()], and whether
    [SD.open] returns an open file. *)
Record SdCard := mkSdCard {
  beginOk : bool;
  cardType : Z;
  cardSize : Z;
  openOk : bool
}.

Record Sys := mkSys {
  dev : Dev;
  sdCardDetected : bool;
  sdCardSize : Z;
  sdCardType : Z
}.

Definition u64 (z : Z) : Z := z mod 2 ^ 64.

(** The initialisers of all the globals. *)
Definition cold : Sys := mkSys power_on false 0 0.

Record SM (A : Type) : Type := mkSM { runS : Sys -> A * Sys * list Boot }.
Arguments mkSM {A} _.
Arguments runS {A} _ _.

#[global] Instance SM_ret : MRet SM := fun A a => mkSM (fun s => (a, s, [])).

#[global] Instance SM_bind : MBind SM := fun A B k m =>
  mkSM (fun s =>
    let r1 := runS m s in
    let r2 := runS (k r1.1.1) r1.1.2 in
    (r2.1.1, r2.1.2, r1.2 ++ r2.2)).

Definition boot (e : Boot) : SM unit := mkSM (fun s => (tt, s, [e])).
Definition getSys {A} (f : Sys -> A) : SM A := mkSM (fun s => (f s, s, [])).
Definition setSys (f : Sys -> Sys) : SM unit := mkSM (fun s => (tt, f s, [])).

(** A computation of the sketch proper, run on the navigation globals. *)
Definition core {A} (m : M A) : SM A :=
  mkSM (fun s =>
    let r := run m (dev s) in
    (r.1.1, mkSys r.1.2 (sdCardDetected s) (sdCardSize s) (sdCardType s), Core <$> r.2)).

Definition afterS {A} (m : SM A) (s : Sys) : Sys := (runS m s).1.2.
Definition eventsS {A} (m : SM A) (s : Sys) : list Boot := (runS m s).2.

Definition with_sdCardDetected (v : bool) (s : Sys) : Sys :=
  mkSys (dev s) v (sdCardSize s) (sdCardType s).
Definition with_sdCardSize (v : Z) (s : Sys) : Sys :=
  mkSys (dev s) (sdCardDetected s) v (sdCardType s).
Definition with_sdCardType (v : Z) (s : Sys) : Sys :=
  mkSys (dev s) (sdCardDetected s) (sdCardSize s) v.

Section Startup.

(** The card types of the SD library and the boot logo of image.h are
    not part of the sketch file; they are parameters. *)
Variables CARD_NONE CARD_MMC CARD_SD CARD_SDHC : Z.
Variable unnamed_1_1_ : Z -> Z.

Definition initSDCard (card : SdCard) : SM unit :=
  boot (SerialPrintln "Initializing SD card...") ;;
  boot (PinMode SD_MISO INPUT) ;;
  boot (SdBegin SD_CS) ;;
  if negb (beginOk card) then
    boot (SerialPrintln "SD Card initialization failed!") ;;
    setSys (with_sdCardDetected false)
  else
    setSys (with_sdCardDetected true) ;;
    boot (SerialPrintln "SD Card initialized successfully!") ;;
    setSys (with_sdCardType (u8 (cardType card))) ;;
    type ← getSys sdCardType;
    if decide (type = CARD_NONE) then
      boot (SerialPrintln "No SD card attached") ;;
      setSys (with_sdCardDetected false)
    else
      boot (SerialPrint "SD Card Type: ") ;;
      (if decide (type = CARD_MMC) then boot (SerialPrintln "MMC")
       else if decide (type = CARD_SD) then boot (SerialPrintln "SDSC")
       else if decide (type = CARD_SDHC) then boot (SerialPrintln "SDHC")
       else boot (SerialPrintln "UNKNOWN")) ;;
      setSys (with_sdCardSize (u64 (cardSize card) `div` (1024 * 1024))) ;;
      size ← getSys sdCardSize;
      boot (SerialPrintfSize size) ;;
      boot (SdOpen "/test.txt" FILE_WRITE) ;;
      if openOk card then
        boot (FilePrintln "Hope Box - SD Card Test") ;;
        boot FileClose ;;
        boot (SerialPrintln "Test file created successfully")
      else
        boot (SerialPrintln "Failed to create test file").

Definition setup (card : SdCard) : SM unit :=
  boot (SerialBegin 115200) ;;
  core (delay 100) ;;
  boot SpiBegin ;;
  boot (SpiSetFrequency 80000000) ;;
  boot (PinMode BUTTON_0 INPUT_PULLUP) ;;
  boot (PinMode BUTTON_1 INPUT_PULLUP) ;;
  boot (PinMode BUTTON_SELECT INPUT_PULLUP) ;;
  boot (PinMode BUTTON_BACK INPUT_PULLUP) ;;
  boot (PinMode VIBRATION_MOTOR_PIN OUTPUT) ;;
  core (digitalWrite VIBRATION_MOTOR_PIN LOW) ;;
  boot LedsBegin ;;
  boot (LedsSetBrightness 255) ;;
  core (setRGBLeds (Color 100 0 150)) ;;
  core (emit Show) ;;
  boot (TftInitR INITR_BLACKTAB) ;;
  boot (TftSetRotation 0) ;;
  core (vibratePattern 2 80 40) ;;
  core (showBootLogo unnamed_1_1_) ;;
  core (delay 600) ;;
  initSDCard card ;;
  core (setRGBLeds (Color 0 100 255)) ;;
  core drawLockScreen ;;
  core (modify (with_currentState LOCKED)).

End Startup.

(** ** The About page

    The page reads [sdCardDetected]; two of its display calls (a plain
    rectangle outline, a filled triangle) are used nowhere else in the
    sketch and are commands of their own. *)

Definition SETTING_BG : Z := 0xF7BE.
Definition SETTING_ITEM_BG : Z := 0xFFFF.

Definition drawSettingItem (index : Z) (title subtitle : string) (hasIcon : bool)
    (iconColor : Z) : SM unit :=
  let y := 68 + index * 22 in
  core (tft (FillRoundRect 5 y 118 20 6 SETTING_ITEM_BG)) ;;
  core (tft (DrawRoundRect 5 y 118 20 6 (RGB 220 220 220))) ;;
  core (tft (FillCircle 15 (y + 10) 6 iconColor)) ;;
  core (tft (DrawCircle 15 (y + 10) 6 iconColor)) ;;
  core (tft (SetTextSize 1)) ;;
  core (tft (SetTextColor TEXT_DARK)) ;;
  core (tft (SetCursor 25 (y + 6))) ;;
  core (tft (Print title)) ;;
  core (tft (SetTextColor TEXT_LIGHT)) ;;
  core (tft (SetCursor 25 (y + 14))) ;;
  core (tft (Print subtitle)) ;;
  boot (TftFillTriangle 110 (y + 10) 114 (y + 7) 114 (y + 13) TEXT_LIGHT).

Definition drawAboutContent (page : Z) : SM unit :=
  core (tft (FillRect 0 31 SCREEN_W 113 SETTING_BG)) ;;
  core (tft (FillRect 5 36 118 28 ACCENT_ORANGE)) ;;
  boot (TftDrawRect 5 36 118 28 ACCENT_ORANGE) ;;
  core (tft (SetTextSize 1)) ;;
  core (tft (SetTextColor CARD_BG)) ;;
  core (tft (SetCursor 15 42)) ;;
  core (tft (Print "Hope Box Device")) ;;
  core (tft (SetTextSize 1)) ;;
  core (tft (SetCursor 15 52)) ;;
  core (tft (Print "Personal Digital Gift")) ;;
  drawSettingItem 0 "Device Info" "ESP32 + ST7735 + SD" true ACCENT_BLUE ;;
  detected ← getSys sdCardDetected;
  drawSettingItem 1 "Storage Status"
    (if detected : bool then "SD Card Ready" else "No SD Card") true
    (if detected : bool then SUCCESS_GREEN else ERROR_RED) ;;
  drawSettingItem 2 "Created By" "Bhavy" true ACCENT_PURPLE ;;
  core (tft (FillRect 5 136 118 8 (RGB 240 240 245))) ;;
  core (tft (SetTextSize 1)) ;;
  core (tft (SetTextColor TEXT_LIGHT)) ;;
  core (tft (SetCursor 15 137)) ;;
  core (tft (Print "Hope Box v2.0 | Made with Love")).

(** The commands of the sketch proper within a start-up trace, and the
    commands on the SD card and its files. *)
Definition coreTrace (es : list Boot) : list Event :=
  omap (fun e => match e with Core c => Some c | _ => None end) es.

Definition onCard (e : Boot) : bool :=
  match e with
  | SdBegin _ | SdOpen _ _ | FilePrintln _ | FileClose => true
  | _ => false
  end.

Definition sdTrace (es : list Boot) : list Boot := filter (fun e => onCard e = true) es.

(** ** Text contents *)

(** The double-quote character of the quoted lines. *)
Definition dquote : string := String (Ascii.ascii_of_nat 34) EmptyString.

Definition drawLetterContent (page : Z) : M unit :=
  tft (SetTextSize 1) ;;
  tft (SetTextColor TEXT_DARK) ;;
  let leftMargin := 10 in
  let topMargin := 36 in
  let lineHeight := 9 in
  match page with
  | 0 =>
      tft (SetTextColor ACCENT_PURPLE) ;;
      tft (SetCursor leftMargin topMargin) ;;
      tft (Print "Dear Name,") ;;
      tft (SetTextColor TEXT_DARK) ;;
      tft (SetCursor leftMargin (topMargin + lineHeight * 2)) ;;
      tft (Print "I wanted to take a") ;;
      tft (SetCursor leftMargin (topMargin + lineHeight * 3)) ;;
      tft (Print "moment to write you") ;;
      tft (SetCursor leftMargin (topMargin + lineHeight * 4)) ;;
      tft (Print "this special letter.") ;;
      tft (SetCursor leftMargin (topMargin + lineHeight * 6)) ;;
      tft (Print "Words sometimes") ;;
      tft (SetCursor leftMargin (topMargin + lineHeight * 7)) ;;
      tft (Print "feel inadequate to") ;;
      tft (SetCursor leftMargin (topMargin + lineHeight * 8)) ;;
      tft (Print "express what's in") ;;
      tft (SetCursor leftMargin (topMargin + lineHeight * 9)) ;;
      tft (Print "my heart, but I'll") ;;
      tft (SetCursor leftMargin (topMargin + lineHeight * 10)) ;;
      tft (Print "try my best to") ;;
      tft (SetCursor leftMargin (topMargin + lineHeight * 11)) ;;
      tft (Print "convey my feelings.")
  | 1 =>
      tft (SetCursor leftMargin topMargin) ;;
      tft (Print "Every single") ;;
      tft (SetCursor leftMargin (topMargin + lineHeight * 1)) ;;
      tft (Print "moment we've shared") ;;
      tft (SetCursor leftMargin (topMargin + lineHeight * 2)) ;;
      tft (Print "together has been") ;;
      tft (SetCursor leftMargin (topMargin + lineHeight * 3)) ;;
      tft (Print "a precious gift in") ;;
      tft (SetCursor leftMargin (topMargin + lineHeight * 4)) ;;
      tft (Print "my life.") ;;
      tft (SetCursor leftMargin (topMargin + lineHeight * 6)) ;;
      tft (Print "You have this") ;;
      tft (SetCursor leftMargin (topMargin + lineHeight * 7)) ;;
      tft (Print "amazing ability to") ;;
      tft (SetCursor leftMargin (topMargin + lineHeight * 8)) ;;
      tft (Print "light up even the") ;;
      tft (SetCursor leftMargin (topMargin + lineHeight * 9)) ;;
      tft (Print "darkest days with") ;;
      tft (SetCursor leftMargin (topMargin + lineHeight * 10)) ;;
      tft (Print "your presence and") ;;
      tft (SetCursor leftMargin (topMargin + lineHeight * 11)) ;;
      tft (Print "smile.")
  | 2 =>
      tft (SetTextColor ACCENT_PURPLE) ;;
      tft (SetCursor leftMargin topMargin) ;;
      tft (Print "What I Admire:") ;;
      tft (SetTextColor TEXT_DARK) ;;
      tft (SetCursor leftMargin (topMargin + lineHeight * 2)) ;;
      tft (Print "Your strength in") ;;
      tft (SetCursor leftMargin (topMargin + lineHeight * 3)) ;;
      tft (Print "the face of") ;;
      tft (SetCursor leftMargin (topMargin + lineHeight * 4)) ;;
      tft (Print "challenges inspires") ;;
      tft (SetCursor leftMargin (topMargin + lineHeight * 5)) ;;
      tft (Print "me daily.") ;;
      tft (SetCursor leftMargin (topMargin + lineHeight * 7)) ;;
      tft (Print "Your compassion") ;;
      tft (SetCursor leftMargin (topMargin + lineHeight * 8)) ;;
      tft (Print "for others shows") ;;
      tft (SetCursor leftMargin (topMargin + lineHeight * 9)) ;;
      tft (Print "the true beauty of") ;;
      tft (SetCursor leftMargin (topMargin + lineHeight * 10)) ;;
      tft (Print "your soul.")
  | 3 =>
      tft (SetCursor leftMargin topMargin) ;;
      tft (Print "I want you to") ;;
      tft (SetCursor leftMargin (topMargin + lineHeight * 1)) ;;
      tft (Print "know that no") ;;
      tft (SetCursor leftMargin (topMargin + lineHeight * 2)) ;;
      tft (Print "matter what life") ;;
      tft (SetCursor leftMargin (topMargin + lineHeight * 3)) ;;
      tft (Print "throws your way,") ;;
      tft (SetCursor leftMargin (topMargin + lineHeight * 4)) ;;
      tft (Print "you never walk") ;;
      tft (SetCursor leftMargin (topMargin + lineHeight * 5)) ;;
      tft (Print "alone.") ;;
      tft (SetCursor leftMargin (topMargin + lineHeight * 7)) ;;
      tft (Print "When doubts creep") ;;
      tft (SetCursor leftMargin (topMargin + lineHeight * 8)) ;;
      tft (Print "in, remember: you") ;;
      tft (SetCursor leftMargin (topMargin + lineHeight * 9)) ;;
      tft (Print "are stronger than") ;;
      tft (SetCursor leftMargin (topMargin + lineHeight * 10)) ;;
      tft (Print "you think!")
  | 4 =>
      tft (SetTextColor ACCENT_PURPLE) ;;
      tft (SetCursor leftMargin topMargin) ;;
      tft (Print "My Promise:") ;;
      tft (SetTextColor TEXT_DARK) ;;
      tft (SetCursor leftMargin (topMargin + lineHeight * 2)) ;;
      tft (Print "I promise to") ;;
      tft (SetCursor leftMargin (topMargin + lineHeight * 3)) ;;
      tft (Print "always believe in") ;;
      tft (SetCursor leftMargin (topMargin + lineHeight * 4)) ;;
      tft (Print "you, even when you") ;;
      tft (SetCursor leftMargin (topMargin + lineHeight * 5)) ;;
      tft (Print "don't believe in") ;;
      tft (SetCursor leftMargin (topMargin + lineHeight * 6)) ;;
      tft (Print "yourself.") ;;
      tft (SetCursor leftMargin (topMargin + lineHeight * 8)) ;;
      tft (Print "I'll celebrate") ;;
      tft (SetCursor leftMargin (topMargin + lineHeight * 9)) ;;
      tft (Print "your victories and") ;;
      tft (SetCursor leftMargin (topMargin + lineHeight * 10)) ;;
      tft (Print "support you always.")
  | 5 =>
      tft (SetCursor leftMargin topMargin) ;;
      tft (Print "Keep shining your") ;;
      tft (SetCursor leftMargin (topMargin + lineHeight * 1)) ;;
      tft (Print "beautiful light.") ;;
      tft (SetCursor leftMargin (topMargin + lineHeight * 3)) ;;
      tft (Print "Never forget how") ;;
      tft (SetCursor leftMargin (topMargin + lineHeight * 4)) ;;
      tft (Print "special, unique,") ;;
      tft (SetCursor leftMargin (topMargin + lineHeight * 5)) ;;
      tft (Print "and amazing you") ;;
      tft (SetCursor leftMargin (topMargin + lineHeight * 6)) ;;
      tft (Print "truly are.") ;;
      tft (SetCursor leftMargin (topMargin + lineHeight * 8)) ;;
      tft (Print "This little device") ;;
      tft (SetCursor leftMargin (topMargin + lineHeight * 9)) ;;
      tft (Print "holds my thoughts") ;;
      tft (SetCursor leftMargin (topMargin + lineHeight * 10)) ;;
      tft (Print "for you always.") ;;
      tft (SetTextColor ACCENT_PURPLE) ;;
      tft (SetCursor leftMargin (topMargin + lineHeight * 12)) ;;
      tft (Print "With endless love,")
  | _ => skip
  end.

Definition drawQuoteContent (page : Z) : M unit :=
  tft (SetTextSize 1) ;;
  tft (SetTextColor TEXT_DARK) ;;
  let leftMargin := 10 in
  let topMargin := 36 in
  let lineHeight := 9 in
  match page with
  | 0 =>
      tft (SetTextColor ACCENT_BLUE) ;;
      tft (SetCursor leftMargin topMargin) ;;
      tft (Print "Quote of Hope:") ;;
      tft (SetTextColor TEXT_DARK) ;;
      tft (SetCursor leftMargin (topMargin + lineHeight * 2)) ;;
      tft (Print (dquote +:+ "The best way to")) ;;
      tft (SetCursor leftMargin (topMargin + lineHeight * 3)) ;;
      tft (Print "predict the future") ;;
      tft (SetCursor leftMargin (topMargin + lineHeight * 4)) ;;
      tft (Print ("is to create it." +:+ dquote)) ;;
      tft (SetTextColor TEXT_LIGHT) ;;
      tft (SetCursor (leftMargin + 20) (topMargin + lineHeight * 6)) ;;
      tft (Print "- Peter Drucker") ;;
      tft (SetTextColor TEXT_DARK) ;;
      tft (SetCursor leftMargin (topMargin + lineHeight * 8)) ;;
      tft (Print "Never stop dreaming") ;;
      tft (SetCursor leftMargin (topMargin + lineHeight * 9)) ;;
      tft (Print "and believing in") ;;
      tft (SetCursor leftMargin (topMargin + lineHeight * 10)) ;;
      tft (Print "yourself!")
  | 1 =>
      tft (SetTextColor ACCENT_BLUE) ;;
      tft (SetCursor leftMargin topMargin) ;;
      tft (Print "Daily Reminder:") ;;
      tft (SetTextColor TEXT_DARK) ;;
      tft (SetCursor leftMargin (topMargin + lineHeight * 2)) ;;
      tft (Print "You are stronger") ;;
      tft (SetCursor leftMargin (topMargin + lineHeight * 3)) ;;
      tft (Print "than you think.") ;;
      tft (SetCursor leftMargin (topMargin + lineHeight * 5)) ;;
      tft (Print "You are capable of") ;;
      tft (SetCursor leftMargin (topMargin + lineHeight * 6)) ;;
      tft (Print "amazing things.") ;;
      tft (SetCursor leftMargin (topMargin + lineHeight * 8)) ;;
      tft (Print "Believe in yourself") ;;
      tft (SetCursor leftMargin (topMargin + lineHeight * 9)) ;;
      tft (Print "always, and never") ;;
      tft (SetCursor leftMargin (topMargin + lineHeight * 10)) ;;
      tft (Print "give up on your") ;;
      tft (SetCursor leftMargin (topMargin + lineHeight * 11)) ;;
      tft (Print "dreams!")
  | _ => skip
  end.

(** Whether the SD library finds a card: [SD.begin] succeeds and the card
    type, stored in a byte, is not [CARD_NONE]. *)
Definition cardFound (CARD_NONE : Z) (card : SdCard) : bool :=
  beginOk card && bool_decide (u8 (cardType card) <> CARD_NONE).

(** Byte [k] of a packed LED colour: 2 is red, 1 green, 0 blue. *)
Definition channel (k c : Z) : Z := Z.land (Z.shiftr c (8 * k)) 0xFF.

(** A command that prints text. *)
Definition printsText (e : Event) : bool :=
  match e with
  | Display (Print _) => true
  | _ => false
  end.

(** ** The LED strip under its two commands

    [setPixelColor] stores a colour for one pixel of the strip (an index
    outside the strip is ignored); [show] makes the stored colours visible.
    Every other command leaves the strip as it is. *)

Record Strip := mkStrip {
  staged : Z -> Z;
  lit : Z -> Z
}.

Definition strip_event (e : Event) (s : Strip) : Strip :=
  match e with
  | SetPixelColor n c =>
      if decide (0 <= n < RGB_LED_COUNT)
      then mkStrip (fun k => if decide (k = n) then c else staged s k) (lit s)
      else s
  | Show => mkStrip (staged s) (staged s)
  | _ => s
  end.

Definition glow (es : list Event) (s : Strip) : Strip :=
  foldl (fun s e => strip_event e s) s es.

(** The colour the [switch] of the menu handlers shows for each entry. *)
Definition ambient (sel : Z) : Z :=
  [Color 150 50 200; Color 255 100 180; Color 0 100 255; Color 255 150 0] !!! Z.to_nat sel.

(** All the pixels of the strip show the colour [c]. *)
Definition shows (c : Z) (s : Strip) : Prop :=
  forall k, 0 <= k < RGB_LED_COUNT -> lit s k = c.

(** The digit a command prints, and the small filled disc that marks a
    slot of the attempt not yet entered. *)
Definition printedDigit (e : Event) : option Z :=
  match e with
  | Display (PrintNum n) => Some n
  | _ => None
  end.

Definition emptySlot (e : Event) : bool :=
  match e with
  | Display (FillCircle _ _ r c) => bool_decide (r = 2 /\ c = CIRCLE_EMPTY)
  | _ => false
  end.

(** * Properties *)

(** ** Running the monad *)

Lemma after_bind {A B} (m : M A) (k : A -> M B) d :
  after (m ≫= k) d = after (k (result m d)) (after m d).
Proof. reflexivity. Qed.

Lemma events_bind {A B} (m : M A) (k : A -> M B) d :
  events (m ≫= k) d = events m d ++ events (k (result m d)) (after m d).
Proof. reflexivity. Qed.

Lemma result_bind {A B} (m : M A) (k : A -> M B) d :
  result (m ≫= k) d = result (k (result m d)) (after m d).
Proof. reflexivity. Qed.

Lemma after_passes_cons t ts d :
  after (passes (t :: ts)) d = after (passes ts) (after (loop t) d).
Proof. reflexivity. Qed.

Lemma after_passes_app ts1 ts2 d :
  after (passes (ts1 ++ ts2)) d = after (passes ts2) (after (passes ts1) d).
Proof.
  revert d. induction ts1 as [|t ts1 IH]; intros d; [reflexivity|].
  simpl app. rewrite !after_passes_cons. apply IH.
Qed.

(** ** Passcode check *)

Lemma checkPasscode_four a b c e d :
  enteredPasscode d = [a; b; c; e] ->
  result checkPasscode d = true <-> a = 0 /\ b = 0 /\ c = 0 /\ e = 0.
Proof.
  clear pic1.
  intros E. unfold result, checkPasscode, gets. simpl. rewrite E.
  change (seqZ 0 PASS_LENGTH) with [0; 1; 2; 3]. simpl.
  repeat case_decide; simpl in *; split; intros; try discriminate; try tauto.
  all: intuition congruence.
Qed.

Lemma checkPasscode_reference d :
  length (enteredPasscode d) = Z.to_nat PASS_LENGTH ->
  result checkPasscode d = true <-> enteredPasscode d = CORRECT_PASSCODE.
Proof.
  intros L.
  destruct (enteredPasscode d) as [|a [|b [|c [|e [|? ?]]]]] eqn:E; try discriminate L.
  rewrite (checkPasscode_four a b c e d E). unfold CORRECT_PASSCODE.
  split; [intros (-> & -> & -> & ->); reflexivity | intros [= -> -> -> ->]; auto].
Qed.

(** C1. For every stored attempt of length 4 (PASS_LENGTH), the match
    check returns true if and only if the stored sequence equals the
    reference sequence {0,0,0,0}: as lists, and position by position over
    the four positions. *)
Theorem checkPasscode_iff_reference (d : Dev) :
  length (enteredPasscode d) = Z.to_nat PASS_LENGTH ->
  (result checkPasscode d = true <-> enteredPasscode d = CORRECT_PASSCODE) /\
  (result checkPasscode d = true <->
   forall i, 0 <= i < PASS_LENGTH ->
             enteredPasscode d !!! Z.to_nat i = CORRECT_PASSCODE !!! Z.to_nat i).
Proof.
  intros L. split; [exact (checkPasscode_reference d L)|].
  destruct (enteredPasscode d) as [|a [|b [|c [|e [|? ?]]]]] eqn:E; try discriminate L.
  rewrite (checkPasscode_four a b c e d E). unfold CORRECT_PASSCODE, PASS_LENGTH.
  split.
  - intros (-> & -> & -> & ->) i Hi. reflexivity.
  - intros H.
    pose proof (H 0 ltac:(lia)) as H0. pose proof (H 1 ltac:(lia)) as H1.
    pose proof (H 2 ltac:(lia)) as H2. pose proof (H 3 ltac:(lia)) as H3.
    simpl in *. auto.
Qed.

(** ** Menu selection *)

Lemma sel_cases (sel : Z) : 0 <= sel < 4 -> sel = 0 \/ sel = 1 \/ sel = 2 \/ sel = 3.
Proof. lia. Qed.

Lemma pass_released_unlocked d now :
  currentState d <> LOCKED ->
  after (loop (released now)) d = with_lastButtons HIGH HIGH HIGH HIGH d.
Proof.
  destruct d as [st e pi lp b0 b1 bs bb sel cp mp lm]; simpl.
  destruct st; intros H; try reflexivity. congruence.
Qed.

Lemma pass_menu_next d at_ now :
  currentState d = MENU -> 0 <= selectedMenuItem d < 4 -> lastButton1 d = HIGH ->
  after (loop (pressing Button1 at_ now)) d =
  with_lastButtons HIGH LOW HIGH HIGH
    (with_selectedMenuItem ((selectedMenuItem d + 1) mod 4)
       (with_lastPressTime (u32 at_) d)).
Proof.
  destruct d as [st e pi lp b0 b1 bs bb sel cp mp lm]; simpl.
  intros -> Hsel ->.
  destruct (sel_cases sel Hsel) as [-> | [-> | [-> | ->]]]; reflexivity.
Qed.

Lemma pass_menu_prev d at_ now :
  currentState d = MENU -> 0 <= selectedMenuItem d < 4 -> lastButton0 d = HIGH ->
  after (loop (pressing Button0 at_ now)) d =
  with_lastButtons LOW HIGH HIGH HIGH
    (with_selectedMenuItem ((selectedMenuItem d - 1 + 4) mod 4)
       (with_lastPressTime (u32 at_) d)).
Proof.
  destruct d as [st e pi lp b0 b1 bs bb sel cp mp lm]; simpl.
  intros -> Hsel ->.
  destruct (sel_cases sel Hsel) as [-> | [-> | [-> | ->]]]; reflexivity.
Qed.

(** The selection after a run of clicks of DOWN, resp. UP, in the menu. *)
Lemma menu_next_clicks times d :
  currentState d = MENU -> 0 <= selectedMenuItem d < 4 -> lastButton1 d = HIGH ->
  let d' := after (passes (clicks Button1 times)) d in
  currentState d' = MENU /\ lastButton1 d' = HIGH /\
  selectedMenuItem d' = (selectedMenuItem d + Z.of_nat (length times)) mod 4.
Proof.
  revert d. induction times as [|[[a n] l] times IH]; intros d St Hsel Hb; simpl.
  - unfold after; simpl. rewrite Z.add_0_r, Z.mod_small by lia. auto.
  - unfold clicks in *. simpl flat_map. unfold click at 1. simpl app.
    rewrite !after_passes_cons.
    rewrite pass_menu_next by assumption.
    rewrite pass_released_unlocked by (simpl; congruence).
    set (d1 := with_lastButtons _ _ _ _ _).
    assert (Hd1 : currentState d1 = MENU /\ lastButton1 d1 = HIGH /\
                  selectedMenuItem d1 = (selectedMenuItem d + 1) mod 4)
      by (subst d1; simpl; auto).
    destruct Hd1 as (S1 & B1 & Sel1).
    destruct (IH d1 S1) as (S2 & B2 & Sel2); [rewrite Sel1; apply Z.mod_pos_bound; lia | exact B1 |].
    split; [exact S2 | split; [exact B2 |]].
    rewrite Sel2, Sel1, Zplus_mod_idemp_l. f_equal. lia.
Qed.

Lemma menu_prev_clicks times d :
  currentState d = MENU -> 0 <= selectedMenuItem d < 4 -> lastButton0 d = HIGH ->
  let d' := after (passes (clicks Button0 times)) d in
  currentState d' = MENU /\ lastButton0 d' = HIGH /\
  selectedMenuItem d' = (selectedMenuItem d - Z.of_nat (length times)) mod 4.
Proof.
  revert d. induction times as [|[[a n] l] times IH]; intros d St Hsel Hb; simpl.
  - unfold after; simpl. rewrite Z.sub_0_r, Z.mod_small by lia. auto.
  - unfold clicks in *. simpl flat_map. unfold click at 1. simpl app.
    rewrite !after_passes_cons.
    rewrite pass_menu_prev by assumption.
    rewrite pass_released_unlocked by (simpl; congruence).
    set (d1 := with_lastButtons _ _ _ _ _).
    assert (Hd1 : currentState d1 = MENU /\ lastButton0 d1 = HIGH /\
                  selectedMenuItem d1 = (selectedMenuItem d - 1 + 4) mod 4)
      by (subst d1; simpl; auto).
    destruct Hd1 as (S1 & B1 & Sel1).
    destruct (IH d1 S1) as (S2 & B2 & Sel2); [rewrite Sel1; apply Z.mod_pos_bound; lia | exact B1 |].
    split; [exact S2 | split; [exact B2 |]].
    rewrite Sel2, Sel1, Zminus_mod_idemp_l.
    replace (selectedMenuItem d - 1 + 4 - Z.of_nat (length times))
      with (selectedMenuItem d - Z.of_nat (length ((a, n, l) :: times)) + 1 * 4)
      by (simpl length; lia).
    apply Z.mod_add; lia.
Qed.

(** C4. In the Menu state, from a selection i in [0,4), one "next" input
    (DOWN) yields (i+1) mod 4 and one "previous" input (UP) yields
    (i-1+4) mod 4; four consecutive clicks of the same button return to
    the starting selection. *)
Theorem menu_selection_cyclic (d : Dev) :
  currentState d = MENU ->
  0 <= selectedMenuItem d < 4 ->
  lastButton0 d = HIGH -> lastButton1 d = HIGH ->
  (forall at_ now,
     let d' := after (loop (pressing Button1 at_ now)) d in
     currentState d' = MENU /\
     selectedMenuItem d' = (selectedMenuItem d + 1) mod 4) /\
  (forall at_ now,
     let d' := after (loop (pressing Button0 at_ now)) d in
     currentState d' = MENU /\
     selectedMenuItem d' = (selectedMenuItem d - 1 + 4) mod 4) /\
  (forall b times,
     b = Button0 \/ b = Button1 ->
     length times = 4%nat ->
     let d' := after (passes (clicks b times)) d in
     currentState d' = MENU /\ selectedMenuItem d' = selectedMenuItem d).
Proof.
  intros St Hsel H0 H1. repeat split.
  - rewrite pass_menu_next by assumption. simpl. exact St.
  - rewrite pass_menu_next by assumption. reflexivity.
  - rewrite pass_menu_prev by assumption. simpl. exact St.
  - rewrite pass_menu_prev by assumption. reflexivity.
  - destruct H as [-> | ->].
    + apply (menu_prev_clicks times d St Hsel H0).
    + apply (menu_next_clicks times d St Hsel H1).
  - destruct H as [-> | ->].
    + destruct (menu_prev_clicks times d St Hsel H0) as (_ & _ & ->).
      rewrite H2. change (Z.of_nat 4) with (1 * 4).
      unfold Z.sub. rewrite <- Z.mul_opp_l, Z.mod_add by lia. apply Z.mod_small; lia.
    + destruct (menu_next_clicks times d St Hsel H1) as (_ & _ & ->).
      rewrite H2. change (Z.of_nat 4) with (1 * 4).
      rewrite Z.mod_add by lia. apply Z.mod_small; lia.
Qed.

(** ** Silent computations *)

Lemma silent_emit e : silent (emit e) [e].
Proof. intros d. reflexivity. Qed.

Lemma silent_skip : silent skip [].
Proof. intros d. reflexivity. Qed.

Lemma silent_seq (m k : M unit) es1 es2 :
  silent m es1 -> silent k es2 -> silent (m ;; k) (es1 ++ es2).
Proof.
  intros Hm Hk d.
  change (run (m ;; k) d)
    with ((run k (run m d).1.2).1.1, (run k (run m d).1.2).1.2,
          (run m d).2 ++ (run k (run m d).1.2).2).
  rewrite Hm. simpl. rewrite Hk. reflexivity.
Qed.

Lemma silent_forEach {A} (l : list A) (body : A -> M unit) (ev : A -> list Event) :
  (forall x, silent (body x) (ev x)) -> silent (forEach l body) (flat_map ev l).
Proof.
  intros H. induction l as [|x l IH]; simpl.
  - apply silent_skip.
  - apply silent_seq; [apply H | exact IH].
Qed.

Lemma silent_after m es d : silent m es -> after m d = d.
Proof. intros H. unfold after. rewrite H. reflexivity. Qed.

Lemma silent_events m es d : silent m es -> events m d = es.
Proof. intros H. unfold events. rewrite H. reflexivity. Qed.

Lemma silent_pushes (g : Z -> Z) lo hi :
  silent (for_lt lo hi (fun i => tft (PushColor (g i)))) (pushes g lo hi).
Proof.
  unfold for_lt, pushes.
  replace ((fun i => Display (PushColor (g i))) <$> seqZ lo (hi - lo))
    with (flat_map (fun i => [Display (PushColor (g i))]) (seqZ lo (hi - lo))).
  - apply silent_forEach. intros x. apply silent_emit.
  - induction (seqZ lo (hi - lo)) as [|x l IH]; simpl; [reflexivity | now rewrite IH].
Qed.

Lemma silent_drawFullScreenImage img :
  silent (drawFullScreenImage img)
    ([Display StartWrite] ++ [Display (SetAddrWindow 0 0 SCREEN_W SCREEN_H)]
     ++ pushes img 0 (SCREEN_W * SCREEN_H) ++ [Display EndWrite]).
Proof.
  unfold drawFullScreenImage.
  apply silent_seq; [apply silent_emit|].
  apply silent_seq; [apply silent_emit|].
  apply silent_seq; [apply silent_pushes | apply silent_emit].
Qed.

(** ** Pixel streams on the panel *)

Lemma paint_app es1 es2 p :
  paint (es1 ++ es2) p = match paint es1 p with Some p' => paint es2 p' | None => None end.
Proof.
  revert p. induction es1 as [|e es1 IH]; intros p; simpl; [reflexivity|].
  destruct (panel_event e p); [apply IH | reflexivity].
Qed.

Lemma cell_index w c x y X0 Y0 :
  0 < w ->
  (x = X0 + c `mod` w /\ y = Y0 + c `div` w) <->
  (X0 <= x < X0 + w /\ (y - Y0) * w + (x - X0) = c).
Proof.
  intros Hw. pose proof (Z.mod_pos_bound c w Hw) as Hm.
  pose proof (Z.div_mod c w ltac:(lia)) as Hd.
  split.
  - intros [-> ->]. split; [lia | nia].
  - intros [Hx Hc].
    assert (c `div` w = y - Y0) as Hq
      by (symmetry; apply (Z.div_unique c w (y - Y0) (x - X0)); lia).
    assert (c `mod` w = x - X0) as Hr
      by (symmetry; apply (Z.mod_unique c w (y - Y0) (x - X0)); lia).
    lia.
Qed.

(** Pushing [n] pixels into the current window. *)
Lemma paint_stream g (n : nat) : forall p,
  0 < winW p -> 0 <= cursor p -> cursor p + Z.of_nat n <= winW p * winH p ->
  exists p',
    paint ((fun k => Display (PushColor (g k))) <$> seqZ (cursor p) (Z.of_nat n)) p = Some p' /\
    winX p' = winX p /\ winY p' = winY p /\ winW p' = winW p /\ winH p' = winH p /\
    cursor p' = cursor p + Z.of_nat n /\
    forall x y,
      pixel p' x y =
      if decide (winX p <= x < winX p + winW p /\
                 cursor p <= (y - winY p) * winW p + (x - winX p) < cursor p + Z.of_nat n)
      then g ((y - winY p) * winW p + (x - winX p))
      else pixel p x y.
Proof.
  induction n as [|n IH]; intros p Hw Hc Hfit.
  - exists p. simpl. repeat split; try lia.
    intros x y. case_decide; [lia | reflexivity].
  - rewrite seqZ_cons by lia. rewrite fmap_cons.
    replace (Z.pred (Z.of_nat (S n))) with (Z.of_nat n) by lia.
    simpl paint. unfold panel_cmd.
    destruct (decide (0 < winW p /\ 0 <= cursor p < winW p * winH p)) as [_|N]; [|lia].
    set (p1 := mkPanel _ _ _ _ _ _).
    destruct (IH p1) as (p' & Hp & HX & HY & HW & HH & HC & Hpix);
      [subst p1; simpl; lia ..|].
    exists p'. subst p1; simpl in *.
    replace (Z.succ (cursor p)) with (cursor p + 1) by lia.
    split; [exact Hp|]. repeat split; try lia.
    intros x y. rewrite Hpix.
    pose proof (cell_index (winW p) (cursor p) x y (winX p) (winY p) Hw) as CI.
    repeat case_decide; try reflexivity; try lia.
    f_equal; lia.
Qed.

Lemma rows_as_stream {A} (f : Z -> Z -> A) (w : Z) (h : nat) :
  0 < w ->
  flat_map (fun y => (fun x => f y x) <$> seqZ 0 w) (seqZ 0 (Z.of_nat h)) =
  (fun k => f (k `div` w) (k `mod` w)) <$> seqZ 0 (Z.of_nat h * w).
Proof.
  intros Hw. induction h as [|h IH].
  - reflexivity.
  - rewrite seqZ_S, flat_map_app, IH. simpl flat_map. rewrite app_nil_r.
    replace (Z.of_nat (S h) * w) with (Z.of_nat h * w + w) by lia.
    rewrite seqZ_app, fmap_app by lia. f_equal.
    apply list_eq. intros i. rewrite !list_lookup_fmap.
    destruct (decide (Z.of_nat i < w)) as [Hi|Hi].
    + rewrite !lookup_seqZ_lt by lia. simpl. f_equal.
      replace (0 + Z.of_nat h * w + Z.of_nat i) with (Z.of_nat i + Z.of_nat h * w) by lia.
      rewrite Z.div_add, Z.mod_add by lia.
      rewrite Z.div_small, Z.mod_small by lia. f_equal; lia.
    + rewrite !lookup_seqZ_ge by lia. reflexivity.
Qed.


(** Setting a window of width [w] and height [h] and filling it row by
    row. *)
Lemma paint_window (g : Z -> Z -> Z) X0 w (h : nat) p :
  0 < w ->
  exists p',
    paint ([Display (SetAddrWindow X0 0 w (Z.of_nat h))]
           ++ flat_map (fun y => pushes (fun x => g y x) 0 w) (seqZ 0 (Z.of_nat h))) p = Some p' /\
    forall x y,
      pixel p' x y =
      if decide (X0 <= x < X0 + w /\ 0 <= y < Z.of_nat h) then g y (x - X0) else pixel p x y.
Proof.
  intros Hw. unfold pushes. replace (w - 0) with w by lia.
  rewrite (rows_as_stream (fun y x => Display (PushColor (g y x))) w h Hw).
  simpl app. simpl paint.
  set (p1 := mkPanel X0 0 w (Z.of_nat h) 0 (pixel p)).
  destruct (paint_stream (fun k => g (k `div` w) (k `mod` w)) (Z.to_nat (Z.of_nat h * w)) p1)
    as (p' & Hp & _ & _ & _ & _ & _ & Hpix); [subst p1; simpl; nia ..|].
  subst p1; simpl in *. rewrite Z2Nat.id in Hp by nia.
  exists p'. split; [exact Hp|].
  intros x y. rewrite Hpix. rewrite Z2Nat.id by nia.
  rewrite !Z.sub_0_r.
  repeat case_decide; try reflexivity; try (exfalso; nia).
  f_equal.
  - symmetry. apply (Z.div_unique _ w y (x - X0)); lia.
  - symmetry. apply (Z.mod_unique _ w y (x - X0)); lia.
Qed.

(** ** Slide animation *)

Lemma silent_slideStep dir stepSize i :
  silent (slideStep dir stepSize i) (stepEvents dir stepSize i).
Proof.
  unfold slideStep, stepEvents. cbv zeta.
  destruct dir.
  - apply silent_seq; [|apply silent_emit].
    apply silent_seq; [apply silent_emit|].
    unfold for_lt at 1.
    apply (silent_forEach _ _
      (fun y => pushes (fun x => pic1 (y * SCREEN_W + (SCREEN_W - i * stepSize + x))) 0 (i * stepSize))).
    intros y. apply silent_pushes.
  - apply silent_seq; [|apply silent_emit].
    apply silent_seq; [apply silent_emit|].
    unfold for_lt at 1.
    apply (silent_forEach _ _
      (fun y => pushes (fun x => pic1 (y * SCREEN_W + x)) 0 (i * stepSize))).
    intros y. apply silent_pushes.
Qed.

Lemma silent_slideAnimation dir :
  silent (slideAnimation dir)
    (flat_map (stepEvents dir (idiv SCREEN_W 16)) (seqZ 1 (16 + 1 - 1))
     ++ ([Display StartWrite] ++ [Display (SetAddrWindow 0 0 SCREEN_W SCREEN_H)]
     ++ pushes pic1 0 (SCREEN_W * SCREEN_H) ++ [Display EndWrite])).
Proof.
  unfold slideAnimation. cbv zeta.
  apply silent_seq; [|apply silent_drawFullScreenImage].
  unfold for_le. apply silent_forEach. intros i. apply silent_slideStep.
Qed.

(** What one step leaves on the panel. *)
Lemma paint_step dir i p :
  0 < i ->
  exists p',
    paint (stepEvents dir 8 i) p = Some p' /\
    forall x y,
      pixel p' x y =
      if dir then
        if decide (0 <= x < i * 8 /\ 0 <= y < SCREEN_H)
        then pic1 (y * SCREEN_W + (SCREEN_W - i * 8 + x)) else pixel p x y
      else
        if decide (SCREEN_W - i * 8 <= x < SCREEN_W /\ 0 <= y < SCREEN_H)
        then pic1 (y * SCREEN_W + (x - (SCREEN_W - i * 8))) else pixel p x y.
Proof.
  intros Hi. unfold stepEvents. rewrite paint_app.
  change (SCREEN_H - 0) with (Z.of_nat 160). change SCREEN_H with (Z.of_nat 160).
  destruct dir.
  - destruct (paint_window (fun y x => pic1 (y * SCREEN_W + (SCREEN_W - i * 8 + x)))
                0 (i * 8) 160 p) as (p' & -> & Hpix); [lia|].
    exists p'. split; [reflexivity|].
    intros x y. rewrite Hpix. rewrite Z.sub_0_r.
    repeat case_decide; try reflexivity; exfalso; lia.
  - destruct (paint_window (fun y x => pic1 (y * SCREEN_W + x))
                (SCREEN_W - i * 8) (i * 8) 160 p) as (p' & -> & Hpix); [lia|].
    exists p'. split; [reflexivity|].
    intros x y. rewrite Hpix.
    repeat case_decide; try reflexivity; exfalso; unfold SCREEN_W in *; lia.
Qed.
Lemma paint_steps dir (n : nat) p0 :
  exists p,
    paint (flat_map (stepEvents dir 8) (seqZ 1 (Z.of_nat n))) p0 = Some p /\
    forall x y,
      pixel p x y =
      if dir then
        if decide (0 <= x < Z.of_nat n * 8 /\ 0 <= y < SCREEN_H)
        then pic1 (y * SCREEN_W + (SCREEN_W - Z.of_nat n * 8 + x)) else pixel p0 x y
      else
        if decide (SCREEN_W - Z.of_nat n * 8 <= x < SCREEN_W /\ 0 <= y < SCREEN_H)
        then pic1 (y * SCREEN_W + (x - (SCREEN_W - Z.of_nat n * 8))) else pixel p0 x y.
Proof.
  induction n as [|n (p1 & Hp1 & Hpix1)].
  - exists p0. split; [reflexivity|].
    intros x y. destruct dir; case_decide; try reflexivity; exfalso; lia.
  - rewrite seqZ_S, flat_map_app, paint_app, Hp1. simpl flat_map. rewrite app_nil_r.
    destruct (paint_step dir (1 + Z.of_nat n) p1) as (p2 & Hp2 & Hpix2); [lia|].
    exists p2. split; [exact Hp2|].
    intros x y. rewrite Hpix2, Hpix1.
    replace (Z.of_nat (S n)) with (1 + Z.of_nat n) by lia.
    destruct dir; repeat case_decide; try reflexivity; exfalso; lia.
Qed.

Lemma paint_cons_some e es p p' :
  panel_event e p = Some p' -> paint (e :: es) p = paint es p'.
Proof. intros H. simpl. rewrite H. reflexivity. Qed.

Lemma paint_single e p : paint [e] p = panel_event e p.
Proof. simpl. destruct (panel_event e p); reflexivity. Qed.

(** A window set and filled by one stream of [w * h] pixels. *)
Lemma paint_blit g w h p :
  0 < w -> 0 <= h ->
  exists p',
    paint ([Display (SetAddrWindow 0 0 w h)] ++ pushes g 0 (w * h)) p = Some p' /\
    forall x y,
      pixel p' x y =
      if decide (0 <= x < w /\ 0 <= y < h) then g (y * w + x) else pixel p x y.
Proof.
  intros Hw Hh.
  rewrite paint_app, paint_single. cbn [panel_event panel_cmd].
  set (p1 := mkPanel 0 0 w h 0 (pixel p)).
  destruct (paint_stream g (Z.to_nat (w * h)) p1)
    as (p' & Hp & _ & _ & _ & _ & _ & Hpix); [subst p1; cbn [winW winH cursor]; nia ..|].
  rewrite Z2Nat.id in Hp, Hpix by nia.
  subst p1. cbn [winW winH winX winY cursor pixel] in Hp, Hpix.
  unfold pushes. rewrite Z.sub_0_r. rewrite Hp.
  exists p'. split; [reflexivity|].
  intros x y. rewrite Hpix. rewrite !Z.sub_0_r.
  repeat case_decide; try reflexivity; exfalso; nia.
Qed.

Lemma paint_fullScreen img p :
  exists p',
    paint ([Display StartWrite] ++ [Display (SetAddrWindow 0 0 SCREEN_W SCREEN_H)]
           ++ pushes img 0 (SCREEN_W * SCREEN_H) ++ [Display EndWrite]) p = Some p' /\
    forall x y,
      pixel p' x y =
      if decide (0 <= x < SCREEN_W /\ 0 <= y < SCREEN_H) then img (y * SCREEN_W + x)
      else pixel p x y.
Proof.
  destruct (paint_blit img SCREEN_W SCREEN_H p) as (p' & Hp & Hpix);
    [unfold SCREEN_W; lia | unfold SCREEN_H; lia |].
  exists p'. split; [|exact Hpix].
  rewrite paint_app, paint_single. cbn [panel_event panel_cmd].
  rewrite (app_assoc [Display (SetAddrWindow 0 0 SCREEN_W SCREEN_H)]).
  rewrite paint_app, Hp. apply paint_single.
Qed.
(** ** Computations that leave the globals alone *)

Lemma run_eta {A} (m : M A) d : run m d = (result m d, after m d, events m d).
Proof. unfold result, after, events. destruct (run m d) as [[a d'] es]. reflexivity. Qed.

Lemma keeps_ret {A} (a : A) : keeps (mret a).
Proof. intros d. reflexivity. Qed.
Lemma keeps_emit e : keeps (emit e).
Proof. intros d. reflexivity. Qed.
Lemma keeps_gets {A} (f : Dev -> A) : keeps (gets f).
Proof. intros d. reflexivity. Qed.
Lemma keeps_bind {A B} (m : M A) (k : A -> M B) :
  keeps m -> (forall a, keeps (k a)) -> keeps (m ≫= k).
Proof. intros Hm Hk d. rewrite after_bind, Hm. apply Hk. Qed.
Lemma keeps_forEach {A} (l : list A) (body : A -> M unit) :
  (forall x, keeps (body x)) -> keeps (forEach l body).
Proof.
  intros H. induction l as [|x l IH]; simpl.
  - apply keeps_ret.
  - apply keeps_bind; [apply H | intros _; exact IH].
Qed.
Lemma keeps_silent m es : silent m es -> keeps m.
Proof. intros H d. eapply silent_after, H. Qed.

Create HintDb keeps discriminated.
#[local] Hint Constants Opaque : keeps.
#[local] Hint Variables Opaque : keeps.

Ltac keeps_tac :=
  cbv zeta;
  lazymatch goal with
  | |- keeps (mbind _ _) => apply keeps_bind; [keeps_tac | intros ?; keeps_tac]
  | |- keeps (forEach _ _) => apply keeps_forEach; intros ?; keeps_tac
  | |- keeps (for_lt _ _ _) => unfold for_lt; keeps_tac
  | |- keeps (for_le _ _ _) => unfold for_le; keeps_tac
  | |- keeps (for_by _ _ _ _) => unfold for_by; keeps_tac
  | |- keeps (mret _) => apply keeps_ret
  | |- keeps skip => apply keeps_ret
  | |- keeps (emit _) => apply keeps_emit
  | |- keeps (tft _) => apply keeps_emit
  | |- keeps (delay _) => apply keeps_emit
  | |- keeps (render _) => apply keeps_emit
  | |- keeps (digitalWrite _ _) => apply keeps_emit
  | |- keeps (gets _) => apply keeps_gets
  | |- keeps (match ?x with _ => _ end) => destruct x; keeps_tac
  | |- _ => solve [auto with keeps]
  end.

Lemma keeps_vibrate n : keeps (vibrate n).
Proof. unfold vibrate. keeps_tac. Qed.
Lemma keeps_vibratePattern a b c : keeps (vibratePattern a b c).
Proof. unfold vibratePattern. keeps_tac. Qed.
Lemma keeps_setRGBLeds c : keeps (setRGBLeds c).
Proof. unfold setRGBLeds. keeps_tac. Qed.
Lemma keeps_slideAnimation dir : keeps (slideAnimation dir).
Proof. eapply keeps_silent, silent_slideAnimation. Qed.
Lemma keeps_drawFullScreenImage img : keeps (drawFullScreenImage img).
Proof. eapply keeps_silent, silent_drawFullScreenImage. Qed.
#[local] Hint Resolve keeps_vibrate keeps_vibratePattern keeps_setRGBLeds keeps_slideAnimation
  keeps_drawFullScreenImage : keeps.

Lemma keeps_drawPageIndicator : keeps drawPageIndicator.
Proof. unfold drawPageIndicator. keeps_tac. Qed.
#[local] Hint Resolve keeps_drawPageIndicator : keeps.

Lemma keeps_indicatorIfPaged : keeps indicatorIfPaged.
Proof. unfold indicatorIfPaged. keeps_tac. Qed.

Lemma keeps_menuGradientRow y : keeps (menuGradientRow y).
Proof. unfold menuGradientRow. keeps_tac. Qed.
Lemma keeps_lockGradientRow x y w : keeps (lockGradientRow x y w).
Proof. unfold lockGradientRow. keeps_tac. Qed.
#[local] Hint Resolve keeps_indicatorIfPaged keeps_menuGradientRow keeps_lockGradientRow : keeps.

Lemma keeps_drawMenuItem i b : keeps (drawMenuItem i b).
Proof. unfold drawMenuItem. keeps_tac. Qed.
#[local] Hint Resolve keeps_drawMenuItem : keeps.

Lemma keeps_unlockVibration : keeps unlockVibration.
Proof. unfold unlockVibration. keeps_tac. Qed.
#[local] Hint Resolve keeps_unlockVibration : keeps.

Lemma keeps_drawMenu : keeps drawMenu.
Proof. unfold drawMenu. keeps_tac. Qed.

Lemma keeps_pageTurnVibration : keeps pageTurnVibration.
Proof. unfold pageTurnVibration. keeps_tac. Qed.
Lemma keeps_buttonPressVibration : keeps buttonPressVibration.
Proof. unfold buttonPressVibration. keeps_tac. Qed.
#[local] Hint Resolve keeps_drawMenu keeps_pageTurnVibration keeps_buttonPressVibration : keeps.

Lemma after_updatePageContent idx d :
  after (updatePageContent idx) d =
  if decide (idx = 1) then with_lastMemoryPage (currentPage d) d else d.
Proof.
  unfold updatePageContent. rewrite after_bind, keeps_pageTurnVibration.
  case_decide.
  - rewrite !after_bind. rewrite keeps_indicatorIfPaged, keeps_slideAnimation. reflexivity.
  - match goal with |- after ?m _ = _ => assert (K : keeps m) by keeps_tac end.
    apply K.
Qed.
(** ** Debounce, button handler and loop *)

Lemma run_gets_bind {A B} (f : Dev -> A) (k : A -> M B) d :
  run (gets f ≫= k) d = run (k (f d)) d.
Proof.
  change (run (gets f ≫= k) d)
    with ((run (k (f d)) d).1.1, (run (k (f d)) d).1.2, [] ++ (run (k (f d)) d).2).
  destruct (run (k (f d)) d) as [[a d'] es]. reflexivity.
Qed.

Lemma debounced_idle t b last body d :
  sampled t b = HIGH ->
  run (debounced t b last body) d = (HIGH, d, []).
Proof. intros H. unfold debounced. rewrite run_gets_bind, H. reflexivity. Qed.

Lemma debounced_held t b last body d :
  last d = LOW ->
  run (debounced t b last body) d = (sampled t b, d, []).
Proof.
  intros H. unfold debounced.
  rewrite run_gets_bind.
  rewrite H. destruct (sampled t b); reflexivity.
Qed.

Lemma debounced_bounce t b last body d :
  sampled t b = LOW -> last d = HIGH -> settled t b = HIGH ->
  run (debounced t b last body) d = (HIGH, d, [Delay DEBOUNCE]).
Proof.
  intros H1 H2 H3. unfold debounced.
  rewrite run_gets_bind.
  rewrite H1, H2, H3. reflexivity.
Qed.

Lemma debounced_pressed t b last body d :
  sampled t b = LOW -> last d = HIGH -> settled t b = LOW ->
  run (debounced t b last body) d = (LOW, after body d, Delay DEBOUNCE :: events body d).
Proof.
  intros H1 H2 H3. unfold debounced.
  rewrite run_gets_bind.
  rewrite H1, H2, H3. unfold after, events.
  change (bool_decide (LOW = LOW)) with true. change (true && bool_decide (HIGH = HIGH)) with true.
  cbv iota.
  change (run (delay DEBOUNCE ;; body ;; mret LOW) d)
    with (LOW, (run body d).1.2, Delay DEBOUNCE :: ((run body d).2 ++ [])).
  rewrite app_nil_r. reflexivity.
Qed.

Lemma run_bind {A B} (m : M A) (k : A -> M B) d a d' es :
  run m d = (a, d', es) ->
  run (m ≫= k) d = ((run (k a) d').1.1, (run (k a) d').1.2, es ++ (run (k a) d').2).
Proof.
  intros H.
  change (run (m ≫= k) d)
    with ((run (k (run m d).1.1) (run m d).1.2).1.1,
          (run (k (run m d).1.1) (run m d).1.2).1.2,
          (run m d).2 ++ (run (k (run m d).1.1) (run m d).1.2).2).
  rewrite H. reflexivity.
Qed.

Lemma run_handleButtons_pressing b at_ now d :
  lastLevel b d = HIGH ->
  run (handleButtons (pressing b at_ now)) d =
  (tt, onlyLow b (after (onButton b at_) d), Delay DEBOUNCE :: events (onButton b at_) d).
Proof.
  intros H. unfold handleButtons.
  destruct b; simpl in H.
  - erewrite run_bind; [|apply debounced_pressed; [reflexivity | exact H | reflexivity]].
    erewrite run_bind; [|apply debounced_idle; reflexivity].
    erewrite run_bind; [|apply debounced_idle; reflexivity].
    erewrite run_bind; [|apply debounced_idle; reflexivity].
    cbn [fst snd]. rewrite !app_nil_l, app_nil_r. reflexivity.
  - erewrite run_bind; [|apply debounced_idle; reflexivity].
    erewrite run_bind; [|apply debounced_pressed; [reflexivity | exact H | reflexivity]].
    erewrite run_bind; [|apply debounced_idle; reflexivity].
    erewrite run_bind; [|apply debounced_idle; reflexivity].
    cbn [fst snd]. rewrite !app_nil_l, app_nil_r. reflexivity.
  - erewrite run_bind; [|apply debounced_idle; reflexivity].
    erewrite run_bind; [|apply debounced_idle; reflexivity].
    erewrite run_bind; [|apply debounced_pressed; [reflexivity | exact H | reflexivity]].
    erewrite run_bind; [|apply debounced_idle; reflexivity].
    cbn [fst snd]. rewrite !app_nil_l, app_nil_r. reflexivity.
  - erewrite run_bind; [|apply debounced_idle; reflexivity].
    erewrite run_bind; [|apply debounced_idle; reflexivity].
    erewrite run_bind; [|apply debounced_idle; reflexivity].
    erewrite run_bind; [|apply debounced_pressed; [reflexivity | exact H | reflexivity]].
    cbn [fst snd]. rewrite !app_nil_l, app_nil_r. reflexivity.
Qed.

Lemma after_loop t d :
  after (loop t) d =
  let d1 := after (handleButtons t) d in
  if timedOut (loopAt t) d1 then cleared d1 else d1.
Proof.
  unfold loop. rewrite after_bind. cbv zeta.
  generalize (after (handleButtons t) d). intros d1.
  rewrite after_bind.
  change (result (gets id) d1) with d1. change (after (gets id) d1) with d1.
  destruct (timedOut (loopAt t) d1); reflexivity.
Qed.

Lemma events_loop t d :
  events (loop t) d =
  let d1 := after (handleButtons t) d in
  events (handleButtons t) d ++
  if timedOut (loopAt t) d1 then events drawPasscodeCircles (cleared d1) else [].
Proof.
  unfold loop. rewrite events_bind. cbv zeta. f_equal.
  generalize (after (handleButtons t) d). intros d1.
  rewrite events_bind.
  change (result (gets id) d1) with d1. change (after (gets id) d1) with d1.
  change (events (gets id) d1) with (@nil Event).
  destruct (timedOut (loopAt t) d1); reflexivity.
Qed.
(** ** Handlers in the Content state *)

Lemma after_gets_bind {A B} (f : Dev -> A) (k : A -> M B) d :
  after (gets f ≫= k) d = after (k (f d)) d.
Proof. unfold after. rewrite run_gets_bind. reflexivity. Qed.

Lemma events_gets_bind {A B} (f : Dev -> A) (k : A -> M B) d :
  events (gets f ≫= k) d = events (k (f d)) d.
Proof. unfold events. rewrite run_gets_bind. reflexivity. Qed.

Lemma after_modify_bind {B} (f : Dev -> Dev) (k : unit -> M B) d :
  after (modify f ≫= k) d = after (k tt) (f d).
Proof. reflexivity. Qed.

Lemma events_modify_bind {B} (f : Dev -> Dev) (k : unit -> M B) d :
  events (modify f ≫= k) d = events (k tt) (f d).
Proof. reflexivity. Qed.

Lemma after_keeps_bind {A B} (m : M A) (k : A -> M B) d :
  keeps m -> after (m ≫= k) d = after (k (result m d)) d.
Proof. intros K. rewrite after_bind, K. reflexivity. Qed.

Lemma events_keeps_bind {A B} (m : M A) (k : A -> M B) d :
  keeps m -> events (m ≫= k) d = events m d ++ events (k (result m d)) d.
Proof. intros K. rewrite events_bind, K. reflexivity. Qed.

(** The state dispatch of the handlers of UP and DOWN. *)
Lemma dispatch_content {A} d (X Y Z W : A) :
  currentState d = CONTENT ->
  (if acceptingSymbol d then X
   else if decide (currentState d = MENU) then Y
   else if decide (currentState d = CONTENT) then Z else W) = Z.
Proof. intros H. unfold acceptingSymbol. rewrite H. reflexivity. Qed.

Lemma run_modify_bind {B} (f : Dev -> Dev) (k : unit -> M B) d :
  run (modify f ≫= k) d = run (k tt) (f d).
Proof.
  change (run (modify f ≫= k) d)
    with ((run (k tt) (f d)).1.1, (run (k tt) (f d)).1.2, [] ++ (run (k tt) (f d)).2).
  destruct (run (k tt) (f d)) as [[a d'] es]. reflexivity.
Qed.

Lemma run_keeps_bind_ext {A B} (m : M A) (k k' : A -> M B) d :
  keeps m ->
  run (k (result m d)) d = run (k' (result m d)) d ->
  run (m ≫= k) d = run (m ≫= k') d.
Proof.
  intros K H.
  change (run (m ≫= k) d)
    with ((run (k (run m d).1.1) (run m d).1.2).1.1,
          (run (k (run m d).1.1) (run m d).1.2).1.2,
          (run m d).2 ++ (run (k (run m d).1.1) (run m d).1.2).2).
  change (run (m ≫= k') d)
    with ((run (k' (run m d).1.1) (run m d).1.2).1.1,
          (run (k' (run m d).1.1) (run m d).1.2).1.2,
          (run m d).2 ++ (run (k' (run m d).1.1) (run m d).1.2).2).
  pose proof (K d) as Kd. unfold after in Kd. unfold result in H.
  rewrite Kd, H. reflexivity.
Qed.

Lemma run_onButton1_content now d :
  currentState d = CONTENT ->
  run (onButton1 now) d =
  run (buttonPressVibration ;;
       if decide (currentPage d < maxPages d - 1) then
         modify (with_currentPage (u8 (currentPage d + 1))) ;;
         updatePageContent (selectedMenuItem d)
       else skip) (with_lastPressTime (u32 now) d).
Proof.
  intros H. unfold onButton1. rewrite run_modify_bind.
  apply run_keeps_bind_ext; [apply keeps_buttonPressVibration|].
  rewrite run_gets_bind. unfold id.
  rewrite dispatch_content by exact H. reflexivity.
Qed.

Lemma run_onButton0_content now d :
  currentState d = CONTENT ->
  run (onButton0 now) d =
  run (buttonPressVibration ;;
       if decide (currentPage d > 0) then
         modify (with_currentPage (u8 (currentPage d - 1))) ;;
         updatePageContent (selectedMenuItem d)
       else skip) (with_lastPressTime (u32 now) d).
Proof.
  intros H. unfold onButton0. rewrite run_modify_bind.
  apply run_keeps_bind_ext; [apply keeps_buttonPressVibration|].
  rewrite run_gets_bind. unfold id.
  rewrite dispatch_content by exact H. reflexivity.
Qed.

(** A page turn: the cursor moves, then the page is redrawn. *)
Lemma run_turn now d page :
  run (buttonPressVibration ;;
       modify (with_currentPage page) ;;
       updatePageContent (selectedMenuItem d)) (with_lastPressTime (u32 now) d) =
  let d1 := with_currentPage page (with_lastPressTime (u32 now) d) in
  (tt, after (updatePageContent (selectedMenuItem d)) d1,
   events buttonPressVibration d ++ events (updatePageContent (selectedMenuItem d)) d1).
Proof.
  cbv zeta. rewrite (run_eta (_ ;; _)).
  rewrite after_keeps_bind, events_keeps_bind by apply keeps_buttonPressVibration.
  rewrite after_modify_bind, events_modify_bind.
  f_equal. f_equal. destruct (result _ _). reflexivity.
Qed.

(** The press is ignored by the navigation: only the press pulse. *)
Lemma run_ignored now d :
  run (buttonPressVibration ;; skip) (with_lastPressTime (u32 now) d) =
  (tt, with_lastPressTime (u32 now) d, events buttonPressVibration d).
Proof. reflexivity. Qed.
Lemma timedOut_unlocked now d : currentState d <> LOCKED -> timedOut now d = false.
Proof.
  intros H. unfold timedOut. rewrite (bool_decide_eq_false_2 _ H). reflexivity.
Qed.

Lemma timedOut_empty now d : passIndex d = 0 -> timedOut now d = false.
Proof.
  intros H. unfold timedOut. rewrite H. apply andb_false_r.
Qed.

Lemma run_handleButtons_released now d :
  run (handleButtons (released now)) d = (tt, with_lastButtons HIGH HIGH HIGH HIGH d, []).
Proof.
  unfold handleButtons.
  erewrite run_bind; [|apply debounced_idle; reflexivity].
  erewrite run_bind; [|apply debounced_idle; reflexivity].
  erewrite run_bind; [|apply debounced_idle; reflexivity].
  erewrite run_bind; [|apply debounced_idle; reflexivity].
  reflexivity.
Qed.

Lemma run_loop_pressing b at_ now d :
  lastLevel b d = HIGH ->
  timedOut now (after (onButton b at_) d) = false ->
  run (loop (pressing b at_ now)) d =
  (tt, onlyLow b (after (onButton b at_) d),
   Delay DEBOUNCE :: events (onButton b at_) d).
Proof.
  intros Hb Ht.
  assert (Ha : after (handleButtons (pressing b at_ now)) d
               = onlyLow b (after (onButton b at_) d))
    by (unfold after at 1; rewrite (run_handleButtons_pressing b at_ now d Hb); reflexivity).
  assert (He : events (handleButtons (pressing b at_ now)) d
               = Delay DEBOUNCE :: events (onButton b at_) d)
    by (unfold events at 1; rewrite (run_handleButtons_pressing b at_ now d Hb); reflexivity).
  assert (Ht' : timedOut now (onlyLow b (after (onButton b at_) d)) = false) by exact Ht.
  rewrite (run_eta (loop _)), after_loop, events_loop. cbv zeta.
  rewrite Ha, He. cbn [loopAt pressing].
  rewrite Ht', app_nil_r. destruct (result _ _). reflexivity.
Qed.

Lemma run_loop_released now d :
  timedOut now d = false ->
  run (loop (released now)) d = (tt, with_lastButtons HIGH HIGH HIGH HIGH d, []).
Proof.
  intros Ht.
  assert (Ha : after (handleButtons (released now)) d
               = with_lastButtons HIGH HIGH HIGH HIGH d)
    by (unfold after; rewrite run_handleButtons_released; reflexivity).
  assert (He : events (handleButtons (released now)) d = [])
    by (unfold events; rewrite run_handleButtons_released; reflexivity).
  assert (Ht' : timedOut now (with_lastButtons HIGH HIGH HIGH HIGH d) = false) by exact Ht.
  rewrite (run_eta (loop _)), after_loop, events_loop. cbv zeta.
  rewrite Ha, He. cbn [loopAt released].
  rewrite Ht'. destruct (result _ _). reflexivity.
Qed.

Lemma events_slideAnimation dir d d' :
  events (slideAnimation dir) d = events (slideAnimation dir) d'.
Proof.
  rewrite !(silent_events _ _ _ (silent_slideAnimation dir)). reflexivity.
Qed.

Lemma events_updatePageContent_memories d :
  events (updatePageContent 1) d =
  events pageTurnVibration d
  ++ events (slideAnimation (bool_decide (currentPage d > lastMemoryPage d))) d
  ++ events indicatorIfPaged (with_lastMemoryPage (currentPage d) d).
Proof.
  unfold updatePageContent.
  rewrite events_keeps_bind by apply keeps_pageTurnVibration.
  apply (f_equal (app (events pageTurnVibration d))).
  destruct (decide (1 = 1)) as [_|N]; [|congruence].
  rewrite !events_gets_bind, events_modify_bind.
  rewrite events_keeps_bind by apply keeps_slideAnimation.
  rewrite (events_slideAnimation _ _ d). reflexivity.
Qed.
Lemma u8_small z : 0 <= z < 256 -> u8 z = z.
Proof. intros H. unfold u8. apply Z.mod_small. exact H. Qed.

(** The state after an accepted UP or DOWN press in the Content state. *)
Lemma after_onButton1_content now d :
  currentState d = CONTENT ->
  after (onButton1 now) d =
  let d1 := with_lastPressTime (u32 now) d in
  if decide (currentPage d < maxPages d - 1) then
    let d2 := with_currentPage (u8 (currentPage d + 1)) d1 in
    if decide (selectedMenuItem d = 1) then with_lastMemoryPage (currentPage d2) d2 else d2
  else d1.
Proof.
  intros H. unfold after at 1. rewrite (run_onButton1_content now d H). cbv zeta.
  case_decide.
  - rewrite run_turn. cbv zeta. cbn [fst snd]. apply after_updatePageContent.
  - rewrite run_ignored. reflexivity.
Qed.

Lemma after_onButton0_content now d :
  currentState d = CONTENT ->
  after (onButton0 now) d =
  let d1 := with_lastPressTime (u32 now) d in
  if decide (currentPage d > 0) then
    let d2 := with_currentPage (u8 (currentPage d - 1)) d1 in
    if decide (selectedMenuItem d = 1) then with_lastMemoryPage (currentPage d2) d2 else d2
  else d1.
Proof.
  intros H. unfold after at 1. rewrite (run_onButton0_content now d H). cbv zeta.
  case_decide.
  - rewrite run_turn. cbv zeta. cbn [fst snd]. apply after_updatePageContent.
  - rewrite run_ignored. reflexivity.
Qed.

Lemma paging_onButton1 pages now d :
  paging pages d -> paging pages (after (onButton1 now) d).
Proof.
  intros (St & Mp & Cp & Le). rewrite after_onButton1_content by exact St. cbv zeta.
  unfold paging. repeat case_decide; cbn; rewrite ?u8_small by lia; repeat split; auto; lia.
Qed.

Lemma paging_onButton0 pages now d :
  paging pages d -> paging pages (after (onButton0 now) d).
Proof.
  intros (St & Mp & Cp & Le). rewrite after_onButton0_content by exact St. cbv zeta.
  unfold paging. repeat case_decide; cbn; rewrite ?u8_small by lia; repeat split; auto; lia.
Qed.

Lemma debounced_cases t b last body d :
  exists c es,
    run (debounced t b last body) d = (c, d, es) \/
    run (debounced t b last body) d = (c, after body d, es).
Proof.
  destruct (sampled t b) eqn:Hs.
  - exists HIGH, []. left. apply debounced_idle. exact Hs.
  - destruct (last d) eqn:Hl.
    + destruct (settled t b) eqn:Hq.
      * exists HIGH, [Delay DEBOUNCE]. left. apply debounced_bounce; assumption.
      * exists LOW, (Delay DEBOUNCE :: events body d). right. apply debounced_pressed; assumption.
    + exists LOW, []. left. rewrite debounced_held by exact Hl. rewrite Hs. reflexivity.
Qed.

(** What a pass without SELECT or BACK can do to the globals. *)
Lemma after_handleButtons_pagingOnly (P : Dev -> Prop) t d :
  pagingOnly t ->
  (forall d now, P d -> P (after (onButton0 now) d)) ->
  (forall d now, P d -> P (after (onButton1 now) d)) ->
  (forall d c0 c1 c2 c3, P d -> P (with_lastButtons c0 c1 c2 c3 d)) ->
  P d -> P (after (handleButtons t) d).
Proof.
  intros [Hs Hb] P0 P1 PL Pd. unfold after at 1, handleButtons.
  destruct (debounced_cases t Button0 lastButton0 (onButton0 (pressedAt t Button0)) d)
    as (c0 & es0 & [E0 | E0]);
  (erewrite run_bind; [|exact E0]);
  match goal with |- context [run (debounced t Button1 lastButton1 ?body ≫= _) ?d0] =>
    destruct (debounced_cases t Button1 lastButton1 body d0) as (c1 & es1 & [E1 | E1])
  end;
  (erewrite run_bind; [|exact E1]);
  (erewrite run_bind; [|apply debounced_idle; exact Hs]);
  (erewrite run_bind; [|apply debounced_idle; exact Hb]);
  cbn [fst snd]; apply PL; auto.
Qed.

Lemma paging_loop pages t d :
  pagingOnly t -> paging pages d -> paging pages (after (loop t) d).
Proof.
  intros Ht Pd. rewrite after_loop. cbv zeta.
  assert (P1 : paging pages (after (handleButtons t) d)).
  { apply after_handleButtons_pagingOnly; auto.
    - intros; apply paging_onButton0; assumption.
    - intros; apply paging_onButton1; assumption. }
  rewrite timedOut_unlocked; [exact P1|].
  destruct P1 as (St & _). rewrite St. discriminate.
Qed.

Lemma paging_passes pages ticks d :
  Forall pagingOnly ticks -> paging pages d -> paging pages (after (passes ticks) d).
Proof.
  intros H. revert d. induction H as [|t ticks Ht _ IH]; intros d Pd.
  - exact Pd.
  - rewrite after_passes_cons. apply IH, paging_loop; assumption.
Qed.

Lemma run_handleButtons_held b at_ now d :
  lastLevel b d = LOW ->
  run (handleButtons (pressing b at_ now)) d = (tt, onlyLow b d, []).
Proof.
  intros H. unfold handleButtons.
  destruct b; simpl in H.
  - erewrite run_bind; [|apply debounced_held; exact H].
    erewrite run_bind; [|apply debounced_idle; reflexivity].
    erewrite run_bind; [|apply debounced_idle; reflexivity].
    erewrite run_bind; [|apply debounced_idle; reflexivity].
    reflexivity.
  - erewrite run_bind; [|apply debounced_idle; reflexivity].
    erewrite run_bind; [|apply debounced_held; exact H].
    erewrite run_bind; [|apply debounced_idle; reflexivity].
    erewrite run_bind; [|apply debounced_idle; reflexivity].
    reflexivity.
  - erewrite run_bind; [|apply debounced_idle; reflexivity].
    erewrite run_bind; [|apply debounced_idle; reflexivity].
    erewrite run_bind; [|apply debounced_held; exact H].
    erewrite run_bind; [|apply debounced_idle; reflexivity].
    reflexivity.
  - erewrite run_bind; [|apply debounced_idle; reflexivity].
    erewrite run_bind; [|apply debounced_idle; reflexivity].
    erewrite run_bind; [|apply debounced_idle; reflexivity].
    erewrite run_bind; [|apply debounced_held; exact H].
    reflexivity.
Qed.

Lemma run_loop_held b at_ now d :
  lastLevel b d = LOW ->
  timedOut now d = false ->
  run (loop (pressing b at_ now)) d = (tt, onlyLow b d, []).
Proof.
  intros Hb Ht.
  assert (Ha : after (handleButtons (pressing b at_ now)) d = onlyLow b d)
    by (unfold after; rewrite (run_handleButtons_held b at_ now d Hb); reflexivity).
  assert (He : events (handleButtons (pressing b at_ now)) d = [])
    by (unfold events; rewrite (run_handleButtons_held b at_ now d Hb); reflexivity).
  assert (Ht' : timedOut now (onlyLow b d) = false) by exact Ht.
  rewrite (run_eta (loop _)), after_loop, events_loop. cbv zeta.
  rewrite Ha, He. cbn [loopAt pressing].
  rewrite Ht'. destruct (result _ _). reflexivity.
Qed.

Lemma events_buttonPressVibration d :
  events buttonPressVibration d =
  [DigitalWrite VIBRATION_MOTOR_PIN HIGH; Delay 30; DigitalWrite VIBRATION_MOTOR_PIN LOW].
Proof. reflexivity. Qed.

(** "Previous" at the first page: the press pulse and nothing else. *)
Lemma run_loop_prev_at_first at_ now d :
  currentState d = CONTENT -> currentPage d <= 0 -> lastButton0 d = HIGH ->
  run (loop (pressing Button0 at_ now)) d =
  (tt, onlyLow Button0 (with_lastPressTime (u32 at_) d),
   Delay DEBOUNCE :: events buttonPressVibration d).
Proof.
  intros St Cp Hb.
  assert (R : run (onButton Button0 at_) d =
              (tt, with_lastPressTime (u32 at_) d, events buttonPressVibration d)).
  { cbn [onButton]. rewrite (run_onButton0_content at_ d St).
    destruct (decide (currentPage d > 0)) as [C|_]; [lia|]. apply run_ignored. }
  rewrite run_loop_pressing.
  - unfold after, events at 1. rewrite R. reflexivity.
  - exact Hb.
  - unfold after. rewrite R. apply timedOut_unlocked. cbn. rewrite St. discriminate.
Qed.

(** "Next" at the last page: the press pulse and nothing else. *)
Lemma run_loop_next_at_last at_ now d :
  currentState d = CONTENT -> maxPages d - 1 <= currentPage d -> lastButton1 d = HIGH ->
  run (loop (pressing Button1 at_ now)) d =
  (tt, onlyLow Button1 (with_lastPressTime (u32 at_) d),
   Delay DEBOUNCE :: events buttonPressVibration d).
Proof.
  intros St Cp Hb.
  assert (R : run (onButton Button1 at_) d =
              (tt, with_lastPressTime (u32 at_) d, events buttonPressVibration d)).
  { cbn [onButton]. rewrite (run_onButton1_content at_ d St).
    destruct (decide (currentPage d < maxPages d - 1)) as [C|_]; [lia|]. apply run_ignored. }
  rewrite run_loop_pressing.
  - unfold after, events at 1. rewrite R. reflexivity.
  - exact Hb.
  - unfold after. rewrite R. apply timedOut_unlocked. cbn. rewrite St. discriminate.
Qed.

(** C6, as the code has it.  In the Content state a "previous" at page 0,
    or a "next" at the last page, is ignored by the navigation: nothing is
    redrawn, there is no page-turn pulse and no LED change, and the state,
    the selection, the page cursor and the passcode attempt are unchanged.
    The press is still acknowledged: after the debounce delay the motor
    runs for the 30 ms press pulse, and the press time and the line levels
    are recorded. *)
Theorem ignored_page_turn (d : Dev) (at_ now : Z) :
  currentState d = CONTENT ->
  (currentPage d = 0 -> lastButton0 d = HIGH ->
   run (loop (pressing Button0 at_ now)) d =
   (tt, with_lastButtons LOW HIGH HIGH HIGH (with_lastPressTime (u32 at_) d),
    [Delay DEBOUNCE; DigitalWrite VIBRATION_MOTOR_PIN HIGH; Delay 30;
     DigitalWrite VIBRATION_MOTOR_PIN LOW])) /\
  (currentPage d = maxPages d - 1 -> lastButton1 d = HIGH ->
   run (loop (pressing Button1 at_ now)) d =
   (tt, with_lastButtons HIGH LOW HIGH HIGH (with_lastPressTime (u32 at_) d),
    [Delay DEBOUNCE; DigitalWrite VIBRATION_MOTOR_PIN HIGH; Delay 30;
     DigitalWrite VIBRATION_MOTOR_PIN LOW])).
Proof.
  intros St. split; intros Cp Hb.
  - rewrite run_loop_prev_at_first by (auto; lia). reflexivity.
  - rewrite run_loop_next_at_last by (auto; lia). reflexivity.
Qed.
(** ** Passcode entry *)

Lemma keeps_drawPasscodeCircles : keeps drawPasscodeCircles.
Proof. unfold drawPasscodeCircles. keeps_tac. Qed.
Lemma keeps_drawLockIcon x y u : keeps (drawLockIcon x y u).
Proof. unfold drawLockIcon. keeps_tac. Qed.
#[local] Hint Resolve keeps_drawPasscodeCircles keeps_drawLockIcon : keeps.
Lemma keeps_drawLockScreen : keeps drawLockScreen.
Proof. unfold drawLockScreen. keeps_tac. Qed.
Lemma keeps_rgbPulseEffect c : keeps (rgbPulseEffect c).
Proof. unfold rgbPulseEffect. keeps_tac. Qed.
Lemma keeps_rgbRainbow : keeps rgbRainbow.
Proof. unfold rgbRainbow. keeps_tac. Qed.
Lemma keeps_successVibration : keeps successVibration.
Proof. unfold successVibration. keeps_tac. Qed.
Lemma keeps_errorVibration : keeps errorVibration.
Proof. unfold errorVibration. keeps_tac. Qed.
Lemma keeps_bannerGradient : keeps bannerGradient.
Proof. unfold bannerGradient. keeps_tac. Qed.
#[local] Hint Resolve keeps_drawLockScreen keeps_rgbPulseEffect keeps_rgbRainbow
  keeps_successVibration keeps_errorVibration keeps_bannerGradient : keeps.
Lemma keeps_showUnlockAnimation : keeps showUnlockAnimation.
Proof. unfold showUnlockAnimation. keeps_tac. Qed.
Lemma keeps_checkPasscode : keeps checkPasscode.
Proof. unfold checkPasscode. keeps_tac. Qed.
#[local] Hint Resolve keeps_showUnlockAnimation keeps_checkPasscode : keeps.

(** One step of symbolic execution past a computation that keeps the
    globals. *)
Ltac step_keeps :=
  lazymatch goal with
  | |- after (?m ≫= ?k) ?d = _ =>
      let K := fresh "K" in
      assert (K : keeps m) by keeps_tac;
      rewrite (after_keeps_bind m k d K); clear K
  end.

Lemma after_showLockedAnimation d : after showLockedAnimation d = cleared d.
Proof.
  unfold showLockedAnimation.
  do 3 step_keeps.
  rewrite after_modify_bind.
  rewrite after_bind.
  step_keeps.
  match goal with |- after drawLockScreen ?x = _ => rewrite (keeps_drawLockScreen x) end.
  reflexivity.
Qed.

Lemma after_ifM (c : M bool) (t e : M unit) d :
  keeps c ->
  after (ifM c t e) d = if result c d then after t d else after e d.
Proof.
  intros K. unfold ifM. rewrite (after_keeps_bind c _ d K).
  destruct (result c d); reflexivity.
Qed.

(** The LOCKED branch of a handler: the symbol is stored, the cursor
    advances, and a full attempt is checked. *)
Lemma after_enterSymbol s led ring d :
  after (enterSymbol s led ring) d =
  let d1 := with_passIndex (u8 (passIndex d + 1))
              (with_enteredPasscode (<[Z.to_nat (passIndex d) := s]> (enteredPasscode d)) d) in
  if decide (passIndex d1 >= PASS_LENGTH) then
    if result checkPasscode d1 then with_currentState MENU d1 else cleared d1
  else d1.
Proof.
  unfold enterSymbol. cbv zeta.
  rewrite !after_modify_bind.
  set (d1 := with_passIndex _ _). clearbody d1.
  step_keeps.
  rewrite after_gets_bind.
  do 2 step_keeps.
  rewrite after_gets_bind.
  case_decide; [|reflexivity].
  step_keeps.
  rewrite after_ifM by apply keeps_checkPasscode.
  destruct (result checkPasscode d1).
  - rewrite after_modify_bind.
    do 2 step_keeps.
    reflexivity.
  - apply after_showLockedAnimation.
Qed.

(** ** Handlers in the Locked state *)

Lemma dispatch_locked {A} d (X Y : A) :
  currentState d = LOCKED -> passIndex d < PASS_LENGTH ->
  (if acceptingSymbol d then X else Y) = X.
Proof.
  intros H1 H2. unfold acceptingSymbol.
  rewrite (bool_decide_eq_true_2 _ H1), (bool_decide_eq_true_2 _ H2). reflexivity.
Qed.

(** An accepted press while a symbol can still be entered: the press
    time is recorded, then the symbol of the button is entered. *)
Lemma after_onButton_locked b now d :
  currentState d = LOCKED -> passIndex d < PASS_LENGTH ->
  exists led ring,
    after (onButton b now) d =
    after (enterSymbol (symbolOf b) led ring) (with_lastPressTime (u32 now) d).
Proof.
  intros H1 H2.
  destruct b; cbn [onButton symbolOf]; eexists _, _;
    [unfold onButton0 | unfold onButton1 | unfold onButtonSelect | unfold onButtonBack];
    rewrite after_modify_bind; step_keeps; rewrite after_gets_bind; unfold id;
    rewrite dispatch_locked by assumption; reflexivity.
Qed.

Lemma cleared_slots d :
  length (enteredPasscode d) = 4%nat -> enteredPasscode (cleared d) = [0; 0; 0; 0].
Proof.
  intros L. unfold cleared. cbn [enteredPasscode with_enteredPasscode].
  destruct (enteredPasscode d) as [|a [|b [|c [|e [|? ?]]]]]; try discriminate L.
  reflexivity.
Qed.

Lemma timedOut_true now d :
  currentState d = LOCKED -> u32 (u32 now - lastPressTime d) > TIMEOUT_MS -> passIndex d > 0 ->
  timedOut now d = true.
Proof.
  intros H1 H2 H3. unfold timedOut.
  rewrite (bool_decide_eq_true_2 _ H1), (bool_decide_eq_true_2 _ H2),
          (bool_decide_eq_true_2 _ H3). reflexivity.
Qed.

Lemma timedOut_early now d :
  u32 (u32 now - lastPressTime d) <= TIMEOUT_MS -> timedOut now d = false.
Proof.
  intros H. unfold timedOut.
  rewrite (bool_decide_eq_false_2 (u32 (u32 now - lastPressTime d) > TIMEOUT_MS)) by lia.
  rewrite andb_false_r. reflexivity.
Qed.

Lemma debounced_quiet t b last body d :
  (sampled t b = LOW -> last d = HIGH -> settled t b = HIGH) ->
  exists c es, run (debounced t b last body) d = (c, d, es).
Proof.
  intros Q. destruct (sampled t b) eqn:Hs.
  - exists HIGH, []. apply debounced_idle. exact Hs.
  - destruct (last d) eqn:Hl.
    + exists HIGH, [Delay DEBOUNCE]. apply debounced_bounce; auto.
    + exists LOW, []. rewrite debounced_held by exact Hl. rewrite Hs. reflexivity.
Qed.

(** A pass in which no press is accepted only records the line levels. *)
Lemma after_handleButtons_quiet t d :
  quiet t d ->
  exists c0 c1 c2 c3, after (handleButtons t) d = with_lastButtons c0 c1 c2 c3 d.
Proof.
  intros Q. unfold after, handleButtons.
  destruct (debounced_quiet t Button0 lastButton0 (onButton0 (pressedAt t Button0)) d
              (Q Button0)) as (c0 & es0 & E0).
  destruct (debounced_quiet t Button1 lastButton1 (onButton1 (pressedAt t Button1)) d
              (Q Button1)) as (c1 & es1 & E1).
  destruct (debounced_quiet t ButtonSelect lastButtonSelect
              (onButtonSelect (pressedAt t ButtonSelect)) d (Q ButtonSelect)) as (c2 & es2 & E2).
  destruct (debounced_quiet t ButtonBack lastButtonBack
              (onButtonBack (pressedAt t ButtonBack)) d (Q ButtonBack)) as (c3 & es3 & E3).
  exists c0, c1, c2, c3.
  erewrite run_bind; [|exact E0].
  erewrite run_bind; [|exact E1].
  erewrite run_bind; [|exact E2].
  erewrite run_bind; [|exact E3].
  reflexivity.
Qed.

(** The idle timeout: a pass in which no press is accepted, in the Locked
    state with a started attempt. *)
Lemma after_loop_quiet t d :
  quiet t d ->
  exists c0 c1 c2 c3,
    after (loop t) d =
    if timedOut (loopAt t) d then cleared (with_lastButtons c0 c1 c2 c3 d)
    else with_lastButtons c0 c1 c2 c3 d.
Proof.
  intros Q. destruct (after_handleButtons_quiet t d Q) as (c0 & c1 & c2 & c3 & E).
  exists c0, c1, c2, c3. rewrite after_loop, E. reflexivity.
Qed.

Lemma idle_timeout t d :
  currentState d = LOCKED -> passIndex d > 0 ->
  length (enteredPasscode d) = Z.to_nat PASS_LENGTH -> quiet t d ->
  let d' := after (loop t) d in
  (u32 (u32 (loopAt t) - lastPressTime d) > TIMEOUT_MS ->
   passIndex d' = 0 /\ enteredPasscode d' = [0; 0; 0; 0] /\ currentState d' = LOCKED) /\
  (u32 (u32 (loopAt t) - lastPressTime d) <= TIMEOUT_MS ->
   passIndex d' = passIndex d /\ enteredPasscode d' = enteredPasscode d /\
   currentState d' = LOCKED).
Proof.
  intros St Pi L Q. cbv zeta.
  destruct (after_loop_quiet t d Q) as (c0 & c1 & c2 & c3 & ->).
  split; intros E.
  - rewrite timedOut_true by assumption.
    split; [reflexivity|]. split; [|exact St].
    apply (cleared_slots (with_lastButtons c0 c1 c2 c3 d)). exact L.
  - rewrite timedOut_early by assumption. repeat split. exact St.
Qed.

(** C5, as the code has it.  In the Locked state with passIndex > 0, a
    pass of the loop in which no press is accepted resets passIndex to 0
    and clears the four slots when the unsigned 32-bit difference between
    the clock and the last accepted press is strictly greater than
    TIMEOUT_MS (5000); at 5000 or less the attempt is left as it is. *)
Theorem idle_timeout_reset (d : Dev) (t : Tick) :
  currentState d = LOCKED -> passIndex d > 0 ->
  length (enteredPasscode d) = Z.to_nat PASS_LENGTH -> quiet t d ->
  let d' := after (loop t) d in
  (u32 (u32 (loopAt t) - lastPressTime d) > TIMEOUT_MS ->
   passIndex d' = 0 /\ enteredPasscode d' = [0; 0; 0; 0]) /\
  (u32 (u32 (loopAt t) - lastPressTime d) <= TIMEOUT_MS ->
   passIndex d' = passIndex d /\ enteredPasscode d' = enteredPasscode d).
Proof.
  intros St Pi L Q. cbv zeta.
  destruct (idle_timeout t d St Pi L Q) as [H1 H2].
  split; intros E; [destruct (H1 E) as (? & ? & _) | destruct (H2 E) as (? & ? & _)]; auto.
Qed.

(** The fourth symbol of an attempt: the state after the press. *)
Lemma after_onButton_fourth b now d :
  currentState d = LOCKED -> passIndex d = 3 ->
  let d2 := with_passIndex 4
              (with_enteredPasscode (<[3%nat := symbolOf b]> (enteredPasscode d))
                 (with_lastPressTime (u32 now) d)) in
  after (onButton b now) d =
  if result checkPasscode d2 then with_currentState MENU d2 else cleared d2.
Proof.
  intros St Pi. cbv zeta.
  destruct (after_onButton_locked b now d St) as (led & ring & ->);
    [rewrite Pi; reflexivity|].
  rewrite after_enterSymbol. cbv zeta.
  cbn [passIndex enteredPasscode with_lastPressTime with_passIndex with_enteredPasscode].
  rewrite Pi. reflexivity.
Qed.

Lemma fourth_symbol b at_ now d :
  currentState d = LOCKED -> passIndex d = 3 ->
  length (enteredPasscode d) = Z.to_nat PASS_LENGTH -> lastLevel b d = HIGH ->
  let attempt := <[3%nat := symbolOf b]> (enteredPasscode d) in
  let d' := after (loop (pressing b at_ now)) d in
  (attempt <> CORRECT_PASSCODE ->
   currentState d' = LOCKED /\ passIndex d' = 0 /\ enteredPasscode d' = [0; 0; 0; 0]) /\
  (attempt = CORRECT_PASSCODE ->
   currentState d' = MENU /\ passIndex d' = PASS_LENGTH /\
   enteredPasscode d' = CORRECT_PASSCODE).
Proof.
  intros St Pi L Hb. cbv zeta.
  pose proof (after_onButton_fourth b at_ d St Pi) as E. cbv zeta in E.
  set (d2 := with_passIndex 4 _) in E.
  assert (L2 : length (enteredPasscode d2) = Z.to_nat PASS_LENGTH)
    by (subst d2; cbn [enteredPasscode with_passIndex with_enteredPasscode];
        rewrite length_insert; exact L).
  pose proof (checkPasscode_reference d2 L2) as C.
  assert (A2 : enteredPasscode d2 = <[3%nat := symbolOf b]> (enteredPasscode d))
    by reflexivity.
  rewrite A2 in C.
  destruct (result checkPasscode d2) eqn:R.
  - assert (D : after (loop (pressing b at_ now)) d = onlyLow b (with_currentState MENU d2)).
    { unfold after at 1. rewrite run_loop_pressing;
        [| exact Hb | rewrite E; apply timedOut_unlocked; discriminate].
      cbn [fst snd]. rewrite E. reflexivity. }
    rewrite D.
    split; [intros N; exfalso; apply N, C; reflexivity|].
    intros A. repeat split. exact A.
  - assert (D : after (loop (pressing b at_ now)) d = onlyLow b (cleared d2)).
    { unfold after at 1. rewrite run_loop_pressing;
        [| exact Hb | rewrite E; apply timedOut_empty; reflexivity].
      cbn [fst snd]. rewrite E. reflexivity. }
    rewrite D.
    split; [|intros A; apply C in A; discriminate].
    intros _. split; [exact St | split; [reflexivity | apply (cleared_slots d2 L2)]].
Qed.

(** C2, as the code has it.  The attempt is reset to empty (passIndex 0,
    every slot 0) on the idle timeout and on a failed match.  On a
    successful unlock it is not reset: the machine is in Menu with
    passIndex still equal to PASS_LENGTH and the four slots holding the
    reference sequence. *)
Theorem attempt_reset_cases :
  (forall d t,
     currentState d = LOCKED -> passIndex d > 0 ->
     length (enteredPasscode d) = Z.to_nat PASS_LENGTH -> quiet t d ->
     u32 (u32 (loopAt t) - lastPressTime d) > TIMEOUT_MS ->
     let d' := after (loop t) d in
     currentState d' = LOCKED /\ passIndex d' = 0 /\ enteredPasscode d' = [0; 0; 0; 0]) /\
  (forall d b at_ now,
     currentState d = LOCKED -> passIndex d = 3 ->
     length (enteredPasscode d) = Z.to_nat PASS_LENGTH -> lastLevel b d = HIGH ->
     let attempt := <[3%nat := symbolOf b]> (enteredPasscode d) in
     let d' := after (loop (pressing b at_ now)) d in
     (attempt <> CORRECT_PASSCODE ->
      currentState d' = LOCKED /\ passIndex d' = 0 /\ enteredPasscode d' = [0; 0; 0; 0]) /\
     (attempt = CORRECT_PASSCODE ->
      currentState d' = MENU /\ passIndex d' = PASS_LENGTH /\
      enteredPasscode d' = CORRECT_PASSCODE)).
Proof.
  split.
  - intros d t St Pi L Q E. cbv zeta.
    destruct (idle_timeout t d St Pi L Q) as [H _].
    destruct (H E) as (? & ? & ?). auto.
  - intros d b at_ now St Pi L Hb. apply fourth_symbol; assumption.
Qed.

(** A symbol entered before the attempt is full. *)
Lemma after_enterSymbol_partial s led ring d :
  0 <= passIndex d < 3 ->
  after (enterSymbol s led ring) d =
  with_passIndex (passIndex d + 1)
    (with_enteredPasscode (<[Z.to_nat (passIndex d) := s]> (enteredPasscode d)) d).
Proof.
  intros H. rewrite after_enterSymbol. cbv zeta.
  cbn [passIndex with_passIndex]. rewrite u8_small by lia.
  destruct (decide (passIndex d + 1 >= PASS_LENGTH)) as [G|_]; [|reflexivity].
  unfold PASS_LENGTH in G. lia.
Qed.

Lemma checkPasscode_slots d d' :
  enteredPasscode d = enteredPasscode d' -> result checkPasscode d = result checkPasscode d'.
Proof. intros E. unfold result, checkPasscode, gets. cbn [run fst snd]. rewrite E. reflexivity. Qed.

Lemma checkPasscode_cleared d :
  length (enteredPasscode d) = Z.to_nat PASS_LENGTH -> result checkPasscode (cleared d) = true.
Proof.
  intros L. apply (checkPasscode_four 0 0 0 0); [|auto].
  apply cleared_slots. exact L.
Qed.

(** Four symbols entered from an empty cursor, whatever the slots held. *)
Lemma four_symbols s1 s2 s3 s4 l1 r1 l2 r2 l3 r3 l4 r4 d :
  currentState d = LOCKED -> passIndex d = 0 ->
  length (enteredPasscode d) = Z.to_nat PASS_LENGTH ->
  let d' := after (enterSymbol s1 l1 r1 ;; enterSymbol s2 l2 r2 ;;
                   enterSymbol s3 l3 r3 ;; enterSymbol s4 l4 r4) d in
  currentState d' = MENU <-> [s1; s2; s3; s4] = CORRECT_PASSCODE.
Proof.
  intros St Pi L. cbv zeta.
  rewrite !after_bind.
  rewrite (after_enterSymbol_partial s1) by lia. rewrite Pi.
  rewrite (after_enterSymbol_partial s2) by (cbn; lia).
  rewrite (after_enterSymbol_partial s3) by (cbn; lia).
  rewrite after_enterSymbol. cbv zeta.
  cbn [passIndex enteredPasscode currentState with_passIndex with_enteredPasscode].
  destruct (enteredPasscode d) as [|a [|b [|c [|e [|? ?]]]]]; try discriminate L.
  change (<[Z.to_nat (0 + 1 + 1 + 1):=s4]>
            (<[Z.to_nat (0 + 1 + 1):=s3]> (<[Z.to_nat (0 + 1):=s2]> (<[Z.to_nat 0:=s1]> [a; b; c; e]))))
    with [s1; s2; s3; s4].
  change (u8 (0 + 1 + 1 + 1 + 1)) with 4.
  destruct (decide (4 >= PASS_LENGTH)) as [_|N]; [|exfalso; apply N; discriminate].
  set (d4 := with_passIndex 4 _).
  pose proof (checkPasscode_four s1 s2 s3 s4 d4 eq_refl) as C.
  destruct (result checkPasscode d4).
  - cbn. split; [intros _|reflexivity].
    destruct C as [C _]. destruct (C eq_refl) as (-> & -> & -> & ->). reflexivity.
  - cbn. rewrite St. split; [discriminate|].
    intros [= -> -> -> ->]. destruct C as [_ C].
    assert (F : false = true) by (apply C; auto). discriminate F.
Qed.

(** C9. The match check reads the four slots and nothing else, so it does
    not depend on the cursor.  After either reset (failed match, idle
    timeout) the cursor is 0 and the cleared slots already satisfy the
    check.  The check is consulted only when the cursor reaches 4: a
    symbol entered at cursor 0, 1 or 2 leaves the state as it is, and four
    symbols entered from cursor 0 unlock if and only if they are the
    reference, whatever the slots held before. *)
Theorem match_ignores_cursor :
  (forall d d', enteredPasscode d = enteredPasscode d' ->
                result checkPasscode d = result checkPasscode d') /\
  (forall d, length (enteredPasscode d) = Z.to_nat PASS_LENGTH ->
     let d' := after showLockedAnimation d in
     passIndex d' = 0 /\ result checkPasscode d' = true) /\
  (forall d t,
     currentState d = LOCKED -> passIndex d > 0 ->
     length (enteredPasscode d) = Z.to_nat PASS_LENGTH -> quiet t d ->
     u32 (u32 (loopAt t) - lastPressTime d) > TIMEOUT_MS ->
     let d' := after (loop t) d in
     passIndex d' = 0 /\ result checkPasscode d' = true) /\
  (forall d s led ring, 0 <= passIndex d < 3 ->
     let d' := after (enterSymbol s led ring) d in
     currentState d' = currentState d /\ passIndex d' = passIndex d + 1) /\
  (forall d s1 s2 s3 s4 l1 r1 l2 r2 l3 r3 l4 r4,
     currentState d = LOCKED -> passIndex d = 0 ->
     length (enteredPasscode d) = Z.to_nat PASS_LENGTH ->
     let d' := after (enterSymbol s1 l1 r1 ;; enterSymbol s2 l2 r2 ;;
                      enterSymbol s3 l3 r3 ;; enterSymbol s4 l4 r4) d in
     currentState d' = MENU <-> [s1; s2; s3; s4] = CORRECT_PASSCODE).
Proof.
  split; [exact checkPasscode_slots|].
  split.
  { intros d L. cbv zeta. rewrite after_showLockedAnimation.
    split; [reflexivity | apply checkPasscode_cleared, L]. }
  split.
  { intros d t St Pi L Q E. cbv zeta.
    destruct (after_loop_quiet t d Q) as (c0 & c1 & c2 & c3 & ->).
    rewrite timedOut_true by assumption.
    split; [reflexivity|]. apply (checkPasscode_cleared (with_lastButtons c0 c1 c2 c3 d)), L. }
  split.
  { intros d s led ring H. cbv zeta. rewrite after_enterSymbol_partial by exact H.
    split; reflexivity. }
  intros d s1 s2 s3 s4 l1 r1 l2 r2 l3 r3 l4 r4 St Pi L.
  apply four_symbols; assumption.
Qed.

(** ** The Memories content *)

Lemma events_forEach_keeps {A} (l : list A) (body : A -> M unit) d :
  (forall x, keeps (body x)) ->
  events (forEach l body) d = flat_map (fun x => events (body x) d) l.
Proof.
  intros K. induction l as [|x l IH]; [reflexivity|].
  simpl forEach. rewrite (events_keeps_bind (body x) _ d (K x)), IH. reflexivity.
Qed.

(** The page indicator depends on the page count and the page cursor only. *)
Lemma events_indicatorIfPaged_ext d d' :
  maxPages d = maxPages d' -> currentPage d = currentPage d' ->
  events indicatorIfPaged d = events indicatorIfPaged d'.
Proof.
  intros Hm Hc. unfold indicatorIfPaged. rewrite !events_gets_bind, <- Hm.
  case_decide; [|reflexivity].
  unfold drawPageIndicator. rewrite !events_gets_bind, <- Hm.
  case_decide; [reflexivity|].
  cbv zeta. unfold for_lt. rewrite !events_forEach_keeps by (intros x; keeps_tac).
  apply flat_map_ext. intros i.
  rewrite !events_gets_bind, <- Hc. case_decide; reflexivity.
Qed.

Lemma events_pageTurnVibration d d' :
  events pageTurnVibration d = events pageTurnVibration d'.
Proof. reflexivity. Qed.

(** A page turn inside the Memories content, for either button. *)
Lemma run_turn_memories at_ page d :
  currentState d = CONTENT -> selectedMenuItem d = 1 ->
  0 <= page < 256 ->
  run (buttonPressVibration ;;
       modify (with_currentPage (u8 page)) ;;
       updatePageContent (selectedMenuItem d)) (with_lastPressTime (u32 at_) d) =
  let d' := with_lastMemoryPage page (with_currentPage page (with_lastPressTime (u32 at_) d)) in
  (tt, d',
   events buttonPressVibration d ++ events pageTurnVibration d
   ++ events (slideAnimation (bool_decide (page > lastMemoryPage d))) d
   ++ events indicatorIfPaged d').
Proof.
  intros St Sel Hp. rewrite run_turn. cbv zeta. rewrite Sel, (u8_small page Hp).
  rewrite after_updatePageContent, events_updatePageContent_memories.
  destruct (decide (1 = 1)) as [_|N]; [|congruence].
  cbn [currentPage lastMemoryPage with_currentPage with_lastPressTime].
  rewrite (events_slideAnimation _ _ d).
  rewrite (events_pageTurnVibration _ d). reflexivity.
Qed.

Lemma memories_next at_ now d :
  memories d -> currentPage d < maxPages d - 1 -> lastButton1 d = HIGH ->
  let d' := with_lastMemoryPage (currentPage d + 1)
              (with_currentPage (currentPage d + 1) (with_lastPressTime (u32 at_) d)) in
  run (loop (pressing Button1 at_ now)) d =
  (tt, onlyLow Button1 d',
   Delay DEBOUNCE :: events buttonPressVibration d ++ events pageTurnVibration d
   ++ events (slideAnimation true) d ++ events indicatorIfPaged d').
Proof.
  intros (St & Sel & Lm & Cp & Le) Hn Hb. cbv zeta.
  assert (R : run (onButton Button1 at_) d =
    (tt, with_lastMemoryPage (currentPage d + 1)
           (with_currentPage (currentPage d + 1) (with_lastPressTime (u32 at_) d)),
     events buttonPressVibration d ++ events pageTurnVibration d
     ++ events (slideAnimation true) d
     ++ events indicatorIfPaged
          (with_lastMemoryPage (currentPage d + 1)
             (with_currentPage (currentPage d + 1) (with_lastPressTime (u32 at_) d))))).
  { cbn [onButton]. rewrite (run_onButton1_content at_ d St).
    destruct (decide (currentPage d < maxPages d - 1)) as [_|N]; [|lia].
    rewrite <- (u8_small (currentPage d + 1)) at 1 by lia.
    rewrite (run_turn_memories at_ (currentPage d + 1) d St Sel) by lia. cbv zeta.
    rewrite Lm. rewrite (bool_decide_eq_true_2 (currentPage d + 1 > currentPage d)) by lia.
    rewrite u8_small by lia. reflexivity. }
  rewrite run_loop_pressing.
  - unfold after, events at 1. rewrite R. reflexivity.
  - exact Hb.
  - unfold after. rewrite R. apply timedOut_unlocked. cbn. rewrite St. discriminate.
Qed.

Lemma memories_prev at_ now d :
  memories d -> currentPage d > 0 -> lastButton0 d = HIGH ->
  let d' := with_lastMemoryPage (currentPage d - 1)
              (with_currentPage (currentPage d - 1) (with_lastPressTime (u32 at_) d)) in
  run (loop (pressing Button0 at_ now)) d =
  (tt, onlyLow Button0 d',
   Delay DEBOUNCE :: events buttonPressVibration d ++ events pageTurnVibration d
   ++ events (slideAnimation false) d ++ events indicatorIfPaged d').
Proof.
  intros (St & Sel & Lm & Cp & Le) Hn Hb. cbv zeta.
  assert (R : run (onButton Button0 at_) d =
    (tt, with_lastMemoryPage (currentPage d - 1)
           (with_currentPage (currentPage d - 1) (with_lastPressTime (u32 at_) d)),
     events buttonPressVibration d ++ events pageTurnVibration d
     ++ events (slideAnimation false) d
     ++ events indicatorIfPaged
          (with_lastMemoryPage (currentPage d - 1)
             (with_currentPage (currentPage d - 1) (with_lastPressTime (u32 at_) d))))).
  { cbn [onButton]. rewrite (run_onButton0_content at_ d St).
    destruct (decide (currentPage d > 0)) as [_|N]; [|lia].
    rewrite <- (u8_small (currentPage d - 1)) at 1 by lia.
    rewrite (run_turn_memories at_ (currentPage d - 1) d St Sel) by lia. cbv zeta.
    rewrite Lm. rewrite (bool_decide_eq_false_2 (currentPage d - 1 > currentPage d)) by lia.
    rewrite u8_small by lia. reflexivity. }
  rewrite run_loop_pressing.
  - unfold after, events at 1. rewrite R. reflexivity.
  - exact Hb.
  - unfold after. rewrite R. apply timedOut_unlocked. cbn. rewrite St. discriminate.
Qed.

(** ** The slide, step by step *)

Lemma stepSize_8 : idiv SCREEN_W 16 = 8.
Proof. reflexivity. Qed.

Lemma events_slideAnimation_steps dir d :
  events (slideAnimation dir) d =
  flat_map (fun i => events (slideStep dir (idiv SCREEN_W 16) i) d) (seqZ 1 16)
  ++ events (drawFullScreenImage pic1) d.
Proof.
  rewrite (silent_events _ _ d (silent_slideAnimation dir)).
  rewrite (silent_events _ _ d (silent_drawFullScreenImage pic1)).
  change (16 + 1 - 1) with 16.
  apply (f_equal (fun l => l ++ _)).
  apply flat_map_ext. intros i.
  symmetry. apply silent_events, silent_slideStep.
Qed.

Lemma events_first_steps dir i d :
  events (for_le 1 i (slideStep dir (idiv SCREEN_W 16))) d =
  flat_map (stepEvents dir 8) (seqZ 1 (i + 1 - 1)).
Proof.
  rewrite stepSize_8. unfold for_le.
  apply silent_events, silent_forEach. intros j. apply silent_slideStep.
Qed.

(** The strip on the panel after the first [i] steps. *)
Lemma paint_first_steps dir i p0 d :
  0 <= i ->
  exists p,
    paint (events (for_le 1 i (slideStep dir (idiv SCREEN_W 16))) d) p0 = Some p /\
    forall x y,
      let offset := i * idiv SCREEN_W 16 in
      pixel p x y =
      if dir then
        if decide (0 <= x < offset /\ 0 <= y < SCREEN_H)
        then pic1 (y * SCREEN_W + (SCREEN_W - offset + x)) else pixel p0 x y
      else
        if decide (SCREEN_W - offset <= x < SCREEN_W /\ 0 <= y < SCREEN_H)
        then pic1 (y * SCREEN_W + (x - (SCREEN_W - offset))) else pixel p0 x y.
Proof.
  intros Hi. rewrite events_first_steps, stepSize_8.
  replace (i + 1 - 1) with (Z.of_nat (Z.to_nat i)) by lia.
  destruct (paint_steps dir (Z.to_nat i) p0) as (p & Hp & Hpix).
  exists p. split; [exact Hp|].
  intros x y. cbv zeta. rewrite Hpix. rewrite Z2Nat.id by lia. reflexivity.
Qed.

(** The panel after the whole animation. *)
Lemma paint_slideAnimation dir p0 d :
  exists p,
    paint (events (slideAnimation dir) d) p0 = Some p /\
    forall x y, 0 <= x < SCREEN_W -> 0 <= y < SCREEN_H ->
                pixel p x y = pic1 (y * SCREEN_W + x).
Proof.
  rewrite (silent_events _ _ d (silent_slideAnimation dir)).
  rewrite stepSize_8. change (16 + 1 - 1) with (Z.of_nat 16).
  rewrite paint_app.
  destruct (paint_steps dir 16 p0) as (p1 & -> & _).
  destruct (paint_fullScreen pic1 p1) as (p & Hp & Hpix).
  exists p. split; [exact Hp|].
  intros x y Hx Hy. rewrite Hpix.
  destruct (decide (0 <= x < SCREEN_W /\ 0 <= y < SCREEN_H)) as [_|N]; [reflexivity|].
  exfalso. apply N. auto.
Qed.

Lemma paint_drawFullScreenImage p0 d :
  exists p,
    paint (events (drawFullScreenImage pic1) d) p0 = Some p /\
    forall x y, 0 <= x < SCREEN_W -> 0 <= y < SCREEN_H ->
                pixel p x y = pic1 (y * SCREEN_W + x).
Proof.
  rewrite (silent_events _ _ d (silent_drawFullScreenImage pic1)).
  destruct (paint_fullScreen pic1 p0) as (p & Hp & Hpix).
  exists p. split; [exact Hp|].
  intros x y Hx Hy. rewrite Hpix.
  destruct (decide (0 <= x < SCREEN_W /\ 0 <= y < SCREEN_H)) as [_|N]; [reflexivity|].
  exfalso. apply N. auto.
Qed.

(** The direction of the slide of a Memories page turn. *)
Lemma memories_turn b at_ now d :
  memories d -> b = Button0 \/ b = Button1 -> lastLevel b d = HIGH ->
  let d' := after (loop (pressing b at_ now)) d in
  currentPage d' <> currentPage d ->
  events (loop (pressing b at_ now)) d =
    Delay DEBOUNCE :: events buttonPressVibration d ++ events pageTurnVibration d
    ++ events (slideAnimation (bool_decide (currentPage d' > currentPage d))) d
    ++ events indicatorIfPaged d'
  /\ memories d'.
Proof.
  intros M Hb Hl. pose proof M as (St & Sel & Lm & Cp & Le). cbv zeta.
  destruct Hb as [-> | ->]; cbn [lastLevel] in Hl.
  - destruct (decide (currentPage d > 0)) as [G|G].
    + unfold after, events at 1.
      rewrite (memories_prev at_ now d M G Hl). cbv zeta. cbn [fst snd].
      intros _. cbn [currentPage onlyLow with_lastButtons with_lastMemoryPage with_currentPage].
      rewrite (bool_decide_eq_false_2 (currentPage d - 1 > currentPage d)) by lia.
      split.
      * match goal with |- _ = _ :: _ ++ _ ++ _ ++ events indicatorIfPaged ?Y =>
          match goal with |- _ :: _ ++ _ ++ _ ++ events indicatorIfPaged ?X = _ =>
            rewrite (events_indicatorIfPaged_ext X Y eq_refl eq_refl)
          end
        end. reflexivity.
      * unfold memories. cbn. repeat split; auto; lia.
    + unfold after. rewrite run_loop_prev_at_first by (auto; lia). cbn. congruence.
  - destruct (decide (currentPage d < maxPages d - 1)) as [G|G].
    + unfold after, events at 1.
      rewrite (memories_next at_ now d M G Hl). cbv zeta. cbn [fst snd].
      intros _. cbn [currentPage onlyLow with_lastButtons with_lastMemoryPage with_currentPage].
      rewrite (bool_decide_eq_true_2 (currentPage d + 1 > currentPage d)) by lia.
      split.
      * match goal with |- _ = _ :: _ ++ _ ++ _ ++ events indicatorIfPaged ?Y =>
          match goal with |- _ :: _ ++ _ ++ _ ++ events indicatorIfPaged ?X = _ =>
            rewrite (events_indicatorIfPaged_ext X Y eq_refl eq_refl)
          end
        end. reflexivity.
      * unfold memories. cbn. repeat split; auto; lia.
    + unfold after. rewrite run_loop_next_at_last by (auto; lia). cbn. congruence.
Qed.

(** ** Where the pixels come from *)

Lemma fromImage_pushes (g : Z -> Z) lo hi :
  (forall x, lo <= x < hi -> 0 <= g x < SCREEN_W * SCREEN_H) ->
  Forall (fromImage pic1) (pushes (fun x => pic1 (g x)) lo hi).
Proof.
  intros H. unfold pushes. apply Forall_fmap, Forall_seqZ.
  intros x Hx. simpl. exists (g x). split; [apply H; lia | reflexivity].
Qed.

Lemma fromImage_stepEvents dir i :
  1 <= i <= 16 -> Forall (fromImage pic1) (stepEvents dir 8 i).
Proof.
  intros Hi. unfold stepEvents.
  apply Forall_app. split; [|repeat constructor].
  apply Forall_app. split; [repeat constructor|].
  apply Forall_flat_map, Forall_seqZ. intros y Hy.
  apply fromImage_pushes. intros x Hx.
  unfold SCREEN_W, SCREEN_H in *. destruct dir; lia.
Qed.

Lemma fromImage_drawFullScreenImage d :
  Forall (fromImage pic1) (events (drawFullScreenImage pic1) d).
Proof.
  rewrite (silent_events _ _ d (silent_drawFullScreenImage pic1)).
  apply Forall_app. split; [repeat constructor|].
  apply Forall_app. split; [repeat constructor|].
  apply Forall_app. split; [|repeat constructor].
  apply (fromImage_pushes (fun x => x)). intros x Hx. lia.
Qed.

Lemma fromImage_strips dir d :
  exists strips,
    events (slideAnimation dir) d = strips ++ events (drawFullScreenImage pic1) d /\
    Forall (fromImage pic1) strips.
Proof.
  exists (flat_map (stepEvents dir 8) (seqZ 1 16)). split.
  - rewrite (silent_events _ _ d (silent_slideAnimation dir)).
    rewrite (silent_events _ _ d (silent_drawFullScreenImage pic1)).
    reflexivity.
  - apply Forall_flat_map, Forall_seqZ. intros i Hi. apply fromImage_stepEvents. lia.
Qed.

(** Entering the Memories content. *)
Lemma run_showContent_memories d :
  let d0 := with_lastMemoryPage 0 (with_currentPage 0 (with_maxPages 3 d)) in
  run (showContent 1) d =
  (tt, d0,
   events (vibrate VIB_MEDIUM) d ++ events (drawFullScreenImage pic1) d
   ++ events indicatorIfPaged d0).
Proof.
  cbv zeta. unfold showContent. cbv iota.
  rewrite (run_eta (_ ≫= _)).
  rewrite !after_modify_bind, !events_modify_bind.
  set (d0 := with_lastMemoryPage 0 _). clearbody d0.
  destruct (decide (1 = 1)) as [_|N]; [|congruence].
  rewrite (after_keeps_bind (vibrate VIB_MEDIUM)) by apply keeps_vibrate.
  rewrite (events_keeps_bind (vibrate VIB_MEDIUM)) by apply keeps_vibrate.
  rewrite (after_keeps_bind (drawFullScreenImage pic1)) by apply keeps_drawFullScreenImage.
  rewrite (events_keeps_bind (drawFullScreenImage pic1)) by apply keeps_drawFullScreenImage.
  rewrite (keeps_indicatorIfPaged d0).
  rewrite (silent_events _ _ d0 (silent_drawFullScreenImage pic1)).
  rewrite (silent_events _ _ d (silent_drawFullScreenImage pic1)).
  destruct (result _ d). reflexivity.
Qed.

(** C7. The slide runs 16 steps and ends with a full-screen transfer of
    the image.  After step i the strip of width i * (SCREEN_W / 16) at the
    leading edge of the screen shows the image columns of the opposite
    edge (forward: screen columns [0, offset) show image columns
    [SCREEN_W - offset, SCREEN_W); backward: screen columns
    [SCREEN_W - offset, SCREEN_W) show image columns [0, offset)) and
    every other pixel is as it was before the slide; after the animation
    the whole screen shows the image.  In the Memories content the slide
    of a page turn is forward exactly when the new page index is greater
    than the old one. *)
Theorem slide_transition :
  (forall dir d,
     events (slideAnimation dir) d =
     flat_map (fun i => events (slideStep dir (idiv SCREEN_W 16) i) d) (seqZ 1 16)
     ++ events (drawFullScreenImage pic1) d) /\
  (forall dir i p0 d, 1 <= i <= 16 ->
     exists p,
       paint (events (for_le 1 i (slideStep dir (idiv SCREEN_W 16))) d) p0 = Some p /\
       forall x y,
         let offset := i * idiv SCREEN_W 16 in
         pixel p x y =
         if dir then
           if decide (0 <= x < offset /\ 0 <= y < SCREEN_H)
           then pic1 (y * SCREEN_W + (SCREEN_W - offset + x)) else pixel p0 x y
         else
           if decide (SCREEN_W - offset <= x < SCREEN_W /\ 0 <= y < SCREEN_H)
           then pic1 (y * SCREEN_W + (x - (SCREEN_W - offset))) else pixel p0 x y) /\
  (forall dir p0 d,
     exists p,
       paint (events (slideAnimation dir) d) p0 = Some p /\
       forall x y, 0 <= x < SCREEN_W -> 0 <= y < SCREEN_H ->
                   pixel p x y = pic1 (y * SCREEN_W + x)) /\
  (forall b at_ now d,
     memories d -> b = Button0 \/ b = Button1 -> lastLevel b d = HIGH ->
     let d' := after (loop (pressing b at_ now)) d in
     currentPage d' <> currentPage d ->
     events (loop (pressing b at_ now)) d =
       Delay DEBOUNCE :: events buttonPressVibration d ++ events pageTurnVibration d
       ++ events (slideAnimation (bool_decide (currentPage d' > currentPage d))) d
       ++ events indicatorIfPaged d'
     /\ memories d').
Proof.
  split; [exact events_slideAnimation_steps|].
  split; [intros dir i p0 d Hi; apply paint_first_steps; lia|].
  split; [exact paint_slideAnimation|].
  intros b at_ now d. apply memories_turn.
Qed.

(** C10. Every page transition inside the Memories content, whatever the
    target page, and the entry into the Memories content draw their pixels
    from the one image table pic1: the strips of the slide and the final
    full-screen transfer read pic1 only, the commands of the slide do not
    depend on the page, and the panel shows pic1 on the whole screen after
    the entry and after every transition.  What follows the image on the
    display is the page indicator alone, so the three pages differ only in
    the indicator dots. *)
Theorem memories_pages_share_image :
  (forall d,
     let d0 := with_lastMemoryPage 0 (with_currentPage 0 (with_maxPages 3 d)) in
     run (showContent 1) d =
     (tt, d0,
      events (vibrate VIB_MEDIUM) d ++ events (drawFullScreenImage pic1) d
      ++ events indicatorIfPaged d0)) /\
  (forall d,
     events (updatePageContent 1) d =
     events pageTurnVibration d
     ++ events (slideAnimation (bool_decide (currentPage d > lastMemoryPage d))) d
     ++ events indicatorIfPaged (with_lastMemoryPage (currentPage d) d)) /\
  (forall dir d d', events (slideAnimation dir) d = events (slideAnimation dir) d') /\
  (forall dir d,
     exists strips,
       events (slideAnimation dir) d = strips ++ events (drawFullScreenImage pic1) d /\
       Forall (fromImage pic1) strips) /\
  (forall d, Forall (fromImage pic1) (events (drawFullScreenImage pic1) d)) /\
  (forall dir p0 d,
     exists p,
       paint (events (slideAnimation dir) d) p0 = Some p /\
       forall x y, 0 <= x < SCREEN_W -> 0 <= y < SCREEN_H ->
                   pixel p x y = pic1 (y * SCREEN_W + x)) /\
  (forall p0 d,
     exists p,
       paint (events (drawFullScreenImage pic1) d) p0 = Some p /\
       forall x y, 0 <= x < SCREEN_W -> 0 <= y < SCREEN_H ->
                   pixel p x y = pic1 (y * SCREEN_W + x)).
Proof.
  split; [exact run_showContent_memories|].
  split; [exact events_updatePageContent_memories|].
  split; [exact events_slideAnimation|].
  split; [exact fromImage_strips|].
  split; [exact fromImage_drawFullScreenImage|].
  split; [exact paint_slideAnimation | exact paint_drawFullScreenImage].
Qed.

(** ** From the menu into the Memories content and back *)

Lemma dispatch_menu {A} d (X Y Z : A) :
  currentState d = MENU ->
  (if acceptingSymbol d then X else if decide (currentState d = MENU) then Y else Z) = Y.
Proof. intros H. unfold acceptingSymbol. rewrite H. reflexivity. Qed.

Lemma dispatch_back {A} d (X Y Z : A) :
  currentState d = CONTENT ->
  (if acceptingSymbol d then X else if decide (currentState d = CONTENT) then Y else Z) = Y.
Proof. intros H. unfold acceptingSymbol. rewrite H. reflexivity. Qed.

Lemma run_onButtonSelect_menu now d :
  currentState d = MENU ->
  run (onButtonSelect now) d =
  run (buttonPressVibration ;;
       showContent (selectedMenuItem d) ;;
       modify (with_currentState CONTENT) ;;
       setRGBLeds (Color 50 50 50)) (with_lastPressTime (u32 now) d).
Proof.
  intros H. unfold onButtonSelect. rewrite run_modify_bind.
  apply run_keeps_bind_ext; [apply keeps_buttonPressVibration|].
  rewrite run_gets_bind. unfold id.
  rewrite dispatch_menu by exact H. reflexivity.
Qed.

Lemma events_setRGBLeds c d d' : events (setRGBLeds c) d = events (setRGBLeds c) d'.
Proof. reflexivity. Qed.

Lemma events_vibrate n d d' : events (vibrate n) d = events (vibrate n) d'.
Proof. reflexivity. Qed.

Lemma events_drawFullScreenImage img d d' :
  events (drawFullScreenImage img) d = events (drawFullScreenImage img) d'.
Proof.
  rewrite (silent_events _ _ d (silent_drawFullScreenImage img)).
  rewrite (silent_events _ _ d' (silent_drawFullScreenImage img)). reflexivity.
Qed.

(** SELECT on the Memories entry of the menu. *)
Lemma run_onButtonSelect_memories now d :
  currentState d = MENU -> selectedMenuItem d = 1 ->
  let d0 := with_lastMemoryPage 0
              (with_currentPage 0 (with_maxPages 3 (with_lastPressTime (u32 now) d))) in
  run (onButtonSelect now) d =
  (tt, with_currentState CONTENT d0,
   events buttonPressVibration d ++ events (vibrate VIB_MEDIUM) d
   ++ events (drawFullScreenImage pic1) d ++ events indicatorIfPaged d0
   ++ events (setRGBLeds (Color 50 50 50)) d).
Proof.
  intros St Sel. cbv zeta. rewrite (run_onButtonSelect_menu now d St), Sel.
  set (d1 := with_lastPressTime (u32 now) d).
  rewrite (run_eta (_ ;; _)).
  rewrite (after_keeps_bind buttonPressVibration) by apply keeps_buttonPressVibration.
  rewrite (events_keeps_bind buttonPressVibration) by apply keeps_buttonPressVibration.
  rewrite after_bind, events_bind.
  unfold after at 2 3, events at 2. rewrite (run_showContent_memories d1). cbv zeta.
  cbn [fst snd].
  set (d0 := with_lastMemoryPage 0 _).
  rewrite after_modify_bind, events_modify_bind.
  rewrite (keeps_setRGBLeds _ (with_currentState CONTENT d0)).
  rewrite (events_vibrate VIB_MEDIUM d1 d).
  rewrite (events_drawFullScreenImage pic1 d1 d).
  rewrite (events_setRGBLeds _ (with_currentState CONTENT d0) d).
  rewrite <- !app_assoc.
  destruct (result _ d1). reflexivity.
Qed.

(** BACK in the Content state. *)
Lemma after_onButtonBack_content now d :
  currentState d = CONTENT ->
  after (onButtonBack now) d = with_currentState MENU (with_lastPressTime (u32 now) d).
Proof.
  intros H. unfold onButtonBack. rewrite after_modify_bind.
  step_keeps. rewrite after_gets_bind. unfold id.
  rewrite dispatch_back by exact H.
  step_keeps. reflexivity.
Qed.

Lemma no_title_iff (f : Event -> bool) l :
  Forall (fun e => f e = false) l <-> existsb f l = false.
Proof.
  induction l as [|x l IH]; simpl.
  - split; [reflexivity | constructor].
  - rewrite Forall_cons, IH. destruct (f x); simpl; intuition congruence.
Qed.

Lemma no_title_indicatorIfPaged d :
  Forall (fun e => titleBarCommand e = false) (events indicatorIfPaged d).
Proof.
  unfold indicatorIfPaged. rewrite events_gets_bind.
  case_decide; [|constructor].
  unfold drawPageIndicator. rewrite events_gets_bind.
  case_decide; [constructor|].
  cbv zeta. unfold for_lt. rewrite events_forEach_keeps by (intros x; keeps_tac).
  apply Forall_flat_map, Forall_forall. intros i _.
  rewrite events_gets_bind. case_decide; repeat constructor.
Qed.

Lemma no_title_drawFullScreenImage img d :
  Forall (fun e => titleBarCommand e = false) (events (drawFullScreenImage img) d).
Proof.
  rewrite (silent_events _ _ d (silent_drawFullScreenImage img)).
  apply Forall_app. split; [repeat constructor|].
  apply Forall_app. split; [repeat constructor|].
  apply Forall_app. split; [|repeat constructor].
  unfold pushes. apply Forall_fmap, Forall_forall. intros x _. reflexivity.
Qed.

(** Of the four catalog entries only entry 1 is shown without the
    title-bar layout. *)
Lemma title_bar_bypass idx d :
  0 <= idx < 4 ->
  Forall (fun e => titleBarCommand e = false) (events (showContent idx) d) <-> idx = 1.
Proof.
  intros H. destruct (sel_cases idx H) as [-> | [-> | [-> | ->]]].
  - rewrite no_title_iff. split; [|discriminate].
    assert (E : existsb titleBarCommand (events (showContent 0) d) = true)
      by (vm_compute; reflexivity).
    rewrite E. discriminate.
  - split; [reflexivity | intros _].
    unfold events. rewrite run_showContent_memories. cbv zeta. cbn [snd].
    apply Forall_app. split; [repeat constructor|].
    apply Forall_app. split; [apply no_title_drawFullScreenImage | apply no_title_indicatorIfPaged].
  - rewrite no_title_iff. split; [|discriminate].
    assert (E : existsb titleBarCommand (events (showContent 2) d) = true)
      by (vm_compute; reflexivity).
    rewrite E. discriminate.
  - rewrite no_title_iff. split; [|discriminate].
    assert (E : existsb titleBarCommand (events (showContent 3) d) = true)
      by (vm_compute; reflexivity).
    rewrite E. discriminate.
Qed.

(** A click outside the Locked state: the handler runs once and all four
    lines are recorded HIGH. *)
Lemma after_click_unlocked b at_ now later d :
  lastLevel b d = HIGH ->
  currentState (after (onButton b at_) d) <> LOCKED ->
  after (passes (click b at_ now later)) d =
  with_lastButtons HIGH HIGH HIGH HIGH (after (onButton b at_) d).
Proof.
  intros Hb Hs. unfold click. rewrite !after_passes_cons.
  assert (E1 : after (loop (pressing b at_ now)) d = onlyLow b (after (onButton b at_) d)).
  { unfold after at 1. rewrite run_loop_pressing;
      [reflexivity | exact Hb | apply timedOut_unlocked; exact Hs]. }
  rewrite E1.
  assert (E2 : after (loop (released later)) (onlyLow b (after (onButton b at_) d)) =
               with_lastButtons HIGH HIGH HIGH HIGH (onlyLow b (after (onButton b at_) d))).
  { unfold after at 1. rewrite run_loop_released;
      [reflexivity | apply timedOut_unlocked; exact Hs]. }
  rewrite E2. reflexivity.
Qed.

Lemma after_onButton1_memories at_ d :
  memories d -> currentPage d < maxPages d - 1 ->
  after (onButton Button1 at_) d =
  with_lastMemoryPage (currentPage d + 1)
    (with_currentPage (currentPage d + 1) (with_lastPressTime (u32 at_) d)).
Proof.
  intros (St & Sel & Lm & Cp & Le) Hn. cbn [onButton].
  rewrite after_onButton1_content by exact St. cbv zeta.
  destruct (decide (currentPage d < maxPages d - 1)) as [_|N]; [|lia].
  destruct (decide (selectedMenuItem d = 1)) as [_|N]; [|congruence].
  cbn [currentPage with_currentPage]. rewrite u8_small by lia. reflexivity.
Qed.

(** C8. From the menu with the Memories entry selected: SELECT enters the
    Content state at page 0 of 3, transfers the image to the whole screen
    and issues no command of the title-bar layout (of the four catalog
    entries, entry 1 alone is shown without it); two clicks of "next"
    reach page 1 and then page 2, each with a forward slide; BACK returns
    to the menu with the selection still 1. *)
Theorem memories_end_to_end (d : Dev) (a1 n1 l1 a2 n2 l2 a3 n3 l3 a4 n4 : Z) :
  currentState d = MENU -> selectedMenuItem d = 1 -> lastButtonSelect d = HIGH ->
  let d1 := after (passes (click ButtonSelect a1 n1 l1)) d in
  let d2 := after (passes (click Button1 a2 n2 l2)) d1 in
  let d3 := after (passes (click Button1 a3 n3 l3)) d2 in
  let d4 := after (loop (pressing ButtonBack a4 n4)) d3 in
  (currentState d1 = CONTENT /\ selectedMenuItem d1 = 1 /\
   currentPage d1 = 0 /\ maxPages d1 = 3) /\
  events (loop (pressing ButtonSelect a1 n1)) d =
    Delay DEBOUNCE :: events buttonPressVibration d ++ events (vibrate VIB_MEDIUM) d
    ++ events (drawFullScreenImage pic1) d ++ events indicatorIfPaged d1
    ++ events (setRGBLeds (Color 50 50 50)) d /\
  Forall (fun e => titleBarCommand e = false) (events (loop (pressing ButtonSelect a1 n1)) d) /\
  (forall idx d, 0 <= idx < 4 ->
     Forall (fun e => titleBarCommand e = false) (events (showContent idx) d) <-> idx = 1) /\
  (currentState d2 = CONTENT /\ currentPage d2 = 1 /\
   events (loop (pressing Button1 a2 n2)) d1 =
     Delay DEBOUNCE :: events buttonPressVibration d1 ++ events pageTurnVibration d1
     ++ events (slideAnimation true) d1 ++ events indicatorIfPaged d2) /\
  (currentState d3 = CONTENT /\ currentPage d3 = 2 /\
   events (loop (pressing Button1 a3 n3)) d2 =
     Delay DEBOUNCE :: events buttonPressVibration d2 ++ events pageTurnVibration d2
     ++ events (slideAnimation true) d2 ++ events indicatorIfPaged d3) /\
  (currentState d4 = MENU /\ selectedMenuItem d4 = 1).
Proof.
  intros St Sel Hb.
  pose proof (run_onButtonSelect_memories a1 d St Sel) as R. cbv zeta in R.
  set (d0 := with_lastMemoryPage 0 _) in R.
  assert (A0 : after (onButton ButtonSelect a1) d = with_currentState CONTENT d0)
    by (unfold after; cbn [onButton]; rewrite R; reflexivity).
  assert (E1 : after (passes (click ButtonSelect a1 n1 l1)) d =
               with_lastButtons HIGH HIGH HIGH HIGH (with_currentState CONTENT d0)).
  { rewrite after_click_unlocked; [rewrite A0; reflexivity | exact Hb |].
    rewrite A0. discriminate. }
  intros d1. subst d1. rewrite E1.
  set (d1 := with_lastButtons HIGH HIGH HIGH HIGH (with_currentState CONTENT d0)).
  assert (M1 : memories d1).
  { subst d1 d0. unfold memories. cbn. repeat split; auto; lia. }
  assert (A1 : after (onButton Button1 a2) d1 =
               with_lastMemoryPage 1 (with_currentPage 1 (with_lastPressTime (u32 a2) d1)))
    by (rewrite (after_onButton1_memories a2 d1 M1); [reflexivity | cbn; lia]).
  assert (E2 : after (passes (click Button1 a2 n2 l2)) d1 =
               with_lastButtons HIGH HIGH HIGH HIGH
                 (with_lastMemoryPage 1 (with_currentPage 1 (with_lastPressTime (u32 a2) d1)))).
  { rewrite after_click_unlocked; [rewrite A1; reflexivity | reflexivity |].
    rewrite A1. discriminate. }
  intros d2. subst d2. rewrite E2.
  set (d2 := with_lastButtons HIGH HIGH HIGH HIGH
               (with_lastMemoryPage 1 (with_currentPage 1 (with_lastPressTime (u32 a2) d1)))).
  assert (M2 : memories d2).
  { subst d2 d1 d0. unfold memories. cbn. repeat split; auto; lia. }
  assert (A2 : after (onButton Button1 a3) d2 =
               with_lastMemoryPage 2 (with_currentPage 2 (with_lastPressTime (u32 a3) d2)))
    by (rewrite (after_onButton1_memories a3 d2 M2); [reflexivity | cbn; lia]).
  assert (E3 : after (passes (click Button1 a3 n3 l3)) d2 =
               with_lastButtons HIGH HIGH HIGH HIGH
                 (with_lastMemoryPage 2 (with_currentPage 2 (with_lastPressTime (u32 a3) d2)))).
  { rewrite after_click_unlocked; [rewrite A2; reflexivity | reflexivity |].
    rewrite A2. discriminate. }
  intros d3. subst d3. rewrite E3.
  set (d3 := with_lastButtons HIGH HIGH HIGH HIGH
               (with_lastMemoryPage 2 (with_currentPage 2 (with_lastPressTime (u32 a3) d2)))).
  assert (A3 : after (onButton ButtonBack a4) d3 =
               with_currentState MENU (with_lastPressTime (u32 a4) d3))
    by (cbn [onButton]; apply after_onButtonBack_content; reflexivity).
  assert (E4 : after (loop (pressing ButtonBack a4 n4)) d3 =
               onlyLow ButtonBack (with_currentState MENU (with_lastPressTime (u32 a4) d3))).
  { unfold after at 1. rewrite run_loop_pressing;
      [rewrite A3; reflexivity | reflexivity |].
    rewrite A3. apply timedOut_unlocked. discriminate. }
  intros d4. subst d4. rewrite E4.
  assert (V1 : events (loop (pressing ButtonSelect a1 n1)) d =
    Delay DEBOUNCE :: events buttonPressVibration d ++ events (vibrate VIB_MEDIUM) d
    ++ events (drawFullScreenImage pic1) d ++ events indicatorIfPaged d1
    ++ events (setRGBLeds (Color 50 50 50)) d).
  { unfold events at 1. rewrite run_loop_pressing;
      [| exact Hb | rewrite A0; apply timedOut_unlocked; discriminate].
    cbn [snd]. unfold events at 1. cbn [onButton]. rewrite R. cbn [snd].
    rewrite (events_indicatorIfPaged_ext d0 d1 eq_refl eq_refl). reflexivity. }
  split; [subst d1 d0; cbn; auto|].
  split; [exact V1|].
  split.
  { rewrite V1. constructor; [reflexivity|].
    apply Forall_app. split; [repeat constructor|].
    apply Forall_app. split; [repeat constructor|].
    apply Forall_app. split; [apply no_title_drawFullScreenImage|].
    apply Forall_app. split; [apply no_title_indicatorIfPaged | repeat constructor]. }
  split; [exact title_bar_bypass|].
  split.
  { split; [reflexivity|]. split; [reflexivity|].
    unfold events at 1. rewrite (memories_next a2 n2 d1 M1); [|cbn; lia | reflexivity].
    cbv zeta. cbn [snd].
    match goal with |- _ :: _ ++ _ ++ _ ++ events indicatorIfPaged ?X = _ =>
      rewrite (events_indicatorIfPaged_ext X d2 eq_refl eq_refl) end.
    reflexivity. }
  split.
  { split; [reflexivity|]. split; [reflexivity|].
    unfold events at 1. rewrite (memories_next a3 n3 d2 M2); [|cbn; lia | reflexivity].
    cbv zeta. cbn [snd].
    match goal with |- _ :: _ ++ _ ++ _ ++ events indicatorIfPaged ?X = _ =>
      rewrite (events_indicatorIfPaged_ext X d3 eq_refl eq_refl) end.
    reflexivity. }
  split; [reflexivity|]. subst d3 d2 d1 d0. cbn. exact Sel.
Qed.

Lemma after_showContent idx d :
  0 <= idx < 4 ->
  after (showContent idx) d =
  with_lastMemoryPage 0 (with_currentPage 0 (with_maxPages ([6; 3; 2; 1] !!! Z.to_nat idx) d)).
Proof.
  intros H. destruct (sel_cases idx H) as [-> | [-> | [-> | ->]]].
  - reflexivity.
  - unfold after. rewrite run_showContent_memories. reflexivity.
  - reflexivity.
  - reflexivity.
Qed.

(** SELECT in the menu opens the selected entry at its first page. *)
Lemma after_select_menu at_ now d :
  currentState d = MENU -> 0 <= selectedMenuItem d < 4 -> lastButtonSelect d = HIGH ->
  after (loop (pressing ButtonSelect at_ now)) d =
  onlyLow ButtonSelect
    (with_currentState CONTENT
       (with_lastMemoryPage 0
          (with_currentPage 0
             (with_maxPages ([6; 3; 2; 1] !!! Z.to_nat (selectedMenuItem d))
                (with_lastPressTime (u32 at_) d))))).
Proof.
  intros St Sel Hb.
  assert (A : after (onButton ButtonSelect at_) d =
              with_currentState CONTENT
                (with_lastMemoryPage 0
                   (with_currentPage 0
                      (with_maxPages ([6; 3; 2; 1] !!! Z.to_nat (selectedMenuItem d))
                         (with_lastPressTime (u32 at_) d))))).
  { unfold after at 1. cbn [onButton]. rewrite (run_onButtonSelect_menu at_ d St).
    change (after (buttonPressVibration ;; showContent (selectedMenuItem d) ;;
                   modify (with_currentState CONTENT) ;; setRGBLeds (Color 50 50 50))
                  (with_lastPressTime (u32 at_) d) = 
            with_currentState CONTENT
                (with_lastMemoryPage 0
                   (with_currentPage 0
                      (with_maxPages ([6; 3; 2; 1] !!! Z.to_nat (selectedMenuItem d))
                         (with_lastPressTime (u32 at_) d))))).
    step_keeps. rewrite after_bind.
    rewrite (after_showContent _ _ Sel).
    rewrite after_modify_bind. apply keeps_setRGBLeds. }
  unfold after at 1. rewrite run_loop_pressing;
    [rewrite A; reflexivity | exact Hb |].
  rewrite A. apply timedOut_unlocked. discriminate.
Qed.

(** C3. SELECT in the menu opens the selected catalog entry in the
    Content state at page 0, with maxPages the page count of the entry
    (6, 3, 2, 1).  From the Content state with the page cursor in
    [0, maxPages), for every sequence of passes whose only inputs are
    "previous" and "next" (neither SELECT nor BACK is pressed): the state
    stays Content, maxPages does not change and the cursor stays in
    [0, maxPages); a "previous" at page 0, or a "next" at the last page,
    leaves the cursor where it is and sends no command to the display. *)
Theorem page_cursor_in_range :
  (forall d at_ now,
     currentState d = MENU -> 0 <= selectedMenuItem d < 4 -> lastButtonSelect d = HIGH ->
     let d' := after (loop (pressing ButtonSelect at_ now)) d in
     currentState d' = CONTENT /\ currentPage d' = 0 /\
     maxPages d' = [6; 3; 2; 1] !!! Z.to_nat (selectedMenuItem d) /\
     0 <= currentPage d' < maxPages d' /\ maxPages d' <= 255) /\
  (forall d ticks,
     currentState d = CONTENT ->
     0 <= currentPage d < maxPages d -> maxPages d <= 255 ->
     Forall pagingOnly ticks ->
     let d' := after (passes ticks) d in
     currentState d' = CONTENT /\ maxPages d' = maxPages d /\
     0 <= currentPage d' < maxPages d) /\
  (forall d at_ now,
     currentState d = CONTENT -> currentPage d = 0 ->
     let t := pressing Button0 at_ now in
     currentPage (after (loop t) d) = currentPage d /\
     Forall (fun e => touchesDisplay e = false) (events (loop t) d)) /\
  (forall d at_ now,
     currentState d = CONTENT -> currentPage d = maxPages d - 1 ->
     let t := pressing Button1 at_ now in
     currentPage (after (loop t) d) = currentPage d /\
     Forall (fun e => touchesDisplay e = false) (events (loop t) d)).
Proof.
  split; [|split; [|split]].
  - intros d at_ now St Sel Hb. cbv zeta.
    rewrite (after_select_menu at_ now d St Sel Hb).
    cbn [currentState currentPage maxPages onlyLow with_lastButtons with_currentState
         with_lastMemoryPage with_currentPage with_maxPages].
    destruct (sel_cases _ Sel) as [-> | [-> | [-> | ->]]]; repeat split; try reflexivity;
      simpl; lia.
  - intros d ticks St Cp Le Ht.
    destruct (paging_passes (maxPages d) ticks d Ht) as (S' & M' & C' & _).
    + repeat split; auto; lia.
    + cbv zeta. rewrite M' in *. auto.
  - intros d at_ now St C0 t. subst t. unfold after, events.
    destruct (lastButton0 d) eqn:Hb.
    + rewrite run_loop_prev_at_first by (auto; lia). cbn [fst snd].
      split; [reflexivity|]. rewrite events_buttonPressVibration.
      repeat constructor.
    + rewrite run_loop_held; [| exact Hb | apply timedOut_unlocked; rewrite St; discriminate].
      cbn [fst snd]. split; [reflexivity | constructor].
  - intros d at_ now St C0 t. subst t. unfold after, events.
    destruct (lastButton1 d) eqn:Hb.
    + rewrite run_loop_next_at_last by (auto; lia). cbn [fst snd].
      split; [reflexivity|]. rewrite events_buttonPressVibration.
      repeat constructor.
    + rewrite run_loop_held; [| exact Hb | apply timedOut_unlocked; rewrite St; discriminate].
      cbn [fst snd]. split; [reflexivity | constructor].
Qed.


(** * Further properties *)

(** ** The globals after a pass, as a function *)

Lemma keeps_menuAmbient : keeps menuAmbient.
Proof. unfold menuAmbient. keeps_tac. Qed.

Lemma keeps_menuNavigationVibration : keeps menuNavigationVibration.
Proof. apply keeps_vibrate. Qed.

Lemma keeps_drawTitleBar idx : keeps (drawTitleBar idx).
Proof. unfold drawTitleBar. keeps_tac. Qed.

#[local] Hint Resolve keeps_menuAmbient keeps_menuNavigationVibration keeps_drawTitleBar : keeps.

Lemma after_showContent_any idx d : after (showContent idx) d = opened idx d.
Proof.
  unfold showContent, opened.
  rewrite after_bind.
  set (d1 := after (match idx with 0 => _ | _ => _ end) d).
  assert (E : d1 = match idx with
                   | 0 => with_maxPages 6 d | 1 => with_maxPages 3 d
                   | 2 => with_maxPages 2 d | 3 => with_maxPages 1 d | _ => d end).
  { subst d1. destruct idx as [|[[|[]|]|[|[]|]|]|]; reflexivity. }
  rewrite <- E. clearbody d1.
  rewrite !after_modify_bind.
  step_keeps.
  case_decide.
  - rewrite (after_keeps_bind _ _ _ (keeps_drawFullScreenImage pic1)). apply keeps_indicatorIfPaged.
  - rewrite (after_keeps_bind _ _ _ (keeps_drawTitleBar idx)). rewrite after_gets_bind.
    assert (K : keeps (if decide (idx = 0 \/ idx = 2)
                       then match idx with
                            | 0 => render (LetterContent (currentPage (with_lastMemoryPage 0 (with_currentPage 0 d1))))
                            | 2 => render (QuoteContent (currentPage (with_lastMemoryPage 0 (with_currentPage 0 d1))))
                            | _ => skip
                            end
                       else if decide (idx = 3)
                            then render (AboutContent (currentPage (with_lastMemoryPage 0 (with_currentPage 0 d1))))
                            else skip)).
    { repeat case_decide; keeps_tac. }
    rewrite (after_keeps_bind _ _ _ K). apply keeps_indicatorIfPaged.
Qed.

Lemma after_enterSymbol_entered s led ring d :
  after (enterSymbol s led ring) d = entered s d.
Proof. apply after_enterSymbol. Qed.

Lemma after_updatePageContent_turned page d :
  after (updatePageContent (selectedMenuItem d)) (with_currentPage page d) = turned page d.
Proof.
  rewrite after_updatePageContent. unfold turned. cbv zeta.
  cbn [selectedMenuItem with_currentPage currentPage]. reflexivity.
Qed.

Lemma acceptingSymbol_pressTime now d :
  acceptingSymbol (with_lastPressTime now d) = acceptingSymbol d.
Proof. reflexivity. Qed.

(** Each handler and its effect on the globals. *)
Lemma after_onButton0 now d : after (onButton0 now) d = pressed Button0 now d.
Proof.
  unfold onButton0, pressed. rewrite after_modify_bind. step_keeps.
  rewrite after_gets_bind. unfold id. rewrite acceptingSymbol_pressTime. cbv zeta.
  set (d1 := with_lastPressTime (u32 now) d).
  destruct (acceptingSymbol d); [apply after_enterSymbol|].
  change (currentState d1) with (currentState d).
  change (selectedMenuItem d1) with (selectedMenuItem d).
  change (currentPage d1) with (currentPage d).
  destruct (currentState d); try reflexivity.
  - cbn [decide_rel State_eq_dec decide]. rewrite decide_True by reflexivity.
    rewrite after_modify_bind.
    do 3 step_keeps. rewrite after_gets_bind. apply keeps_drawMenuItem.
  - rewrite decide_False by discriminate. rewrite decide_True by reflexivity.
    case_decide; [|reflexivity].
    rewrite after_modify_bind.
    apply (after_updatePageContent_turned _ d1).
Qed.

Lemma after_onButton1 now d : after (onButton1 now) d = pressed Button1 now d.
Proof.
  unfold onButton1, pressed. rewrite after_modify_bind. step_keeps.
  rewrite after_gets_bind. unfold id. rewrite acceptingSymbol_pressTime. cbv zeta.
  set (d1 := with_lastPressTime (u32 now) d).
  destruct (acceptingSymbol d); [apply after_enterSymbol|].
  change (currentState d1) with (currentState d).
  change (selectedMenuItem d1) with (selectedMenuItem d).
  change (currentPage d1) with (currentPage d).
  change (maxPages d1) with (maxPages d).
  destruct (currentState d); try reflexivity.
  - rewrite decide_True by reflexivity.
    rewrite after_modify_bind.
    do 3 step_keeps. rewrite after_gets_bind. apply keeps_drawMenuItem.
  - rewrite decide_False by discriminate. rewrite decide_True by reflexivity.
    case_decide; [|reflexivity].
    rewrite after_modify_bind.
    apply (after_updatePageContent_turned _ d1).
Qed.

Lemma after_onButtonSelect now d : after (onButtonSelect now) d = pressed ButtonSelect now d.
Proof.
  unfold onButtonSelect, pressed. rewrite after_modify_bind. step_keeps.
  rewrite after_gets_bind. unfold id. rewrite acceptingSymbol_pressTime. cbv zeta.
  set (d1 := with_lastPressTime (u32 now) d).
  destruct (acceptingSymbol d); [apply after_enterSymbol|].
  change (currentState d1) with (currentState d).
  change (selectedMenuItem d1) with (selectedMenuItem d).
  destruct (currentState d); try reflexivity.
  rewrite decide_True by reflexivity.
  rewrite after_bind, after_showContent_any.
  rewrite after_modify_bind. apply keeps_setRGBLeds.
Qed.

Lemma after_onButtonBack now d : after (onButtonBack now) d = pressed ButtonBack now d.
Proof.
  unfold onButtonBack, pressed. rewrite after_modify_bind. step_keeps.
  rewrite after_gets_bind. unfold id. rewrite acceptingSymbol_pressTime. cbv zeta.
  set (d1 := with_lastPressTime (u32 now) d).
  destruct (acceptingSymbol d); [apply after_enterSymbol|].
  change (currentState d1) with (currentState d).
  destruct (currentState d); try reflexivity.
  rewrite decide_True by reflexivity.
  step_keeps. reflexivity.
Qed.

Lemma after_onButton b now d : after (onButton b now) d = pressed b now d.
Proof.
  destruct b; [apply after_onButton0 | apply after_onButton1
              | apply after_onButtonSelect | apply after_onButtonBack].
Qed.

(** No handler touches the levels recorded for the lines. *)
Lemma lastLevel_cleared b d : lastLevel b (cleared d) = lastLevel b d.
Proof. destruct b; reflexivity. Qed.

Lemma lastLevel_entered b s d : lastLevel b (entered s d) = lastLevel b d.
Proof.
  unfold entered. cbv zeta. case_decide; [|destruct b; reflexivity].
  destruct (result checkPasscode _); [destruct b; reflexivity|].
  rewrite lastLevel_cleared. destruct b; reflexivity.
Qed.

Lemma lastLevel_pressed b b' now d : lastLevel b (pressed b' now d) = lastLevel b d.
Proof.
  unfold pressed. cbv zeta.
  destruct (acceptingSymbol d).
  { rewrite lastLevel_entered. destruct b; reflexivity. }
  unfold turned, opened.
  destruct (currentState d), b'; repeat case_decide; try (destruct b; reflexivity).
  destruct (selectedMenuItem d) as [|[[|[]|]|[|[]|]|]|]; destruct b; reflexivity.
Qed.

(** One line of [handleButtons], whatever the line does. *)
Lemma run_debounced t b last body d :
  run (debounced t b last body) d =
  (if sampled t b then HIGH else if last d then settled t b else LOW,
   if negb (sampled t b) && last d && negb (settled t b) then after body d else d,
   if negb (sampled t b) && last d
   then Delay DEBOUNCE :: (if settled t b then [] else events body d) else []).
Proof.
  destruct (sampled t b) eqn:Hs.
  - apply debounced_idle, Hs.
  - destruct (last d) eqn:Hl.
    + destruct (settled t b) eqn:Hq.
      * apply debounced_bounce; assumption.
      * apply debounced_pressed; assumption.
    + rewrite debounced_held by exact Hl. rewrite Hs. reflexivity.
Qed.

Lemma press_level (c : bool) b b' now d :
  lastLevel b (if c then pressed b' now d else d) = lastLevel b d.
Proof. destruct c; [apply lastLevel_pressed | reflexivity]. Qed.

Lemma after_handleButtons t d : after (handleButtons t) d = handled t d.
Proof.
  unfold after, handleButtons.
  erewrite run_bind; [|apply run_debounced].
  erewrite run_bind; [|apply run_debounced].
  erewrite run_bind; [|apply run_debounced].
  erewrite run_bind; [|apply run_debounced].
  cbn [fst snd].
  rewrite after_onButton0.
  set (d1 := if _ && _ && _ then pressed Button0 _ d else d).
  rewrite after_onButton1.
  assert (L1 : lastButton1 d1 = lastButton1 d) by apply (press_level _ Button1).
  rewrite !L1.
  set (d2 := if _ && _ && _ then pressed Button1 _ d1 else d1).
  rewrite after_onButtonSelect.
  assert (L2 : lastButtonSelect d2 = lastButtonSelect d).
  { subst d2. rewrite (press_level _ ButtonSelect). apply (press_level _ ButtonSelect). }
  rewrite !L2.
  set (d3 := if _ && _ && _ then pressed ButtonSelect _ d2 else d2).
  rewrite after_onButtonBack.
  assert (L3 : lastButtonBack d3 = lastButtonBack d).
  { subst d3. rewrite (press_level _ ButtonBack). subst d2.
    rewrite (press_level _ ButtonBack). apply (press_level _ ButtonBack). }
  rewrite !L3.
  reflexivity.
Qed.

Lemma after_loop_passed t d : after (loop t) d = passed t d.
Proof. rewrite after_loop, after_handleButtons. reflexivity. Qed.

(** ** The shape of the globals is kept by every pass *)

Lemma symbolOf_range b : 0 <= symbolOf b <= 3.
Proof. destruct b; simpl; lia. Qed.

Lemma pagesOf_range sel : 0 <= sel < 4 -> 1 <= pagesOf sel <= 6.
Proof.
  intros H. destruct (sel_cases sel H) as [-> | [-> | [-> | ->]]]; unfold pagesOf; simpl; lia.
Qed.

Lemma wellFormed_cleared d :
  length (enteredPasscode d) = Z.to_nat PASS_LENGTH -> 0 <= selectedMenuItem d < 4 ->
  currentState d = LOCKED -> wellFormed (cleared d).
Proof.
  intros L Sel St. unfold wellFormed.
  rewrite (cleared_slots d L).
  change (currentState (cleared d)) with (currentState d). rewrite St.
  split; [reflexivity|]. split; [repeat constructor; lia|].
  split; [exact Sel|]. simpl. unfold PASS_LENGTH. lia.
Qed.

Lemma wellFormed_entered s d :
  0 <= s <= 3 -> wellFormed d -> currentState d = LOCKED -> wellFormed (entered s d).
Proof.
  intros Hs (L & F & Sel & H) St. rewrite St in H.
  unfold entered. cbv zeta.
  set (slots := <[Z.to_nat (passIndex d) := s]> (enteredPasscode d)).
  assert (L' : length slots = Z.to_nat PASS_LENGTH)
    by (subst slots; rewrite length_insert; exact L).
  assert (F' : Forall (fun s => 0 <= s <= 3) slots)
    by (subst slots; apply Forall_insert; assumption).
  unfold PASS_LENGTH in H.
  cbn [passIndex with_passIndex]. rewrite u8_small by lia.
  set (d1 := with_passIndex _ _).
  case_decide as G.
  - destruct (result checkPasscode d1) eqn:C.
    + apply (checkPasscode_reference d1 L') in C.
      unfold wellFormed. cbn. cbn in C. fold slots. rewrite C.
      repeat split; try lia; try (repeat constructor; lia).
      unfold PASS_LENGTH in *. lia.
    + apply wellFormed_cleared; [exact L' | exact Sel | exact St].
  - unfold wellFormed. cbn. fold slots. rewrite St.
    repeat split; try assumption; try lia.
Qed.

Lemma wellFormed_pressed b now d : wellFormed d -> wellFormed (pressed b now d).
Proof.
  intros W. pose proof W as (L & F & Sel & H).
  unfold pressed. cbv zeta.
  destruct (currentState d) eqn:St; try contradiction.
  - rewrite dispatch_locked by (auto; lia).
    apply wellFormed_entered; [apply symbolOf_range | | exact St].
    unfold wellFormed. cbn. rewrite St. auto.
  - unfold acceptingSymbol. rewrite St. cbn [bool_decide decide_rel State_eq_dec andb].
    rewrite bool_decide_eq_false_2 by discriminate. cbn [andb].
    destruct H as (Pi & E).
    destruct b.
    + unfold wellFormed. cbn. rewrite St.
      repeat split; try assumption; case_decide; rewrite ?u8_small by lia; lia.
    + unfold wellFormed. cbn. rewrite St.
      assert (R : 0 <= irem (selectedMenuItem d + 1) 4 < 4).
      { unfold irem. rewrite Z.rem_mod_nonneg by lia. apply Z.mod_pos_bound. lia. }
      rewrite u8_small by lia.
      repeat split; try assumption; lia.
    + pose proof (pagesOf_range _ Sel) as R.
      unfold wellFormed, opened, pagesOf in *.
      destruct (sel_cases _ Sel) as [S | [S | [S | S]]]; rewrite S in *; cbn; rewrite S;
        repeat split; try assumption; try lia; reflexivity.
    + unfold wellFormed. cbn. rewrite St. auto.
  - unfold acceptingSymbol. rewrite St. cbn [bool_decide decide_rel State_eq_dec andb].
    rewrite bool_decide_eq_false_2 by discriminate. cbn [andb].
    destruct H as (Pi & E & Mp & Cp & Lm).
    pose proof (pagesOf_range _ Sel) as R. rewrite <- Mp in R.
    destruct b.
    + case_decide; [|unfold wellFormed; cbn; rewrite St; auto 10].
      unfold turned, wellFormed. cbn. rewrite u8_small by lia.
      case_decide; cbn; rewrite St; repeat split; try assumption; try lia.
    + case_decide; [|unfold wellFormed; cbn; rewrite St; auto 10].
      unfold turned, wellFormed. cbn. rewrite u8_small by lia.
      case_decide; cbn; rewrite St; repeat split; try assumption; try lia.
    + unfold wellFormed; cbn; rewrite St; auto 10.
    + unfold wellFormed; cbn. auto.
Qed.

Lemma wellFormed_levels c0 c1 c2 c3 d :
  wellFormed d -> wellFormed (with_lastButtons c0 c1 c2 c3 d).
Proof. intros W. exact W. Qed.

Lemma wellFormed_handled t d : wellFormed d -> wellFormed (handled t d).
Proof.
  intros W. unfold handled. cbv zeta. apply wellFormed_levels.
  repeat match goal with
         | |- wellFormed (if ?c then pressed _ _ _ else _) =>
             destruct c; [apply wellFormed_pressed|]
         end; exact W.
Qed.

Lemma wellFormed_passed t d : wellFormed d -> wellFormed (passed t d).
Proof.
  intros W. unfold passed. cbv zeta.
  pose proof (wellFormed_handled t d W) as W1.
  destruct (timedOut (loopAt t) (handled t d)) eqn:T; [|exact W1].
  destruct W1 as (L & F & Sel & H).
  apply wellFormed_cleared; [exact L | exact Sel |].
  unfold timedOut in T.
  destruct (bool_decide (currentState (handled t d) = LOCKED)) eqn:B; [|discriminate T].
  apply bool_decide_eq_true_1 in B. exact B.
Qed.

(** X1.  The globals keep their shape from one pass of the loop to the
    next, whatever the buttons and the clock do: the state is Locked, Menu
    or Content (never Booting or Unlocking between two passes); the attempt
    has its four slots, each holding a symbol 0-3; in the Locked state the
    cursor is below PASS_LENGTH, so every store into the attempt is in
    bounds; outside the Locked state the cursor is PASS_LENGTH and the
    slots hold the reference sequence; the selection is an index of the
    four-entry catalog; in the Content state maxPages is the page count of
    the selected entry, the page cursor is one of its pages, and for the
    image content the slide bookkeeping equals the page cursor.  The globals
    setup leaves have this shape, so it holds after any sequence of
    passes. *)
Theorem reachable_wellFormed :
  wellFormed locked_start /\
  (forall t d, wellFormed d -> wellFormed (after (loop t) d)) /\
  (forall ticks, wellFormed (after (passes ticks) locked_start)).
Proof.
  assert (W0 : wellFormed locked_start).
  { unfold wellFormed. cbn. repeat split; try lia. repeat constructor; lia. }
  assert (Step : forall t d, wellFormed d -> wellFormed (after (loop t) d)).
  { intros t d W. rewrite after_loop_passed. apply wellFormed_passed, W. }
  split; [exact W0|]. split; [exact Step|].
  intros ticks. generalize locked_start W0.
  induction ticks as [|t ticks IH]; intros d W; [exact W|].
  rewrite after_passes_cons. apply IH, Step, W.
Qed.

(** ** Once unlocked, always unlocked *)

Lemma acceptingSymbol_unlocked d :
  currentState d = MENU \/ currentState d = CONTENT -> acceptingSymbol d = false.
Proof. intros [H | H]; unfold acceptingSymbol; rewrite H; reflexivity. Qed.

Lemma unlocked_pressed b now d :
  currentState d = MENU \/ currentState d = CONTENT ->
  let d' := pressed b now d in
  (currentState d' = MENU \/ currentState d' = CONTENT) /\
  passIndex d' = passIndex d /\ enteredPasscode d' = enteredPasscode d.
Proof.
  intros H. cbv zeta. unfold pressed. rewrite (acceptingSymbol_unlocked d H). cbv zeta.
  unfold turned, opened.
  destruct H as [H | H]; rewrite H; destruct b; repeat case_decide; cbn; auto;
    destruct (selectedMenuItem d) as [|[[|[]|]|[|[]|]|]|]; cbn; auto.
Qed.

Lemma unlocked_passed t d :
  currentState d = MENU \/ currentState d = CONTENT ->
  let d' := passed t d in
  (currentState d' = MENU \/ currentState d' = CONTENT) /\
  passIndex d' = passIndex d /\ enteredPasscode d' = enteredPasscode d.
Proof.
  intros H. cbv zeta.
  assert (G : forall c b now d0,
             ((currentState d0 = MENU \/ currentState d0 = CONTENT) /\
              passIndex d0 = passIndex d /\ enteredPasscode d0 = enteredPasscode d) ->
             let d' := if c : bool then pressed b now d0 else d0 in
             (currentState d' = MENU \/ currentState d' = CONTENT) /\
             passIndex d' = passIndex d /\ enteredPasscode d' = enteredPasscode d).
  { intros c b now d0 (S0 & P0 & E0). destruct c; cbv zeta; [|auto].
    destruct (unlocked_pressed b now d0 S0) as (S1 & P1 & E1).
    rewrite P1, E1. auto. }
  unfold passed. cbv zeta.
  assert (W : (currentState (handled t d) = MENU \/ currentState (handled t d) = CONTENT) /\
              passIndex (handled t d) = passIndex d /\
              enteredPasscode (handled t d) = enteredPasscode d).
  { unfold handled. cbv zeta.
    apply (G _ ButtonBack), (G _ ButtonSelect), (G _ Button1), (G _ Button0). auto. }
  rewrite timedOut_unlocked; [exact W|].
  destruct W as ([S | S] & _); rewrite S; discriminate.
Qed.

(** X2.  Once unlocked, always unlocked: from the Menu or Content state no
    sequence of passes leads back to the Locked state (nor to Booting or
    Unlocking), and the attempt that opened the device is never touched
    again: passIndex and the four slots stay as they are. *)
Theorem never_relocks (d : Dev) (ticks : list Tick) :
  currentState d = MENU \/ currentState d = CONTENT ->
  let d' := after (passes ticks) d in
  (currentState d' = MENU \/ currentState d' = CONTENT) /\
  passIndex d' = passIndex d /\ enteredPasscode d' = enteredPasscode d.
Proof.
  revert d. induction ticks as [|t ticks IH]; intros d H; cbv zeta.
  - change (after (passes []) d) with d. auto.
  - rewrite after_passes_cons, after_loop_passed.
    destruct (unlocked_passed t d H) as (S1 & P1 & E1).
    destruct (IH _ S1) as (S2 & P2 & E2).
    rewrite P2, E2. auto.
Qed.


(** ** Only UP can complete the reference attempt *)

Lemma entered_stays_locked s d :
  s <> 0 -> acceptingSymbol d = true ->
  length (enteredPasscode d) = Z.to_nat PASS_LENGTH ->
  let d' := entered s d in
  currentState d' = LOCKED /\ length (enteredPasscode d') = Z.to_nat PASS_LENGTH.
Proof.
  intros Hs A L. cbv zeta. unfold acceptingSymbol in A.
  apply andb_prop in A as [St Pi].
  apply bool_decide_eq_true_1 in St. apply bool_decide_eq_true_1 in Pi.
  unfold entered. cbv zeta.
  set (slots := <[Z.to_nat (passIndex d) := s]> (enteredPasscode d)).
  assert (L' : length slots = Z.to_nat PASS_LENGTH)
    by (subst slots; rewrite length_insert; exact L).
  set (d1 := with_passIndex _ _).
  case_decide as G; [|split; [exact St | exact L']].
  destruct (result checkPasscode d1) eqn:C.
  - exfalso. apply (checkPasscode_reference d1 L') in C. cbn in C. fold slots in C.
    assert (K : (Z.to_nat (passIndex d) < length (enteredPasscode d))%nat).
    { rewrite L. unfold PASS_LENGTH in *. lia. }
    pose proof (list_lookup_insert_eq (enteredPasscode d) _ s K) as I.
    fold slots in I. rewrite C in I.
    unfold PASS_LENGTH in Pi.
    assert (Z.to_nat (passIndex d) < 4)%nat by lia.
    destruct (Z.to_nat (passIndex d)) as [|[|[|[|?]]]]; cbn in I; try lia;
      injection I as I; congruence.
  - split; [exact St|]. rewrite (cleared_slots d1 L'). reflexivity.
Qed.

Lemma locked_pressed b now d :
  b <> Button0 ->
  currentState d = LOCKED -> length (enteredPasscode d) = Z.to_nat PASS_LENGTH ->
  let d' := pressed b now d in
  currentState d' = LOCKED /\ length (enteredPasscode d') = Z.to_nat PASS_LENGTH.
Proof.
  intros Hb St L. cbv zeta. unfold pressed. cbv zeta.
  destruct (acceptingSymbol d) eqn:A.
  - apply entered_stays_locked; [destruct b; simpl; congruence | exact A | exact L].
  - rewrite St. destruct b; auto.
Qed.

Lemma locked_passed t d :
  accepts t d Button0 = false ->
  currentState d = LOCKED -> length (enteredPasscode d) = Z.to_nat PASS_LENGTH ->
  let d' := passed t d in
  currentState d' = LOCKED /\ length (enteredPasscode d') = Z.to_nat PASS_LENGTH.
Proof.
  intros A St L. cbv zeta.
  assert (G : forall c b now d0, b <> Button0 ->
             currentState d0 = LOCKED /\ length (enteredPasscode d0) = Z.to_nat PASS_LENGTH ->
             let d' := if c : bool then pressed b now d0 else d0 in
             currentState d' = LOCKED /\ length (enteredPasscode d') = Z.to_nat PASS_LENGTH).
  { intros c b now d0 Hb (S0 & L0). destruct c; cbv zeta; [|auto].
    apply locked_pressed; assumption. }
  assert (W : currentState (handled t d) = LOCKED /\
              length (enteredPasscode (handled t d)) = Z.to_nat PASS_LENGTH).
  { unfold handled. cbv zeta. rewrite A.
    apply (G _ ButtonBack); [discriminate|].
    apply (G _ ButtonSelect); [discriminate|].
    apply (G _ Button1); [discriminate|]. auto. }
  unfold passed. cbv zeta.
  destruct (timedOut _ _); [|exact W].
  destruct W as (S1 & L1). split; [exact S1|].
  rewrite (cleared_slots _ L1). reflexivity.
Qed.

(** X3.  Only UP can complete the reference attempt.  A pass in which no
    press of BUTTON_0 is accepted leaves a locked device locked, whatever
    else is pressed, whatever the cursor and the slots hold; so does any
    sequence of passes in which the line of BUTTON_0 is never found LOW. *)
Theorem only_up_unlocks :
  (forall d t,
     currentState d = LOCKED -> length (enteredPasscode d) = Z.to_nat PASS_LENGTH ->
     accepts t d Button0 = false ->
     currentState (after (loop t) d) = LOCKED) /\
  (forall d ticks,
     currentState d = LOCKED -> length (enteredPasscode d) = Z.to_nat PASS_LENGTH ->
     Forall (fun t => sampled t Button0 = HIGH) ticks ->
     currentState (after (passes ticks) d) = LOCKED).
Proof.
  split.
  - intros d t St L A. rewrite after_loop_passed. apply locked_passed; assumption.
  - intros d ticks St L H. revert d St L.
    induction H as [|t ticks Ht _ IH]; intros d St L; [exact St|].
    rewrite after_passes_cons, after_loop_passed.
    assert (A : accepts t d Button0 = false) by (unfold accepts; rewrite Ht; reflexivity).
    destruct (locked_passed t d A St L) as (S1 & L1).
    apply IH; assumption.
Qed.

(** ** The levels recorded for the lines *)

(** X4.  The level recorded for each line at the end of a pass, whatever
    happened in the pass: HIGH if the line was HIGH at the first reading;
    the second reading if the line had fallen since the previous pass; LOW
    if it was already LOW on the previous pass.  No handler, no reset of
    the attempt and no screen change alters the recorded levels, so a button
    has to be found HIGH by a pass before it can be accepted again. *)
Theorem recorded_levels (t : Tick) (d : Dev) (b : Button) :
  lastLevel b (after (loop t) d) = recorded t d b.
Proof.
  rewrite after_loop_passed. unfold passed. cbv zeta.
  assert (H : lastLevel b (handled t d) = recorded t d b) by (destruct b; reflexivity).
  destruct (timedOut _ _); [rewrite lastLevel_cleared|]; exact H.
Qed.

(** ** The idle timeout across a rollover of the clock *)

Lemma elapsed_u32 last elapsed :
  0 <= elapsed < 4294967296 -> u32 (u32 (last + elapsed) - last) = elapsed.
Proof.
  intros H. unfold u32. rewrite Zminus_mod_idemp_l.
  replace (last + elapsed - last) with elapsed by lia.
  apply Z.mod_small. exact H.
Qed.

(** X5.  The idle timeout measures elapsed time correctly across a
    rollover of the 32-bit millisecond clock: if the clock reads the time
    of the last accepted press plus elapsed, modulo 2^32, with elapsed
    below 2^32, then a pass without accepted press resets a started attempt
    exactly when elapsed exceeds TIMEOUT_MS, whether or not the clock
    wrapped around in between. *)
Theorem idle_timeout_rollover (d : Dev) (t : Tick) (elapsed : Z) :
  currentState d = LOCKED -> passIndex d > 0 ->
  length (enteredPasscode d) = Z.to_nat PASS_LENGTH -> quiet t d ->
  0 <= elapsed < 4294967296 ->
  u32 (loopAt t) = u32 (lastPressTime d + elapsed) ->
  let d' := after (loop t) d in
  (elapsed > TIMEOUT_MS -> passIndex d' = 0 /\ enteredPasscode d' = [0; 0; 0; 0]) /\
  (elapsed <= TIMEOUT_MS ->
   passIndex d' = passIndex d /\ enteredPasscode d' = enteredPasscode d).
Proof.
  intros St Pi L Q He Hn. cbv zeta.
  destruct (idle_timeout t d St Pi L Q) as [H1 H2].
  rewrite Hn, elapsed_u32 in H1, H2 by exact He.
  split; intros E; [destruct (H1 E) as (? & ? & _) | destruct (H2 E) as (? & ? & _)]; auto.
Qed.


(** ** A pass in which no press is accepted *)

Lemma run_debounced_rejected t b body d :
  accepts t d b = false ->
  run (debounced t b (lastLevel b) body) d =
  (recorded t d b, d, if bounces t d b then [Delay DEBOUNCE] else []).
Proof.
  intros A. rewrite run_debounced. unfold accepts, bounces, recorded in *.
  destruct (sampled t b), (lastLevel b d), (settled t b); try discriminate A; reflexivity.
Qed.

Lemma run_handleButtons_rejected t d :
  (forall b, accepts t d b = false) ->
  run (handleButtons t) d =
  (tt,
   with_lastButtons (recorded t d Button0) (recorded t d Button1)
                    (recorded t d ButtonSelect) (recorded t d ButtonBack) d,
   flat_map (fun b => if bounces t d b then [Delay DEBOUNCE] else [])
            [Button0; Button1; ButtonSelect; ButtonBack]).
Proof.
  intros A. unfold handleButtons.
  erewrite run_bind; [|apply (run_debounced_rejected t Button0), A].
  erewrite run_bind; [|apply (run_debounced_rejected t Button1), A].
  erewrite run_bind; [|apply (run_debounced_rejected t ButtonSelect), A].
  erewrite run_bind; [|apply (run_debounced_rejected t ButtonBack), A].
  cbn [fst snd flat_map]. rewrite !app_nil_r. reflexivity.
Qed.

Lemma run_loop_rejected t d :
  (forall b, accepts t d b = false) ->
  timedOut (loopAt t) d = false ->
  run (loop t) d =
  (tt,
   with_lastButtons (recorded t d Button0) (recorded t d Button1)
                    (recorded t d ButtonSelect) (recorded t d ButtonBack) d,
   flat_map (fun b => if bounces t d b then [Delay DEBOUNCE] else [])
            [Button0; Button1; ButtonSelect; ButtonBack]).
Proof.
  intros A T. unfold loop.
  erewrite run_bind; [|apply run_handleButtons_rejected, A].
  rewrite run_gets_bind. unfold id.
  change (timedOut (loopAt t) (with_lastButtons _ _ _ _ d)) with (timedOut (loopAt t) d).
  rewrite T. cbn [fst snd]. rewrite app_nil_r. reflexivity.
Qed.

Lemma run_loop_held_lines t d :
  (forall b, sampled t b = LOW -> lastLevel b d = LOW) ->
  timedOut (loopAt t) d = false ->
  run (loop t) d =
  (tt, with_lastButtons (sampled t Button0) (sampled t Button1)
                        (sampled t ButtonSelect) (sampled t ButtonBack) d, []).
Proof.
  intros H T.
  assert (A : forall b, accepts t d b = false).
  { intros b. unfold accepts. specialize (H b).
    destruct (sampled t b); [reflexivity|]. rewrite H; reflexivity. }
  assert (B : forall b, bounces t d b = false).
  { intros b. unfold bounces. specialize (H b).
    destruct (sampled t b); [reflexivity|]. rewrite H; reflexivity. }
  assert (R : forall b, recorded t d b = sampled t b).
  { intros b. unfold recorded. specialize (H b).
    destruct (sampled t b); [reflexivity|]. rewrite H; reflexivity. }
  rewrite (run_loop_rejected t d A T).
  cbn [flat_map]. rewrite !B, !R. reflexivity.
Qed.

(** X6.  A pass in which no press is accepted (each line is HIGH, or was
    already LOW on the previous pass, or is HIGH again when re-read after
    the debounce delay) and the idle timeout does not fire: the only
    commands are one DEBOUNCE pause per line that bounced, and the only
    globals that change are the four recorded levels.  In particular a
    button held down over several passes is acted on once: while it stays
    LOW the passes issue no command at all. *)
Theorem rejected_pass :
  (forall t d,
     (forall b, accepts t d b = false) ->
     timedOut (loopAt t) d = false ->
     run (loop t) d =
     (tt,
      with_lastButtons (recorded t d Button0) (recorded t d Button1)
                       (recorded t d ButtonSelect) (recorded t d ButtonBack) d,
      flat_map (fun b => if bounces t d b then [Delay DEBOUNCE] else [])
               [Button0; Button1; ButtonSelect; ButtonBack])) /\
  (forall t d,
     (forall b, sampled t b = LOW -> lastLevel b d = LOW) ->
     timedOut (loopAt t) d = false ->
     run (loop t) d =
     (tt, with_lastButtons (sampled t Button0) (sampled t Button1)
                           (sampled t ButtonSelect) (sampled t ButtonBack) d, [])).
Proof. split; [exact run_loop_rejected | exact run_loop_held_lines]. Qed.


(** ** Several buttons in one pass *)

Lemma passed_pressing b at_ now d :
  lastLevel b d = HIGH ->
  passed (pressing b at_ now) d =
  let d1 := onlyLow b (pressed b at_ d) in
  if timedOut now d1 then cleared d1 else d1.
Proof.
  intros H. unfold passed, handled, accepts, recorded. cbv zeta.
  destruct b; cbn in H |- *; rewrite H; reflexivity.
Qed.

Lemma passed_released now d :
  passed (released now) d =
  let d1 := with_lastButtons HIGH HIGH HIGH HIGH d in
  if timedOut now d1 then cleared d1 else d1.
Proof. reflexivity. Qed.

Lemma passed_up_down at_ now d :
  lastButton0 d = HIGH -> lastButton1 d = HIGH ->
  passed (chord (fun b => bool_decide (b = Button0 \/ b = Button1)) at_ now) d =
  let d1 := with_lastButtons LOW LOW HIGH HIGH
              (pressed Button1 at_ (pressed Button0 at_ d)) in
  if timedOut now d1 then cleared d1 else d1.
Proof.
  intros H0 H1. unfold passed, handled, accepts, recorded. cbv zeta.
  cbn. rewrite H0, H1. reflexivity.
Qed.



Lemma passed_up_select at_ now d :
  lastButton0 d = HIGH -> lastButtonSelect d = HIGH ->
  passed (chord (fun b => bool_decide (b = Button0 \/ b = ButtonSelect)) at_ now) d =
  let d1 := with_lastButtons LOW HIGH LOW HIGH
              (pressed ButtonSelect at_ (pressed Button0 at_ d)) in
  if timedOut now d1 then cleared d1 else d1.
Proof.
  intros H0 H1. unfold passed, handled, accepts, recorded. cbv zeta.
  cbn. rewrite H0, H1. reflexivity.
Qed.

(** X8.  The handlers of one pass see the state left by the handlers
    before them: when UP completes the reference attempt and SELECT is
    accepted in the same pass, the device goes from Locked through Menu
    straight to Content in that one pass, opening the selected entry at
    page 0. *)
Theorem unlock_and_select_in_one_pass (d : Dev) (at_ now : Z) :
  currentState d = LOCKED -> passIndex d = 3 ->
  (exists x, enteredPasscode d = [0; 0; 0; x]) ->
  0 <= selectedMenuItem d < 4 ->
  lastButton0 d = HIGH -> lastButtonSelect d = HIGH ->
  let d' := after (loop (chord (fun b => bool_decide (b = Button0 \/ b = ButtonSelect)) at_ now)) d in
  currentState d' = CONTENT /\ selectedMenuItem d' = selectedMenuItem d /\
  currentPage d' = 0 /\ maxPages d' = pagesOf (selectedMenuItem d) /\
  enteredPasscode d' = CORRECT_PASSCODE.
Proof.
  intros St Pi (x & E) Sel H0 H1. cbv zeta.
  rewrite after_loop_passed, passed_up_select by assumption. cbv zeta.
  destruct d as [st slots pi lp b0 b1 bs bb sel cp mp lm].
  cbn in St, Pi, E, Sel, H0, H1. subst st pi slots.
  destruct (sel_cases sel Sel) as [-> | [-> | [-> | ->]]]; repeat split; reflexivity.
Qed.


(** ** Leaving a content and opening it again *)

Lemma pressed_back_content now d :
  currentState d = CONTENT ->
  pressed ButtonBack now d = with_currentState MENU (with_lastPressTime (u32 now) d).
Proof.
  intros St. unfold pressed. cbv zeta.
  rewrite (acceptingSymbol_unlocked d) by auto. rewrite St. reflexivity.
Qed.

Lemma pressed_select_menu now d :
  currentState d = MENU ->
  pressed ButtonSelect now d =
  with_currentState CONTENT (opened (selectedMenuItem d) (with_lastPressTime (u32 now) d)).
Proof.
  intros St. unfold pressed. cbv zeta.
  rewrite (acceptingSymbol_unlocked d) by auto. rewrite St. reflexivity.
Qed.

Lemma opened_fields idx d :
  0 <= idx < 4 ->
  let d' := opened idx d in
  currentPage d' = 0 /\ lastMemoryPage d' = 0 /\ maxPages d' = pagesOf idx /\
  selectedMenuItem d' = selectedMenuItem d /\ currentState d' = currentState d.
Proof.
  intros H. destruct (sel_cases idx H) as [-> | [-> | [-> | ->]]]; repeat split; reflexivity.
Qed.

Lemma passed_click_unlocked b at_ now later d :
  lastLevel b d = HIGH ->
  currentState (pressed b at_ d) <> LOCKED ->
  after (passes (click b at_ now later)) d =
  with_lastButtons HIGH HIGH HIGH HIGH (pressed b at_ d).
Proof.
  intros Hb St. unfold click. rewrite !after_passes_cons.
  change (after (passes []) ?x) with x.
  rewrite !after_loop_passed.
  rewrite (passed_pressing b at_ now d Hb). cbv zeta.
  rewrite timedOut_unlocked by exact St.
  rewrite passed_released. cbv zeta.
  rewrite timedOut_unlocked by exact St.
  reflexivity.
Qed.

(** X9.  BACK leaves a content for the menu with the selection unchanged
    (the page cursor and maxPages keep their values while the menu is
    shown); SELECT then opens the same entry again at page 0, with the slide
    bookkeeping reset: the page reached before is not remembered. *)
Theorem back_then_select (d : Dev) (a1 n1 l1 a2 n2 l2 : Z) :
  currentState d = CONTENT -> 0 <= selectedMenuItem d < 4 ->
  lastButtonBack d = HIGH ->
  let m := after (passes (click ButtonBack a1 n1 l1)) d in
  let c := after (passes (click ButtonSelect a2 n2 l2)) m in
  (currentState m = MENU /\ selectedMenuItem m = selectedMenuItem d /\
   currentPage m = currentPage d /\ maxPages m = maxPages d) /\
  (currentState c = CONTENT /\ selectedMenuItem c = selectedMenuItem d /\
   currentPage c = 0 /\ lastMemoryPage c = 0 /\
   maxPages c = pagesOf (selectedMenuItem d)).
Proof.
  intros St Sel Hb. cbv zeta.
  rewrite (passed_click_unlocked ButtonBack a1 n1 l1 d Hb)
    by (rewrite pressed_back_content by exact St; discriminate).
  rewrite pressed_back_content by exact St.
  set (m := with_lastButtons _ _ _ _ _).
  assert (Sm : currentState m = MENU) by reflexivity.
  split; [repeat split|].
  rewrite (passed_click_unlocked ButtonSelect a2 n2 l2 m eq_refl)
    by (rewrite pressed_select_menu by exact Sm; discriminate).
  rewrite pressed_select_menu by exact Sm.
  change (selectedMenuItem m) with (selectedMenuItem d).
  destruct (opened_fields (selectedMenuItem d) (with_lastPressTime (u32 a2) m) Sel)
    as (C & L & M & S & _).
  repeat split; assumption.
Qed.


(** ** Properties of every trace, by the structure of the code *)

Section Always.

Variable P : list Event -> Prop.
Hypothesis P_nil : P [].
Hypothesis P_app : forall a b, P a -> P b -> P (a ++ b).

Lemma always_ret {A} (a : A) : always P (mret a).
Proof. intros d. exact P_nil. Qed.

Lemma always_gets {A} (f : Dev -> A) : always P (gets f).
Proof. intros d. exact P_nil. Qed.

Lemma always_modify (f : Dev -> Dev) : always P (modify f).
Proof. intros d. exact P_nil. Qed.

Lemma always_emit e : P [e] -> always P (emit e).
Proof. intros H d. exact H. Qed.

Lemma always_bind {A B} (m : M A) (k : A -> M B) :
  always P m -> (forall a, always P (k a)) -> always P (m ≫= k).
Proof. intros Hm Hk d. rewrite events_bind. apply P_app; [apply Hm | apply Hk]. Qed.

Lemma always_forEach {A} (l : list A) (body : A -> M unit) :
  (forall x, always P (body x)) -> always P (forEach l body).
Proof.
  intros H. induction l as [|x l IH]; [apply always_ret|].
  cbn [forEach]. apply always_bind; [apply H | intros _; exact IH].
Qed.

End Always.

Ltac head_of t := lazymatch t with ?f _ => head_of f | _ => t end.

(** The trace property of a computation from the trace property of its
    parts: [leaf] settles the calls the property is about, the rest
    follows the structure of the code. *)
Ltac always_with nil app leaf :=
  cbv zeta;
  first
    [ leaf
    | lazymatch goal with
      | |- always _ (mbind _ _) =>
          apply (always_bind _ app); [always_with nil app leaf | intros ?; always_with nil app leaf]
      | |- always _ (forEach _ _) =>
          apply (always_forEach _ nil app); intros ?; always_with nil app leaf
      | |- always _ (mret _) => apply (always_ret _ nil)
      | |- always _ skip => apply (always_ret _ nil)
      | |- always _ (gets _) => apply (always_gets _ nil)
      | |- always _ (modify _) => apply (always_modify _ nil)
      | |- always _ (match ?x with _ => _ end) => destruct x; always_with nil app leaf
      | |- always _ ?m => let h := head_of m in unfold h; always_with nil app leaf
      end ].

(** *** The motor is driven in whole pulses *)

Lemma Pulsed_app a b : Pulsed a -> Pulsed b -> Pulsed (a ++ b).
Proof.
  intros Ha Hb. induction Ha as [|e es He _ IH|ms es Hms _ IH].
  - exact Hb.
  - cbn [app]. apply Pulsed_other; assumption.
  - cbn [app]. apply Pulsed_pulse; assumption.
Qed.

Lemma Pulsed_quiet e : drivesMotor e = false -> Pulsed [e].
Proof. intros H. apply Pulsed_other; [exact H | constructor]. Qed.

Lemma always_Pulsed_vibrate n : 0 <= n <= VIB_LONG -> always Pulsed (vibrate n).
Proof. intros H d. apply (Pulsed_pulse n []); [exact H | constructor]. Qed.

Lemma always_Pulsed_vibratePattern count onTime offTime :
  0 <= onTime <= VIB_LONG -> always Pulsed (vibratePattern count onTime offTime).
Proof.
  intros H. unfold vibratePattern, for_lt.
  apply (always_forEach _ Pulsed_nil Pulsed_app). intros i d.
  case_decide.
  - apply (Pulsed_pulse onTime [Delay offTime]); [exact H|].
    apply Pulsed_quiet. reflexivity.
  - apply (Pulsed_pulse onTime []); [exact H | constructor].
Qed.

Ltac pulsed_leaf :=
  idtac;
  lazymatch goal with
  | |- always Pulsed (vibrate _) =>
      apply always_Pulsed_vibrate; vm_compute; split; discriminate
  | |- always Pulsed (vibratePattern _ _ _) =>
      apply always_Pulsed_vibratePattern; vm_compute; split; discriminate
  | |- always Pulsed (emit _) => apply always_emit, Pulsed_quiet; reflexivity
  | |- always Pulsed (tft _) => apply always_emit, Pulsed_quiet; reflexivity
  | |- always Pulsed (delay _) => apply always_emit, Pulsed_quiet; reflexivity
  | |- always Pulsed (render _) => apply always_emit, Pulsed_quiet; reflexivity
  end.

Ltac pulsed_tac := always_with Pulsed_nil Pulsed_app pulsed_leaf.

Lemma always_Pulsed_loop t : always Pulsed (loop t).
Proof. pulsed_tac. Qed.

(** X10.  In every sequence of passes, from every state of the globals,
    the motor pin is driven in whole pulses: each HIGH is followed by one
    pause of at most VIB_LONG (150 ms) and then by the LOW, with no other
    command in between.  The motor is never left running at the end of a
    pass, and no drawing or LED update happens while it runs. *)
Theorem motor_in_whole_pulses (ticks : list Tick) (d : Dev) :
  Pulsed (events (passes ticks) d).
Proof.
  revert d. apply (always_forEach _ Pulsed_nil Pulsed_app). exact always_Pulsed_loop.
Qed.

(** *** Every colour staged on the LED strip is shown *)

Lemma staging_app st a b : staging st (a ++ b) = staging (staging st a) b.
Proof. apply foldl_app. Qed.

Lemma Latched_nil : Latched [].
Proof. reflexivity. Qed.

Lemma Latched_app a b : Latched a -> Latched b -> Latched (a ++ b).
Proof. unfold Latched. intros Ha Hb. rewrite staging_app, Ha. exact Hb. Qed.

Lemma always_Latched_setRGBLeds c : always Latched (setRGBLeds c).
Proof. intros d. reflexivity. Qed.

Lemma always_Latched_rgbRainbow : always Latched rgbRainbow.
Proof. intros d. reflexivity. Qed.

Ltac latched_leaf :=
  idtac;
  lazymatch goal with
  | |- always Latched (setRGBLeds _) => apply always_Latched_setRGBLeds
  | |- always Latched rgbRainbow => apply always_Latched_rgbRainbow
  | |- always Latched (emit _) => apply always_emit; reflexivity
  | |- always Latched (tft _) => apply always_emit; reflexivity
  | |- always Latched (delay _) => apply always_emit; reflexivity
  | |- always Latched (render _) => apply always_emit; reflexivity
  | |- always Latched (digitalWrite _ _) => apply always_emit; reflexivity
  end.

Ltac latched_tac := always_with Latched_nil Latched_app latched_leaf.

Lemma always_Latched_loop t : always Latched (loop t).
Proof. latched_tac. Qed.

(** X11.  In every sequence of passes, from every state of the globals,
    each colour staged with setPixelColor is followed by a show before the
    passes end: no pass leaves the strip with a colour written to its buffer
    and not yet displayed. *)
Theorem led_colours_are_shown (ticks : list Tick) (d : Dev) :
  Latched (events (passes ticks) d).
Proof.
  revert d. apply (always_forEach _ Latched_nil Latched_app). exact always_Latched_loop.
Qed.


(** ** The RGB565 helper *)

Lemma lor_disjoint hi lo n :
  0 <= n -> 0 <= lo < 2 ^ n -> Z.lor (hi * 2 ^ n) lo = hi * 2 ^ n + lo.
Proof.
  intros Hn Hlo. rewrite <- Z.add_lor_land.
  assert (E : Z.land (hi * 2 ^ n) lo = 0).
  { apply Z.bits_inj'. intros k Hk. rewrite Z.land_spec, Z.bits_0.
    destruct (Z.lt_ge_cases k n) as [Lt | Ge].
    - rewrite Z.mul_pow2_bits_low by lia. reflexivity.
    - destruct (Z.eq_dec lo 0) as [-> | Nz]; [rewrite Z.bits_0; apply andb_false_r|].
      rewrite (Z.bits_above_log2 lo k); [apply andb_false_r | lia |].
      assert (Z.log2 lo < n) by (apply Z.log2_lt_pow2; lia). lia. }
  rewrite E. lia.
Qed.

Lemma byte_cases (P : Z -> bool) :
  forallb P (seqZ 0 256) = true -> forall x, 0 <= x < 256 -> P x = true.
Proof.
  intros H x Hx. rewrite forallb_forall in H. apply H.
  apply list_elem_of_In, elem_of_seqZ. lia.
Qed.

Lemma u8_range z : 0 <= u8 z < 256.
Proof. unfold u8. apply Z.mod_pos_bound. lia. Qed.

Lemma RGB_sum r g b :
  RGB r g b = (u8 r / 8) * 2048 + (u8 g / 4) * 32 + u8 b / 8.
Proof.
  unfold RGB.
  pose proof (u8_range r) as Hr. pose proof (u8_range g) as Hg. pose proof (u8_range b) as Hb.
  generalize dependent (u8 r). generalize dependent (u8 g). generalize dependent (u8 b).
  intros b' Hb g' Hg r' Hr.
  assert (R : Z.shiftl (Z.land r' 0xF8) 8 = (r' / 8) * 2 ^ 11).
  { apply Z.eqb_eq.
    apply (byte_cases (fun x => Z.shiftl (Z.land x 0xF8) 8 =? (x / 8) * 2 ^ 11));
      [vm_compute; reflexivity | exact Hr]. }
  assert (G : Z.shiftl (Z.land g' 0xFC) 3 = (g' / 4) * 2 ^ 5).
  { apply Z.eqb_eq.
    apply (byte_cases (fun x => Z.shiftl (Z.land x 0xFC) 3 =? (x / 4) * 2 ^ 5));
      [vm_compute; reflexivity | exact Hg]. }
  assert (B : Z.shiftr b' 3 = b' / 8) by (rewrite Z.shiftr_div_pow2 by lia; reflexivity).
  rewrite R, G, B.
  assert (Hr8 : 0 <= r' / 8 < 32) by (split; [apply Z.div_pos | apply Z.div_lt_upper_bound]; lia).
  assert (Hg4 : 0 <= g' / 4 < 64) by (split; [apply Z.div_pos | apply Z.div_lt_upper_bound]; lia).
  assert (Hb8 : 0 <= b' / 8 < 32) by (split; [apply Z.div_pos | apply Z.div_lt_upper_bound]; lia).
  rewrite (lor_disjoint (r' / 8) (g' / 4 * 2 ^ 5) 11) by lia.
  replace (r' / 8 * 2 ^ 11 + g' / 4 * 2 ^ 5) with ((r' / 8 * 2 ^ 6 + g' / 4) * 2 ^ 5) by lia.
  rewrite (lor_disjoint _ (b' / 8) 5) by lia.
  unfold u16. rewrite Z.mod_small by lia. lia.
Qed.

(** X12.  RGB(r, g, b) packs the top five bits of r, the top six bits of g
    and the top five bits of b (each argument reduced to a byte) into one
    16-bit word, from which the three fields can be read back: bits 15-11
    hold r / 8, bits 10-5 hold g / 4, bits 4-0 hold b / 8. *)
Theorem RGB_fields (r g b : Z) :
  RGB r g b = (u8 r / 8) * 2048 + (u8 g / 4) * 32 + u8 b / 8 /\
  0 <= RGB r g b < 65536 /\
  Z.shiftr (RGB r g b) 11 = u8 r / 8 /\
  Z.land (Z.shiftr (RGB r g b) 5) 63 = u8 g / 4 /\
  Z.land (RGB r g b) 31 = u8 b / 8.
Proof.
  rewrite RGB_sum.
  pose proof (u8_range r) as Hr. pose proof (u8_range g) as Hg. pose proof (u8_range b) as Hb.
  assert (Hr8 : 0 <= u8 r / 8 < 32) by (split; [apply Z.div_pos | apply Z.div_lt_upper_bound]; lia).
  assert (Hg4 : 0 <= u8 g / 4 < 64) by (split; [apply Z.div_pos | apply Z.div_lt_upper_bound]; lia).
  assert (Hb8 : 0 <= u8 b / 8 < 32) by (split; [apply Z.div_pos | apply Z.div_lt_upper_bound]; lia).
  generalize dependent (u8 r / 8). generalize dependent (u8 g / 4). generalize dependent (u8 b / 8).
  intros cb Hcb cg Hcg cr Hcr.
  split; [reflexivity|]. split; [lia|].
  rewrite !Z.shiftr_div_pow2 by lia.
  change 63 with (Z.ones 6). change 31 with (Z.ones 5).
  rewrite !Z.land_ones by lia.
  change (2 ^ 11) with 2048. change (2 ^ 5) with 32. change (2 ^ 6) with 64.
  repeat split.
  - symmetry. apply (Z.div_unique _ _ _ (cg * 32 + cb)); lia.
  - assert (E : (cr * 2048 + cg * 32 + cb) / 32 = cr * 64 + cg)
      by (symmetry; apply (Z.div_unique _ _ _ cb); lia).
    rewrite E. symmetry. apply (Z.mod_unique _ _ cr); lia.
  - symmetry. apply (Z.mod_unique _ _ (cr * 64 + cg)); lia.
Qed.


(** ** The vibration pattern *)

Lemma duration_app a b : duration (a ++ b) = duration a + duration b.
Proof.
  induction a as [|e a IH]; [reflexivity|].
  unfold duration in *. cbn [app foldr]. rewrite IH. destruct e; cbn beta iota; lia.
Qed.

Lemma motorStarts_app a b : motorStarts (a ++ b) = motorStarts a + motorStarts b.
Proof. unfold motorStarts. rewrite filter_app, length_app. lia. Qed.

(** The commands of one round of the pattern's loop. *)
Lemma silent_vibratePattern count onTime offTime :
  silent (vibratePattern count onTime offTime)
    (flat_map (fun i =>
       [DigitalWrite VIBRATION_MOTOR_PIN HIGH; Delay onTime; DigitalWrite VIBRATION_MOTOR_PIN LOW]
       ++ if decide (i < count - 1) then [Delay offTime] else [])
       (seqZ 0 (count - 0))).
Proof.
  unfold vibratePattern, for_lt. apply silent_forEach. intros i d.
  case_decide; reflexivity.
Qed.

Lemma motorStarts_round onTime tail :
  Forall (fun e => exists ms, e = Delay ms) tail ->
  motorStarts ([DigitalWrite VIBRATION_MOTOR_PIN HIGH; Delay onTime;
                DigitalWrite VIBRATION_MOTOR_PIN LOW] ++ tail) = 1.
Proof.
  intros H. unfold motorStarts. cbn [app].
  rewrite filter_cons_True by reflexivity.
  rewrite filter_cons_False by discriminate.
  rewrite filter_cons_False by (unfold HIGH, LOW; congruence).
  assert (E : filter (fun e => e = DigitalWrite VIBRATION_MOTOR_PIN HIGH) tail = []).
  { induction H as [|e tail (ms & ->) _ IH]; [reflexivity|].
    rewrite filter_cons_False by discriminate. exact IH. }
  rewrite E. reflexivity.
Qed.

Lemma pattern_rounds count onTime offTime (l : list Z) :
  Forall (fun i => i < count - 1) l ->
  let es := flat_map (fun i =>
       [DigitalWrite VIBRATION_MOTOR_PIN HIGH; Delay onTime; DigitalWrite VIBRATION_MOTOR_PIN LOW]
       ++ if decide (i < count - 1) then [Delay offTime] else []) l in
  duration es = Z.of_nat (length l) * (onTime + offTime) /\
  motorStarts es = Z.of_nat (length l).
Proof.
  intros H. cbv zeta. induction H as [|i l Hi _ IH]; [split; reflexivity|].
  cbn [flat_map]. rewrite decide_True by exact Hi.
  rewrite duration_app, motorStarts_app.
  destruct IH as [-> ->]. cbn [length]. split.
  - cbn. lia.
  - rewrite motorStarts_round by (repeat constructor; eexists; reflexivity). lia.
Qed.



(** ** The page indicator *)

(** The two commands of dot [i]. *)
Lemma events_drawPageIndicator d :
  1 < maxPages d ->
  events drawPageIndicator d =
  flat_map (fun i =>
    let x := idiv (SCREEN_W - (maxPages d * 4 + (maxPages d - 1) * 9)) 2 + i * (4 + 9)
             + idiv 4 2 in
    if decide (i = currentPage d)
    then [Display (FillCircle x 148 4 ACCENT_PURPLE); Display (DrawCircle x 148 (4 + 1) ACCENT_PURPLE)]
    else [Display (DrawCircle x 148 2 CIRCLE_EMPTY); Display (FillCircle x 148 1 CIRCLE_EMPTY)])
    (seqZ 0 (maxPages d - 0)).
Proof.
  intros H. unfold drawPageIndicator. rewrite events_gets_bind.
  rewrite decide_False by lia. cbv zeta.
  unfold for_lt. rewrite events_forEach_keeps by (intros x; keeps_tac).
  apply flat_map_ext. intros i.
  rewrite events_gets_bind. case_decide; reflexivity.
Qed.

Lemma no_currentDot (g : Z -> Z) page (l : list Z) :
  Forall (fun i => i <> page) l ->
  filter (fun e => currentDot e = true)
    (flat_map (fun i =>
       if decide (i = page)
       then [Display (FillCircle (g i) 148 4 ACCENT_PURPLE);
             Display (DrawCircle (g i) 148 (4 + 1) ACCENT_PURPLE)]
       else [Display (DrawCircle (g i) 148 2 CIRCLE_EMPTY);
             Display (FillCircle (g i) 148 1 CIRCLE_EMPTY)]) l) = [].
Proof.
  intros H. induction H as [|i l Hi _ IH]; [reflexivity|].
  cbn [flat_map]. rewrite decide_False by exact Hi.
  rewrite filter_app, IH. reflexivity.
Qed.

(** X14.  The page indicator draws nothing for a content of one page (or
    none).  For more pages it draws two circles per page, and exactly one
    page, the current one, gets the filled dot of radius 4 in the accent
    colour.  Up to 10 pages every circle lies within the screen; with 11
    pages the first dot falls off the left edge. *)
Theorem page_indicator_dots (d : Dev) :
  let es := events drawPageIndicator d in
  (maxPages d <= 1 -> es = []) /\
  (1 < maxPages d -> 0 <= currentPage d < maxPages d ->
   Z.of_nat (length es) = 2 * maxPages d /\
   length (filter (fun e => currentDot e = true) es) = 1%nat) /\
  (1 < maxPages d <= 10 -> Forall (fun e => circleOnScreen e = true) es) /\
  (maxPages d = 11 -> Exists (fun e => circleOnScreen e = false) es).
Proof.
  cbv zeta. split; [|split; [|split]].
  - intros H. unfold drawPageIndicator. rewrite events_gets_bind.
    rewrite decide_True by exact H. reflexivity.
  - intros H Hp. rewrite events_drawPageIndicator by exact H. cbv zeta.
    pose (g := fun i : Z => idiv (SCREEN_W - (maxPages d * 4 + (maxPages d - 1) * 9)) 2
                           + i * (4 + 9) + idiv 4 2).
    rewrite Z.sub_0_r. split.
    + assert (L : forall l : list Z,
                length (flat_map (fun i =>
                  if decide (i = currentPage d)
                  then [Display (FillCircle (g i) 148 4 ACCENT_PURPLE);
                        Display (DrawCircle (g i) 148 (4 + 1) ACCENT_PURPLE)]
                  else [Display (DrawCircle (g i) 148 2 CIRCLE_EMPTY);
                        Display (FillCircle (g i) 148 1 CIRCLE_EMPTY)]) l)
                = (2 * length l)%nat).
      { induction l as [|i l IH]; [reflexivity|].
        cbn [flat_map]. rewrite length_app, IH. case_decide; cbn; lia. }
      rewrite L, length_seqZ. lia.
    + assert (E : seqZ 0 (maxPages d) =
                  seqZ 0 (currentPage d) ++ [currentPage d]
                  ++ seqZ (currentPage d + 1) (maxPages d - currentPage d - 1)).
      { replace (maxPages d)
          with (currentPage d + (1 + (maxPages d - currentPage d - 1))) at 1 by lia.
        rewrite seqZ_app by lia. f_equal.
        rewrite seqZ_app by lia. reflexivity. }
      rewrite E, !flat_map_app, !filter_app.
      rewrite (no_currentDot g _ (seqZ 0 (currentPage d))),
              (no_currentDot g _ (seqZ (currentPage d + 1) (maxPages d - currentPage d - 1))).
      * cbn [flat_map]. rewrite decide_True by reflexivity. reflexivity.
      * apply Forall_forall. intros i Hi. apply elem_of_seqZ in Hi. lia.
      * apply Forall_forall. intros i Hi. apply elem_of_seqZ in Hi. lia.
  - intros H. rewrite events_drawPageIndicator by lia. cbv zeta.
    apply Forall_flat_map, Forall_forall. intros i Hi.
    apply elem_of_seqZ in Hi.
    unfold idiv, SCREEN_W, SCREEN_H. rewrite Z.quot_div_nonneg by lia.
    change (4 `quot` 2) with 2.
    assert (Q : 3 <= (128 - (maxPages d * 4 + (maxPages d - 1) * 9)) `div` 2
                /\ 2 * ((128 - (maxPages d * 4 + (maxPages d - 1) * 9)) `div` 2)
                   <= 137 - 13 * maxPages d).
    { split.
      - apply Z.div_le_lower_bound; lia.
      - pose proof (Z.mul_div_le (128 - (maxPages d * 4 + (maxPages d - 1) * 9)) 2). lia. }
    destruct Q as [Q1 Q2].
    case_decide;
      (apply List.Forall_cons; [|apply List.Forall_cons; [|apply List.Forall_nil]]);
      cbn [circleOnScreen]; apply bool_decide_eq_true_2; unfold SCREEN_W, SCREEN_H; lia.
  - intros H. rewrite events_drawPageIndicator by lia. rewrite H.
    apply Exists_exists.
    destruct (decide (0 = currentPage d)) as [E | E].
    + exists (Display (FillCircle (-1) 148 4 ACCENT_PURPLE)). split; [|reflexivity].
      apply list_elem_of_In, in_flat_map. exists 0.
      split; [apply list_elem_of_In, elem_of_seqZ; lia|].
      rewrite decide_True by exact E. left. reflexivity.
    + exists (Display (DrawCircle (-1) 148 2 CIRCLE_EMPTY)). split; [|reflexivity].
      apply list_elem_of_In, in_flat_map. exists 0.
      split; [apply list_elem_of_In, elem_of_seqZ; lia|].
      rewrite decide_False by exact E. left. reflexivity.
Qed.


(** ** Start-up *)

Lemma runS_bind {A B} (m : SM A) (k : A -> SM B) s a s' es :
  runS m s = (a, s', es) ->
  runS (m ≫= k) s = ((runS (k a) s').1.1, (runS (k a) s').1.2, es ++ (runS (k a) s').2).
Proof.
  intros H.
  change (runS (m ≫= k) s)
    with ((runS (k (runS m s).1.1) (runS m s).1.2).1.1,
          (runS (k (runS m s).1.1) (runS m s).1.2).1.2,
          (runS m s).2 ++ (runS (k (runS m s).1.1) (runS m s).1.2).2).
  rewrite H. reflexivity.
Qed.

Lemma runS_eta {A} (m : SM A) s : runS m s = ((runS m s).1.1, afterS m s, eventsS m s).
Proof. unfold afterS, eventsS. destruct (runS m s) as [[a s'] es]. reflexivity. Qed.

Lemma afterS_bind {A B} (m : SM A) (k : A -> SM B) s :
  afterS (m ≫= k) s = afterS (k (runS m s).1.1) (afterS m s).
Proof. reflexivity. Qed.

Lemma eventsS_bind {A B} (m : SM A) (k : A -> SM B) s :
  eventsS (m ≫= k) s = eventsS m s ++ eventsS (k (runS m s).1.1) (afterS m s).
Proof. reflexivity. Qed.

Lemma afterS_core_keeps {A} (m : M A) d a b c :
  keeps m -> afterS (core m) (mkSys d a b c) = mkSys d a b c.
Proof. intros K. unfold afterS, core. cbn [runS fst snd dev]. fold (after m d). rewrite K. reflexivity. Qed.

Lemma eventsS_core {A} (m : M A) s : eventsS (core m) s = Core <$> events m (dev s).
Proof. reflexivity. Qed.

Lemma sdTrace_app a b : sdTrace (a ++ b) = sdTrace a ++ sdTrace b.
Proof. apply filter_app. Qed.

Lemma sdTrace_core es : sdTrace (Core <$> es) = [].
Proof.
  induction es as [|e es IH]; [reflexivity|].
  cbn [fmap list_fmap]. unfold sdTrace in *.
  rewrite filter_cons_False by (cbn; discriminate). exact IH.
Qed.

Section StartupProperties.

Variables CARD_NONE CARD_MMC CARD_SD CARD_SDHC : Z.
Variable logo : Z -> Z.

Lemma afterS_initSDCard card d a b c :
  afterS (initSDCard CARD_NONE CARD_MMC CARD_SD CARD_SDHC card) (mkSys d a b c) =
  mkSys d (cardFound CARD_NONE card)
        (if cardFound CARD_NONE card then u64 (cardSize card) `div` (1024 * 1024) else b)
        (if beginOk card then u8 (cardType card) else c).
Proof.
  clear pic1.
  unfold cardFound, initSDCard, afterS.
  destruct card as [bk ty sz op]. cbn [beginOk cardType cardSize openOk].
  destruct bk; cbn [negb andb]; [|reflexivity].
  destruct (decide (u8 ty = CARD_NONE)) as [E | E].
  - rewrite bool_decide_eq_false_2 by tauto.
    cbn. destruct (decide (u8 ty = CARD_NONE)); [reflexivity | contradiction].
  - rewrite bool_decide_eq_true_2 by exact E.
    cbn. destruct (decide (u8 ty = CARD_NONE)); [contradiction|].
    destruct op; repeat case_decide; reflexivity.
Qed.

Lemma eventsS_initSDCard card d a b c :
  eventsS (initSDCard CARD_NONE CARD_MMC CARD_SD CARD_SDHC card) (mkSys d a b c) =
  [SerialPrintln "Initializing SD card..."; PinMode SD_MISO INPUT; SdBegin SD_CS] ++
  if beginOk card then
    SerialPrintln "SD Card initialized successfully!" ::
    if decide (u8 (cardType card) = CARD_NONE) then [SerialPrintln "No SD card attached"]
    else
      SerialPrint "SD Card Type: " ::
      SerialPrintln (if decide (u8 (cardType card) = CARD_MMC) then "MMC"
                     else if decide (u8 (cardType card) = CARD_SD) then "SDSC"
                     else if decide (u8 (cardType card) = CARD_SDHC) then "SDHC"
                     else "UNKNOWN") ::
      SerialPrintfSize (u64 (cardSize card) `div` (1024 * 1024)) ::
      SdOpen "/test.txt" FILE_WRITE ::
      if openOk card
      then [FilePrintln "Hope Box - SD Card Test"; FileClose;
            SerialPrintln "Test file created successfully"]
      else [SerialPrintln "Failed to create test file"]
  else [SerialPrintln "SD Card initialization failed!"].
Proof.
  unfold initSDCard, eventsS.
  destruct card as [bk ty sz op]. cbn [beginOk cardType cardSize openOk].
  destruct bk; cbn [negb]; [|reflexivity].
  cbn. destruct (decide (u8 ty = CARD_NONE)); [reflexivity|].
  destruct op; repeat case_decide; reflexivity.
Qed.

Lemma sdTrace_initSDCard card d a b c :
  sdTrace (eventsS (initSDCard CARD_NONE CARD_MMC CARD_SD CARD_SDHC card) (mkSys d a b c)) =
  SdBegin SD_CS ::
  if cardFound CARD_NONE card then
    SdOpen "/test.txt" FILE_WRITE ::
    if openOk card then [FilePrintln "Hope Box - SD Card Test"; FileClose] else []
  else [].
Proof.
  clear pic1.
  rewrite eventsS_initSDCard. unfold cardFound.
  destruct (beginOk card); cbn [andb]; [|reflexivity].
  destruct (decide (u8 (cardType card) = CARD_NONE)) as [E | E].
  - rewrite bool_decide_eq_false_2 by tauto. reflexivity.
  - rewrite bool_decide_eq_true_2 by exact E.
    destruct (openOk card); reflexivity.
Qed.

Lemma afterS_boot_bind {B} e (k : unit -> SM B) s : afterS (boot e ≫= k) s = afterS (k tt) s.
Proof. reflexivity. Qed.

Lemma eventsS_boot_bind {B} e (k : unit -> SM B) s :
  eventsS (boot e ≫= k) s = e :: eventsS (k tt) s.
Proof. reflexivity. Qed.

Lemma afterS_core_bind {A B} (m : M A) (k : A -> SM B) d a b c :
  keeps m ->
  afterS (core m ≫= k) (mkSys d a b c) = afterS (k (result m d)) (mkSys d a b c).
Proof.
  intros K. rewrite afterS_bind. rewrite (afterS_core_keeps m d a b c K). reflexivity.
Qed.

Lemma eventsS_core_bind {A B} (m : M A) (k : A -> SM B) d a b c :
  keeps m ->
  eventsS (core m ≫= k) (mkSys d a b c) =
  (Core <$> events m d) ++ eventsS (k (result m d)) (mkSys d a b c).
Proof.
  intros K. rewrite eventsS_bind. rewrite (afterS_core_keeps m d a b c K). reflexivity.
Qed.

Lemma keeps_showBootLogo img : keeps (showBootLogo img).
Proof. unfold showBootLogo. keeps_tac. Qed.

(** The globals when [setup] returns. *)
Lemma afterS_setup card d a b c :
  afterS (setup CARD_NONE CARD_MMC CARD_SD CARD_SDHC logo card) (mkSys d a b c) =
  mkSys (with_currentState LOCKED d) (cardFound CARD_NONE card)
        (if cardFound CARD_NONE card then u64 (cardSize card) `div` (1024 * 1024) else b)
        (if beginOk card then u8 (cardType card) else c).
Proof.
  unfold setup.
  rewrite afterS_boot_bind.
  rewrite afterS_core_bind by apply keeps_emit.
  rewrite !afterS_boot_bind.
  rewrite afterS_core_bind by apply keeps_emit.
  rewrite !afterS_boot_bind.
  rewrite afterS_core_bind by apply keeps_setRGBLeds.
  rewrite afterS_core_bind by apply keeps_emit.
  rewrite !afterS_boot_bind.
  rewrite afterS_core_bind by apply keeps_vibratePattern.
  rewrite afterS_core_bind by apply keeps_showBootLogo.
  rewrite afterS_core_bind by apply keeps_emit.
  rewrite afterS_bind, afterS_initSDCard.
  rewrite afterS_core_bind by apply keeps_setRGBLeds.
  rewrite afterS_core_bind by apply keeps_drawLockScreen.
  reflexivity.
Qed.

(** X15.  When setup returns, whatever the SD card library answered: the
    navigation state is Locked and every other navigation global still has
    its initial value (so the globals are those the passes of the loop start
    from); sdCardDetected is set exactly when SD.begin succeeded and the
    card type, stored in a byte, is not CARD_NONE; sdCardType is assigned
    only after a successful SD.begin; sdCardSize is assigned, in whole
    mebibytes, only when a card was found. *)
Theorem setup_globals (card : SdCard) :
  (forall s,
     let s' := afterS (setup CARD_NONE CARD_MMC CARD_SD CARD_SDHC logo card) s in
     dev s' = with_currentState LOCKED (dev s) /\
     sdCardDetected s' = cardFound CARD_NONE card /\
     sdCardType s' = (if beginOk card then u8 (cardType card) else sdCardType s) /\
     sdCardSize s' =
       (if cardFound CARD_NONE card then u64 (cardSize card) `div` (1024 * 1024)
        else sdCardSize s)) /\
  dev (afterS (setup CARD_NONE CARD_MMC CARD_SD CARD_SDHC logo card) cold) = locked_start.
Proof.
  split.
  - intros [d a b c]. cbv zeta. rewrite afterS_setup. repeat split.
  - unfold cold. rewrite afterS_setup. reflexivity.
Qed.

Lemma sdTrace_cons_other e es : onCard e = false -> sdTrace (e :: es) = sdTrace es.
Proof.
  intros H. unfold sdTrace. apply filter_cons_False. rewrite H. discriminate.
Qed.

Lemma sdTrace_setup card d a b c :
  sdTrace (eventsS (setup CARD_NONE CARD_MMC CARD_SD CARD_SDHC logo card) (mkSys d a b c)) =
  sdTrace (eventsS (initSDCard CARD_NONE CARD_MMC CARD_SD CARD_SDHC card) (mkSys d a b c)).
Proof.
  unfold setup.
  rewrite eventsS_boot_bind, sdTrace_cons_other by reflexivity.
  rewrite eventsS_core_bind, sdTrace_app, sdTrace_core by apply keeps_emit.
  rewrite !eventsS_boot_bind, !sdTrace_cons_other by reflexivity.
  rewrite eventsS_core_bind, sdTrace_app, sdTrace_core by apply keeps_emit.
  rewrite !eventsS_boot_bind, !sdTrace_cons_other by reflexivity.
  rewrite eventsS_core_bind, sdTrace_app, sdTrace_core by apply keeps_setRGBLeds.
  rewrite eventsS_core_bind, sdTrace_app, sdTrace_core by apply keeps_emit.
  rewrite !eventsS_boot_bind, !sdTrace_cons_other by reflexivity.
  rewrite eventsS_core_bind, sdTrace_app, sdTrace_core by apply keeps_vibratePattern.
  rewrite eventsS_core_bind, sdTrace_app, sdTrace_core by apply keeps_showBootLogo.
  rewrite eventsS_core_bind, sdTrace_app, sdTrace_core by apply keeps_emit.
  cbn [app].
  rewrite eventsS_bind, sdTrace_app, afterS_initSDCard.
  rewrite eventsS_core_bind, sdTrace_app, sdTrace_core by apply keeps_setRGBLeds.
  rewrite eventsS_core_bind, sdTrace_app, sdTrace_core by apply keeps_drawLockScreen.
  rewrite eventsS_core, sdTrace_core. cbn [app]. rewrite app_nil_r. reflexivity.
Qed.

(** X16.  The commands setup sends to the SD card and its files: SD.begin,
    always; SD.open of /test.txt for writing, exactly when a card was found;
    the test line and the close, exactly when that open returned a file.
    No file is touched when SD.begin fails or reports no card, and a failed
    open is not followed by a write (nor does it clear sdCardDetected). *)
Theorem setup_sd_commands (card : SdCard) (s : Sys) :
  sdTrace (eventsS (setup CARD_NONE CARD_MMC CARD_SD CARD_SDHC logo card) s) =
  SdBegin SD_CS ::
  if cardFound CARD_NONE card then
    SdOpen "/test.txt" FILE_WRITE ::
    if openOk card then [FilePrintln "Hope Box - SD Card Test"; FileClose] else []
  else [].
Proof. destruct s as [d a b c]. rewrite sdTrace_setup. apply sdTrace_initSDCard. Qed.

Lemma coreTrace_app a b : coreTrace (a ++ b) = coreTrace a ++ coreTrace b.
Proof. unfold coreTrace. apply omap_app. Qed.

Lemma coreTrace_core es : coreTrace (Core <$> es) = es.
Proof.
  induction es as [|e es IH]; [reflexivity|].
  change (coreTrace (Core <$> e :: es)) with (e :: coreTrace (Core <$> es)).
  rewrite IH. reflexivity.
Qed.

Lemma coreTrace_boot e es :
  match e with Core _ => False | _ => True end -> coreTrace (e :: es) = coreTrace es.
Proof. destruct e; intros H; try reflexivity. contradiction. Qed.

Lemma coreTrace_cons_core c es : coreTrace (Core c :: es) = c :: coreTrace es.
Proof. reflexivity. Qed.

Lemma coreTrace_initSDCard card d a b c :
  coreTrace (eventsS (initSDCard CARD_NONE CARD_MMC CARD_SD CARD_SDHC card) (mkSys d a b c)) = [].
Proof.
  rewrite eventsS_initSDCard.
  destruct (beginOk card); [|reflexivity].
  destruct (decide (u8 (cardType card) = CARD_NONE)); [reflexivity|].
  destruct (openOk card); reflexivity.
Qed.

Lemma Quiet_nil : Forall (fun e => drivesMotor e = false) [].
Proof. constructor. Qed.

Lemma Quiet_app a b :
  Forall (fun e => drivesMotor e = false) a -> Forall (fun e => drivesMotor e = false) b ->
  Forall (fun e => drivesMotor e = false) (a ++ b).
Proof. intros Ha Hb. apply Forall_app. split; assumption. Qed.

Ltac quiet_leaf :=
  idtac;
  lazymatch goal with
  | |- always _ (emit _) => apply always_emit; repeat constructor
  | |- always _ (tft _) => apply always_emit; repeat constructor
  | |- always _ (delay _) => apply always_emit; repeat constructor
  | |- always _ (render _) => apply always_emit; repeat constructor
  end.

Ltac quiet_tac := always_with Quiet_nil Quiet_app quiet_leaf.

Lemma Quiet_setRGBLeds c : always (Forall (fun e => drivesMotor e = false)) (setRGBLeds c).
Proof. quiet_tac. Qed.

Lemma Quiet_showBootLogo img :
  always (Forall (fun e => drivesMotor e = false)) (showBootLogo img).
Proof. quiet_tac. Qed.

Lemma Quiet_drawLockScreen : always (Forall (fun e => drivesMotor e = false)) drawLockScreen.
Proof. quiet_tac. Qed.

Lemma Quiet_motorStarts es :
  Forall (fun e => drivesMotor e = false) es -> motorStarts es = 0.
Proof.
  intros H. unfold motorStarts.
  induction H as [|e es He _ IH]; [reflexivity|].
  rewrite filter_cons_False; [exact IH|].
  intros ->. discriminate He.
Qed.

Lemma motorStarts_cons_other e es :
  drivesMotor e = false -> motorStarts (e :: es) = motorStarts es.
Proof.
  intros H. unfold motorStarts. rewrite filter_cons_False; [reflexivity|].
  intros ->. discriminate H.
Qed.

Lemma Quiet_Pulsed es : Forall (fun e => drivesMotor e = false) es -> Pulsed es.
Proof.
  intros H. induction H as [|e es He _ IH]; [constructor|].
  apply Pulsed_other; assumption.
Qed.

Lemma events_emit e d : events (emit e) d = [e].
Proof. reflexivity. Qed.

Lemma events_modify f d : events (modify f) d = [].
Proof. reflexivity. Qed.

Lemma eventsS_emit_bind {B} e (k : unit -> SM B) d a b c :
  eventsS (core (emit e) ≫= k) (mkSys d a b c) = Core e :: eventsS (k tt) (mkSys d a b c).
Proof. reflexivity. Qed.

Lemma eventsS_delay_bind {B} ms (k : unit -> SM B) d a b c :
  eventsS (core (delay ms) ≫= k) (mkSys d a b c) =
  Core (Delay ms) :: eventsS (k tt) (mkSys d a b c).
Proof. reflexivity. Qed.

Lemma eventsS_digitalWrite_bind {B} pin level (k : unit -> SM B) d a b c :
  eventsS (core (digitalWrite pin level) ≫= k) (mkSys d a b c) =
  Core (DigitalWrite pin level) :: eventsS (k tt) (mkSys d a b c).
Proof. reflexivity. Qed.

(** The commands of the sketch proper in [setup] after the first write on
    the motor pin. *)
Lemma coreTrace_setup card d a b c :
  coreTrace (eventsS (setup CARD_NONE CARD_MMC CARD_SD CARD_SDHC logo card) (mkSys d a b c)) =
  Delay 100 :: DigitalWrite VIBRATION_MOTOR_PIN LOW ::
  events (setRGBLeds (Color 100 0 150)) d ++ Show ::
  events (vibratePattern 2 80 40) d ++ events (showBootLogo logo) d ++ Delay 600 ::
  events (setRGBLeds (Color 0 100 255)) d ++ events drawLockScreen d.
Proof.
  unfold setup.
  rewrite eventsS_boot_bind, coreTrace_boot by exact I.
  rewrite eventsS_delay_bind, coreTrace_cons_core.
  rewrite !eventsS_boot_bind.
  rewrite !coreTrace_boot by exact I.
  rewrite eventsS_digitalWrite_bind, coreTrace_cons_core.
  rewrite !eventsS_boot_bind.
  rewrite !coreTrace_boot by exact I.
  rewrite eventsS_core_bind, coreTrace_app, coreTrace_core by apply keeps_setRGBLeds.
  rewrite eventsS_emit_bind.
  rewrite !eventsS_boot_bind.
  rewrite coreTrace_cons_core.
  rewrite !coreTrace_boot by exact I.
  rewrite eventsS_core_bind, coreTrace_app, coreTrace_core by apply keeps_vibratePattern.
  rewrite eventsS_core_bind, coreTrace_app, coreTrace_core by apply keeps_showBootLogo.
  rewrite eventsS_delay_bind.
  rewrite coreTrace_cons_core.
  rewrite eventsS_bind, coreTrace_app, coreTrace_initSDCard, afterS_initSDCard.
  rewrite eventsS_core_bind, coreTrace_app, coreTrace_core by apply keeps_setRGBLeds.
  rewrite eventsS_core_bind, coreTrace_app, coreTrace_core by apply keeps_drawLockScreen.
  rewrite eventsS_core, coreTrace_core.
  rewrite events_modify, app_nil_r, app_nil_l.
  reflexivity.
Qed.


End StartupProperties.


(** ** Boot logo *)

Lemma silent_showBootLogo img :
  silent (showBootLogo img)
    ([Display StartWrite] ++ [Display (SetAddrWindow 0 0 SCREEN_W SCREEN_H)]
     ++ pushes img 0 (SCREEN_W * SCREEN_H) ++ [Display EndWrite]).
Proof. apply (silent_drawFullScreenImage img). Qed.

(** X18.  showBootLogo paints the whole panel: after it, the pixel at
    column x, row y of the screen is entry y * SCREEN_W + x of the logo
    table, whatever the panel held before; the transfer fills its window
    exactly (no pixel is pushed past its end) and the globals are left
    alone.  It is the same transfer as drawFullScreenImage of the table. *)
Theorem showBootLogo_fills_screen (img : Z -> Z) (p0 : Panel) (d : Dev) :
  run (showBootLogo img) d = run (drawFullScreenImage img) d /\
  after (showBootLogo img) d = d /\
  exists p,
    paint (events (showBootLogo img) d) p0 = Some p /\
    forall x y,
      pixel p x y =
      if decide (0 <= x < SCREEN_W /\ 0 <= y < SCREEN_H) then img (y * SCREEN_W + x)
      else pixel p0 x y.
Proof.
  split; [reflexivity|].
  split; [apply (silent_after _ _ d (silent_showBootLogo img))|].
  rewrite (silent_events _ _ d (silent_showBootLogo img)).
  apply paint_fullScreen.
Qed.


(** ** The breathing effect *)

Lemma Color_sum r g b : Color r g b = u8 r * 65536 + u8 g * 256 + u8 b.
Proof.
  unfold Color.
  pose proof (u8_range r) as Hr. pose proof (u8_range g) as Hg. pose proof (u8_range b) as Hb.
  rewrite !Z.shiftl_mul_pow2 by lia.
  rewrite (lor_disjoint (u8 g) (u8 b) 8) by lia.
  rewrite (lor_disjoint (u8 r) _ 16) by lia.
  lia.
Qed.

Lemma channel_Color r g b :
  channel 2 (Color r g b) = u8 r /\ channel 1 (Color r g b) = u8 g /\
  channel 0 (Color r g b) = u8 b.
Proof.
  clear pic1.
  rewrite Color_sum. unfold channel.
  pose proof (u8_range r) as Hr. pose proof (u8_range g) as Hg. pose proof (u8_range b) as Hb.
  generalize dependent (u8 r). generalize dependent (u8 g). generalize dependent (u8 b).
  intros cb Hb cg Hg cr Hr.
  change 255 with (Z.ones 8). rewrite !Z.land_ones, !Z.shiftr_div_pow2 by lia.
  change (2 ^ (8 * 2)) with 65536. change (2 ^ (8 * 1)) with 256. change (2 ^ (8 * 0)) with 1.
  change (2 ^ 8) with 256.
  repeat split; Z.div_mod_to_equations; lia.
Qed.

Lemma channel_range k c : 0 <= channel k c < 256.
Proof.
  unfold channel. change 255 with (Z.ones 8). rewrite Z.land_ones by lia.
  apply Z.mod_pos_bound. lia.
Qed.

(** The commands of one step of a fade. *)
Lemma silent_breathStep r g b brightness :
  silent (breathStep r g b brightness)
    (events (setRGBLeds (Color (u8 (idiv (r * brightness) 255))
                               (u8 (idiv (g * brightness) 255))
                               (u8 (idiv (b * brightness) 255)))) power_on
     ++ [Delay 10]).
Proof. intros d. reflexivity. Qed.

Lemma silent_cycle r g b :
  silent (for_by 0 255 5 (breathStep r g b) ;; for_down 255 0 5 (breathStep r g b))
    (flat_map (fun br => events (breathStep r g b br) power_on)
       ((fun k => 0 + k * 5) <$> seqZ 0 ((255 - 0 + 5 - 1) `div` 5))
     ++ flat_map (fun br => events (breathStep r g b br) power_on)
       ((fun k => 255 - k * 5) <$> seqZ 0 ((255 - 0) `div` 5 + 1))).
Proof.
  apply silent_seq.
  - unfold for_by. apply silent_forEach. intros br d. reflexivity.
  - unfold for_down. apply silent_forEach. intros br d. reflexivity.
Qed.

Lemma silent_rgbBreathEffect color cycles :
  let r := u8 (Z.land (Z.shiftr color 16) 0xFF) in
  let g := u8 (Z.land (Z.shiftr color 8) 0xFF) in
  let b := u8 (Z.land color 0xFF) in
  silent (rgbBreathEffect color cycles)
    (flat_map (fun _ : Z =>
       flat_map (fun br => events (breathStep r g b br) power_on)
         ((fun k => 0 + k * 5) <$> seqZ 0 ((255 - 0 + 5 - 1) `div` 5))
       ++ flat_map (fun br => events (breathStep r g b br) power_on)
         ((fun k => 255 - k * 5) <$> seqZ 0 ((255 - 0) `div` 5 + 1)))
       (seqZ 0 (cycles - 0))).
Proof.
  intros r g b. unfold rgbBreathEffect. cbv zeta. fold r g b.
  unfold for_lt. apply silent_forEach. intros _. apply silent_cycle.
Qed.

Lemma breath_channels color :
  u8 (Z.land (Z.shiftr color 16) 0xFF) = channel 2 color /\
  u8 (Z.land (Z.shiftr color 8) 0xFF) = channel 1 color /\
  u8 (Z.land color 0xFF) = channel 0 color.
Proof.
  repeat split.
  - apply (u8_small (channel 2 color)), channel_range.
  - apply (u8_small (channel 1 color)), channel_range.
  - rewrite <- (Z.shiftr_0_r color) at 1. apply (u8_small (channel 0 color)), channel_range.
Qed.

Lemma pack_channels color :
  Color (channel 2 color) (channel 1 color) (channel 0 color) = Z.land color 0xFFFFFF.
Proof.
  clear pic1.
  rewrite Color_sum. rewrite !u8_small by apply channel_range.
  unfold channel. change 255 with (Z.ones 8). change 16777215 with (Z.ones 24).
  rewrite !Z.land_ones, !Z.shiftr_div_pow2 by lia.
  change (2 ^ (8 * 2)) with 65536. change (2 ^ (8 * 1)) with 256. change (2 ^ (8 * 0)) with 1.
  change (2 ^ 8) with 256. change (2 ^ 24) with 16777216.
  Z.div_mod_to_equations. lia.
Qed.

Lemma duration_flat_map {A} (f : A -> list Event) (l : list A) k :
  (forall x, duration (f x) = k) ->
  duration (flat_map f l) = Z.of_nat (length l) * k.
Proof.
  intros H. induction l as [|x l IH]; [reflexivity|].
  cbn [flat_map length]. rewrite duration_app, H, IH. lia.
Qed.

Lemma scaled_le v brightness :
  0 <= v < 256 -> 0 <= brightness <= 255 ->
  0 <= idiv (v * brightness) 255 <= v.
Proof.
  intros Hv Hb. unfold idiv. rewrite Z.quot_div_nonneg by nia.
  split; [apply Z.div_pos; nia|].
  apply Z.div_le_upper_bound; nia.
Qed.

Lemma breathStep_events r g b br :
  events (breathStep r g b br) power_on =
  let c := Color (u8 (idiv (r * br) 255)) (u8 (idiv (g * br) 255)) (u8 (idiv (b * br) 255)) in
  [SetPixelColor 0 c; SetPixelColor 1 c; SetPixelColor 2 c; Show; Delay 10].
Proof. reflexivity. Qed.

Lemma fade_levels :
  Forall (fun br => 0 <= br <= 255)
    ((fun k => 0 + k * 5) <$> seqZ 0 ((255 - 0 + 5 - 1) `div` 5)) /\
  Forall (fun br => 0 <= br <= 255)
    ((fun k => 255 - k * 5) <$> seqZ 0 ((255 - 0) `div` 5 + 1)).
Proof.
  change ((255 - 0 + 5 - 1) `div` 5) with 51. change ((255 - 0) `div` 5 + 1) with 52.
  split; apply Forall_forall; intros x Hx;
    apply list_elem_of_fmap in Hx as (k & -> & Hk); apply elem_of_seqZ in Hk; lia.
Qed.



(** ** The pages of the two text contents *)

Lemma page_cases (P : Z -> Prop) :
  P 0 -> P 1 -> P 2 -> P 3 -> P 4 -> P 5 ->
  (forall page, 6 <= page -> P page) ->
  forall page, 0 <= page -> P page.
Proof.
  intros H0 H1 H2 H3 H4 H5 H page Hp.
  destruct (decide (page = 0)) as [-> | ?]; [exact H0|].
  destruct (decide (page = 1)) as [-> | ?]; [exact H1|].
  destruct (decide (page = 2)) as [-> | ?]; [exact H2|].
  destruct (decide (page = 3)) as [-> | ?]; [exact H3|].
  destruct (decide (page = 4)) as [-> | ?]; [exact H4|].
  destruct (decide (page = 5)) as [-> | ?]; [exact H5|].
  apply H. lia.
Qed.

Lemma events_drawLetterContent_beyond page d :
  6 <= page ->
  events (drawLetterContent page) d =
  [Display (SetTextSize 1); Display (SetTextColor TEXT_DARK)].
Proof.
  intros H. destruct page as [|p|p]; try lia.
  destruct p as [[[?|?|]|[?|?|]|]|[[?|?|]|[?|?|]|]|]; try lia; reflexivity.
Qed.

Lemma events_drawQuoteContent_beyond page d :
  2 <= page ->
  events (drawQuoteContent page) d =
  [Display (SetTextSize 1); Display (SetTextColor TEXT_DARK)].
Proof.
  intros H. destruct page as [|p|p]; try lia.
  destruct p as [[?|?|]|[?|?|]|]; try lia; reflexivity.
Qed.



(** ** The colour on the LED strip after a press *)

Lemma glow_app a b s : glow (a ++ b) s = glow b (glow a s).
Proof. apply foldl_app. Qed.

Lemma Unlit_nil : (fun es => forall s, glow es s = s) [].
Proof. intros s. reflexivity. Qed.

Lemma Unlit_app a b :
  (fun es => forall s, glow es s = s) a -> (fun es => forall s, glow es s = s) b ->
  (fun es => forall s, glow es s = s) (a ++ b).
Proof. cbv beta. intros Ha Hb s. rewrite glow_app, Ha, Hb. reflexivity. Qed.

Ltac unlit_leaf :=
  idtac;
  lazymatch goal with
  | |- always _ (emit _) => apply always_emit; intros ?; reflexivity
  | |- always _ (tft _) => apply always_emit; intros ?; reflexivity
  | |- always _ (delay _) => apply always_emit; intros ?; reflexivity
  | |- always _ (render _) => apply always_emit; intros ?; reflexivity
  | |- always _ (digitalWrite _ _) => apply always_emit; intros ?; reflexivity
  end.

Ltac unlit_tac := always_with Unlit_nil Unlit_app unlit_leaf.

Lemma Unlit_vibrate n : always (fun es => forall s, glow es s = s) (vibrate n).
Proof. unlit_tac. Qed.

Lemma Unlit_drawMenuItem i b : always (fun es => forall s, glow es s = s) (drawMenuItem i b).
Proof. unlit_tac. Qed.

Lemma Unlit_showContent idx : always (fun es => forall s, glow es s = s) (showContent idx).
Proof. unlit_tac. Qed.

Lemma shows_setRGBLeds c d s : shows c (glow (events (setRGBLeds c) d) s).
Proof.
  intros k Hk. unfold RGB_LED_COUNT in Hk.
  assert (K : k = 0 \/ k = 1 \/ k = 2) by lia.
  destruct K as [-> | [-> | ->]]; reflexivity.
Qed.

Lemma events_menuAmbient d :
  0 <= selectedMenuItem d < 4 ->
  events menuAmbient d = events (setRGBLeds (ambient (selectedMenuItem d))) d.
Proof.
  intros H. unfold menuAmbient. rewrite events_gets_bind.
  destruct (sel_cases _ H) as [-> | [-> | [-> | ->]]]; reflexivity.
Qed.

(** The strip after the menu handlers have moved the selection. *)
Lemma glow_menu_move (sel' : Z) (old : Z) d s :
  0 <= sel' < 4 ->
  shows (ambient sel')
    (glow (events (modify (with_selectedMenuItem sel') ;;
                   menuNavigationVibration ;;
                   menuAmbient ;;
                   drawMenuItem old false ;;
                   sel ← gets selectedMenuItem;
                   drawMenuItem sel true) d) s).
Proof.
  intros H.
  rewrite events_modify_bind.
  set (d1 := with_selectedMenuItem sel' d).
  rewrite events_keeps_bind by apply keeps_menuNavigationVibration.
  rewrite events_keeps_bind by apply keeps_menuAmbient.
  rewrite events_keeps_bind by apply keeps_drawMenuItem.
  rewrite events_gets_bind.
  rewrite !glow_app.
  rewrite (Unlit_vibrate VIB_SHORT d1 s : glow (events menuNavigationVibration d1) s = s).
  rewrite (Unlit_drawMenuItem _ _ d1), (Unlit_drawMenuItem _ _ d1).
  rewrite (events_menuAmbient d1) by exact H.
  apply shows_setRGBLeds.
Qed.

Lemma shows_drawMenu d s : shows (ambient 0) (glow (events drawMenu d) s).
Proof.
  unfold drawMenu.
  rewrite events_keeps_bind by apply keeps_setRGBLeds.
  rewrite glow_app.
  match goal with
  | |- shows _ (glow (events ?m ?d0) ?s0) =>
      assert (U : always (fun es => forall s, glow es s = s) m) by unlit_tac;
      rewrite (U d0 s0)
  end.
  apply shows_setRGBLeds.
Qed.

Lemma events_loop_pressing_unlocked b at_ now d :
  lastLevel b d = HIGH -> currentState (pressed b at_ d) <> LOCKED ->
  events (loop (pressing b at_ now)) d = Delay DEBOUNCE :: events (onButton b at_) d.
Proof.
  intros Hb St. unfold events at 1.
  rewrite run_loop_pressing; [reflexivity | exact Hb |].
  rewrite after_onButton. apply timedOut_unlocked, St.
Qed.

Lemma glow_pause ms es s : glow (Delay ms :: es) s = glow es s.
Proof. reflexivity. Qed.

Lemma pressed_menu_state b now d :
  currentState d = MENU -> currentState (pressed b now d) <> LOCKED.
Proof.
  intros St. destruct (unlocked_pressed b now d (or_introl St)) as ([S | S] & _);
    rewrite S; discriminate.
Qed.

Lemma pressed_content_state b now d :
  currentState d = CONTENT -> currentState (pressed b now d) <> LOCKED.
Proof.
  intros St. destruct (unlocked_pressed b now d (or_intror St)) as ([S | S] & _);
    rewrite S; discriminate.
Qed.

(** X21.  The colour on the LED strip after an accepted press, whatever it
    showed before.  After DOWN or UP in the menu all three pixels show the
    colour of the newly selected entry; after SELECT in the menu they show
    the dim white (50, 50, 50) of the content screens; after BACK in a
    content they show the colour of entry 0, whatever entry is selected
    (drawMenu does not look at the selection). *)
Theorem leds_after_a_press (d : Dev) (s : Strip) (at_ now : Z) :
  (currentState d = MENU -> 0 <= selectedMenuItem d < 4 -> lastButton1 d = HIGH ->
   shows (ambient ((selectedMenuItem d + 1) mod 4))
         (glow (events (loop (pressing Button1 at_ now)) d) s)) /\
  (currentState d = MENU -> 0 <= selectedMenuItem d < 4 -> lastButton0 d = HIGH ->
   shows (ambient ((selectedMenuItem d - 1 + 4) mod 4))
         (glow (events (loop (pressing Button0 at_ now)) d) s)) /\
  (currentState d = MENU -> lastButtonSelect d = HIGH ->
   shows (Color 50 50 50) (glow (events (loop (pressing ButtonSelect at_ now)) d) s)) /\
  (currentState d = CONTENT -> lastButtonBack d = HIGH ->
   shows (ambient 0) (glow (events (loop (pressing ButtonBack at_ now)) d) s)).
Proof.
  split; [|split; [|split]].
  - intros St Sel Hb.
    rewrite (events_loop_pressing_unlocked Button1) by (auto using pressed_menu_state).
    rewrite glow_pause. cbn [onButton]. unfold onButton1.
    rewrite events_modify_bind.
    rewrite events_keeps_bind by apply keeps_buttonPressVibration.
    rewrite events_gets_bind. unfold id.
    rewrite dispatch_menu by exact St.
    rewrite glow_app, (Unlit_vibrate 30 _ s : glow (events buttonPressVibration _) s = s).
    cbn [selectedMenuItem with_lastPressTime].
    assert (E : u8 (irem (selectedMenuItem d + 1) 4) = (selectedMenuItem d + 1) mod 4).
    { unfold irem. rewrite Z.rem_mod_nonneg by lia. apply u8_small.
      pose proof (Z.mod_pos_bound (selectedMenuItem d + 1) 4). lia. }
    rewrite E. apply glow_menu_move. apply Z.mod_pos_bound. lia.
  - intros St Sel Hb.
    rewrite (events_loop_pressing_unlocked Button0) by (auto using pressed_menu_state).
    rewrite glow_pause. cbn [onButton]. unfold onButton0.
    rewrite events_modify_bind.
    rewrite events_keeps_bind by apply keeps_buttonPressVibration.
    rewrite events_gets_bind. unfold id.
    rewrite dispatch_menu by exact St.
    rewrite glow_app, (Unlit_vibrate 30 _ s : glow (events buttonPressVibration _) s = s).
    cbn [selectedMenuItem with_lastPressTime].
    assert (E : (if decide (selectedMenuItem d = 0) then 3 else u8 (selectedMenuItem d - 1))
                = (selectedMenuItem d - 1 + 4) mod 4).
    { destruct (sel_cases _ Sel) as [-> | [-> | [-> | ->]]]; reflexivity. }
    rewrite E. apply glow_menu_move. apply Z.mod_pos_bound. lia.
  - intros St Hb.
    rewrite (events_loop_pressing_unlocked ButtonSelect) by (auto using pressed_menu_state).
    rewrite glow_pause. cbn [onButton]. unfold events at 1.
    rewrite (run_onButtonSelect_menu at_ d St). fold (events (buttonPressVibration ;; showContent (selectedMenuItem d) ;; modify (with_currentState CONTENT) ;; setRGBLeds (Color 50 50 50)) (with_lastPressTime (u32 at_) d)).
    rewrite events_keeps_bind by apply keeps_buttonPressVibration.
    rewrite events_bind, events_modify_bind.
    rewrite !glow_app.
    rewrite (Unlit_vibrate 30 _ s : glow (events buttonPressVibration _) s = s).
    rewrite (Unlit_showContent _ _ s).
    apply shows_setRGBLeds.
  - intros St Hb.
    rewrite (events_loop_pressing_unlocked ButtonBack) by (auto using pressed_content_state).
    rewrite glow_pause. cbn [onButton]. unfold onButtonBack.
    rewrite events_modify_bind.
    rewrite events_keeps_bind by apply keeps_buttonPressVibration.
    rewrite events_gets_bind. unfold id.
    rewrite dispatch_back by exact St.
    rewrite glow_app, (Unlit_vibrate 30 _ s : glow (events buttonPressVibration _) s = s).
    rewrite events_keeps_bind by apply keeps_drawMenu.
    rewrite glow_app.
    match goal with |- shows _ (glow (events (modify ?f) ?x) ?y) =>
      change (glow (events (modify f) x) y) with y end.
    apply shows_drawMenu.
Qed.



(** ** The About page and the SD card *)

(** The commands of the About page, for either storage status. *)
Lemma eventsS_drawAboutContent page d a b c :
  eventsS (drawAboutContent page) (mkSys d a b c) =
  eventsS (drawAboutContent 0) (mkSys power_on a 0 0) /\
  afterS (drawAboutContent page) (mkSys d a b c) = mkSys d a b c.
Proof. destruct a; split; reflexivity. Qed.

Section AboutPage.

Variables CARD_NONE CARD_MMC CARD_SD CARD_SDHC : Z.
Variable logo : Z -> Z.

(** X23.  The About page drawn after setup reports what initSDCard found:
    its storage line reads SD Card Ready, with a green marker, exactly
    when SD.begin succeeded and the card type is not CARD_NONE, and
    No SD Card, with a red marker, otherwise.  The page ignores its page
    argument and leaves all the globals alone. *)
Theorem about_reports_the_card (card : SdCard) (s : Sys) (page : Z) :
  let s' := afterS (setup CARD_NONE CARD_MMC CARD_SD CARD_SDHC logo card) s in
  let es := eventsS (drawAboutContent page) s' in
  afterS (drawAboutContent page) s' = s' /\
  (forall page', eventsS (drawAboutContent page') s' = es) /\
  (cardFound CARD_NONE card = true ->
   In (Core (Display (Print "SD Card Ready"))) es /\
   In (Core (Display (FillCircle 15 100 6 SUCCESS_GREEN))) es /\
   ~ In (Core (Display (Print "No SD Card"))) es) /\
  (cardFound CARD_NONE card = false ->
   In (Core (Display (Print "No SD Card"))) es /\
   In (Core (Display (FillCircle 15 100 6 ERROR_RED))) es /\
   ~ In (Core (Display (Print "SD Card Ready"))) es).
Proof.
  cbv zeta. destruct s as [d a b c]. rewrite afterS_setup.
  set (d' := with_currentState LOCKED d).
  set (b' := if cardFound CARD_NONE card then _ else _).
  set (c' := if beginOk card then _ else _).
  destruct (eventsS_drawAboutContent page d' (cardFound CARD_NONE card) b' c') as [E A].
  split; [exact A|].
  split.
  { intros page'.
    destruct (eventsS_drawAboutContent page' d' (cardFound CARD_NONE card) b' c') as [E' _].
    rewrite E, E'. reflexivity. }
  rewrite E. clear E A.
  split; intros F; rewrite F.
  - split; [|split].
    + apply list_elem_of_In. apply (bool_decide_eq_true_1 _). vm_compute. reflexivity.
    + apply list_elem_of_In. apply (bool_decide_eq_true_1 _). vm_compute. reflexivity.
    + intros H. apply list_elem_of_In in H. revert H.
      apply (bool_decide_eq_false_1 _). vm_compute. reflexivity.
  - split; [|split].
    + apply list_elem_of_In. apply (bool_decide_eq_true_1 _). vm_compute. reflexivity.
    + apply list_elem_of_In. apply (bool_decide_eq_true_1 _). vm_compute. reflexivity.
    + intros H. apply list_elem_of_In in H. revert H.
      apply (bool_decide_eq_false_1 _). vm_compute. reflexivity.
Qed.

End AboutPage.


(** ** What the lock screen shows of the attempt *)

(** X24.  drawPasscodeCircles shows the attempt as it stands: the digits
    it prints are the symbols entered so far, in the order they were
    entered (the symbols are shown in clear, not masked), and it draws one
    empty marker for each of the PASS_LENGTH slots still to be entered. *)
Theorem passcode_circles_show_the_attempt (d : Dev) :
  length (enteredPasscode d) = Z.to_nat PASS_LENGTH -> 0 <= passIndex d <= PASS_LENGTH ->
  let es := events drawPasscodeCircles d in
  after drawPasscodeCircles d = d /\
  omap printedDigit es = take (Z.to_nat (passIndex d)) (enteredPasscode d) /\
  Z.of_nat (length (filter (fun e => emptySlot e = true) es)) = PASS_LENGTH - passIndex d.
Proof.
  intros L Pi. cbv zeta.
  split; [apply keeps_drawPasscodeCircles|].
  destruct d as [st slots pi lp b0 b1 bs bb sel cp mp lm]. cbn in L, Pi.
  destruct slots as [|x0 [|x1 [|x2 [|x3 [|? ?]]]]]; try discriminate L.
  unfold PASS_LENGTH in Pi.
  assert (P : pi = 0 \/ pi = 1 \/ pi = 2 \/ pi = 3 \/ pi = 4) by lia.
  destruct P as [-> | [-> | [-> | [-> | ->]]]]; split; reflexivity.
Qed.

(** ** Every accepted press is acknowledged *)

Lemma lastPressTime_pressed b now d : lastPressTime (pressed b now d) = u32 now.
Proof.
  unfold pressed. cbv zeta.
  destruct (acceptingSymbol d).
  - unfold entered. cbv zeta. case_decide; [|reflexivity].
    destruct (result checkPasscode _); reflexivity.
  - unfold turned, opened.
    destruct (currentState d), b; repeat case_decide; try reflexivity.
    destruct (selectedMenuItem d) as [|[[|[]|]|[|[]|]|]|]; reflexivity.
Qed.

Lemma events_onButton_prefix b now d :
  exists rest,
    events (onButton b now) d =
    [DigitalWrite VIBRATION_MOTOR_PIN HIGH; Delay 30; DigitalWrite VIBRATION_MOTOR_PIN LOW]
    ++ rest.
Proof.
  destruct b; cbn [onButton];
    [unfold onButton0 | unfold onButton1 | unfold onButtonSelect | unfold onButtonBack];
    rewrite events_modify_bind;
    rewrite events_keeps_bind by apply keeps_buttonPressVibration;
    eexists; reflexivity.
Qed.

(** X25.  An accepted press is acknowledged in every state of the
    navigation, whether or not it has any other effect: the pass starts
    with the debounce pause and the 30 ms pulse of the motor, and the
    clock value read at the press is in lastPressTime when the pass ends. *)
Theorem every_press_is_acknowledged (b : Button) (at_ now : Z) (d : Dev) :
  lastLevel b d = HIGH ->
  lastPressTime (after (loop (pressing b at_ now)) d) = u32 at_ /\
  exists rest,
    events (loop (pressing b at_ now)) d =
    [Delay DEBOUNCE; DigitalWrite VIBRATION_MOTOR_PIN HIGH; Delay 30;
     DigitalWrite VIBRATION_MOTOR_PIN LOW] ++ rest.
Proof.
  intros Hb. split.
  - rewrite after_loop_passed, (passed_pressing b at_ now d Hb). cbv zeta.
    assert (E : lastPressTime (onlyLow b (pressed b at_ d)) = u32 at_)
      by apply lastPressTime_pressed.
    destruct (timedOut _ _); exact E.
  - rewrite events_loop. cbv zeta.
    unfold events at 1. rewrite (run_handleButtons_pressing b at_ now d Hb). cbn [snd].
    destruct (events_onButton_prefix b at_ d) as (rest & ->).
    eexists. cbn [app]. reflexivity.
Qed.

End Firmware.

(** * Concrete runs *)

Lemma unlocked_eq :
  unlocked test_card = mkDev MENU [0; 0; 0; 0] 4 300 true true true true 0 0 0 0.
Proof. vm_compute. reflexivity. Qed.

Lemma reading_eq :
  reading test_card = mkDev CONTENT [0; 0; 0; 0] 4 400 true true true true 0 0 6 0.
Proof. vm_compute. reflexivity. Qed.

Lemma one_symbol_eq :
  one_symbol test_card = mkDev LOCKED [1; 0; 0; 0] 1 0 true true true true 0 0 0 0.
Proof. vm_compute. reflexivity. Qed.

Lemma quiet_released now d : quiet (released now) d.
Proof. intros b H. discriminate H. Qed.

Lemma motor_free_iff l :
  Forall (fun e => drivesMotor e = false) l <-> existsb drivesMotor l = false.
Proof.
  induction l as [|x l IH]; simpl.
  - split; [reflexivity | constructor].
  - rewrite Forall_cons, IH. destruct (drivesMotor x); simpl; intuition congruence.
Qed.

(** ** C1 *)

Lemma checkPasscode_iff_reference_witness :
  length (enteredPasscode (one_symbol test_card)) = Z.to_nat PASS_LENGTH /\
  (result checkPasscode (one_symbol test_card) = true <->
   enteredPasscode (one_symbol test_card) = CORRECT_PASSCODE).
Proof.
  assert (L : length (enteredPasscode (one_symbol test_card)) = Z.to_nat PASS_LENGTH)
    by (vm_compute; reflexivity).
  split; [exact L | exact (proj1 (checkPasscode_iff_reference _ L))].
Defined.

(** ** C2 *)

(** The claim fails on a successful unlock: after the four presses of UP
    the machine is in Menu and the cursor is still 4. *)
Lemma unlock_leaves_attempt_full :
  currentState (unlocked test_card) = MENU /\
  ~ (passIndex (unlocked test_card) = 0 /\
     enteredPasscode (unlocked test_card) = [0; 0; 0; 0]).
Proof.
  rewrite unlocked_eq. split; [reflexivity|].
  intros [H _]. discriminate H.
Qed.

Lemma attempt_reset_cases_witness :
  (let d' := after (loop test_card (released 5001)) (one_symbol test_card) in
   currentState d' = LOCKED /\ passIndex d' = 0 /\ enteredPasscode d' = [0; 0; 0; 0]) /\
  (let d := mkDev LOCKED [0; 0; 0; 0] 3 200 true true true true 0 0 0 0 in
   let d' := after (loop test_card (pressing Button1 300 300)) d in
   currentState d' = LOCKED /\ passIndex d' = 0 /\ enteredPasscode d' = [0; 0; 0; 0]) /\
  (let d := mkDev LOCKED [0; 0; 0; 0] 3 200 true true true true 0 0 0 0 in
   let d' := after (loop test_card (pressing Button0 300 300)) d in
   currentState d' = MENU /\ passIndex d' = PASS_LENGTH /\
   enteredPasscode d' = CORRECT_PASSCODE).
Proof.
  destruct (attempt_reset_cases test_card) as [T F].
  split; [|split].
  - apply (T (one_symbol test_card) (released 5001)).
    + rewrite one_symbol_eq. reflexivity.
    + rewrite one_symbol_eq. reflexivity.
    + rewrite one_symbol_eq. reflexivity.
    + apply quiet_released.
    + rewrite one_symbol_eq. reflexivity.
  - apply (F (mkDev LOCKED [0; 0; 0; 0] 3 200 true true true true 0 0 0 0) Button1 300 300);
      try reflexivity.
    discriminate.
  - apply (F (mkDev LOCKED [0; 0; 0; 0] 3 200 true true true true 0 0 0 0) Button0 300 300);
      reflexivity.
Defined.

(** ** C3 *)

Lemma page_cursor_in_range_witness :
  let m := mkDev MENU [0; 0; 0; 0] 4 300 true true true true 2 0 0 0 in
  let d := mkDev CONTENT [0; 0; 0; 0] 4 400 true true true true 0 0 6 0 in
  let ticks := click Button1 500 500 500 ++ click Button0 600 600 600
               ++ click Button0 700 700 700 in
  (let d' := after (loop test_card (pressing ButtonSelect 400 400)) m in
   currentState d' = CONTENT /\ currentPage d' = 0 /\ maxPages d' = 2) /\
  (let d' := after (passes test_card ticks) d in
   currentState d' = CONTENT /\ maxPages d' = maxPages d /\
   0 <= currentPage d' < maxPages d) /\
  (let t := pressing Button0 800 800 in
   currentPage (after (loop test_card t) d) = currentPage d /\
   Forall (fun e => touchesDisplay e = false) (events (loop test_card t) d)).
Proof.
  intros m d ticks.
  destruct (page_cursor_in_range test_card) as (H0 & H1 & H2 & _).
  split; [|split].
  - destruct (H0 m 400 400) as (A & B & C & _); [reflexivity | simpl; lia | reflexivity |].
    split; [exact A | split; [exact B | exact C]].
  - apply H1; [reflexivity | simpl; lia | simpl; lia | repeat constructor].
  - apply H2; reflexivity.
Defined.

(** ** C4 *)

Lemma menu_selection_cyclic_witness :
  let d := mkDev MENU [0; 0; 0; 0] 4 300 true true true true 3 0 0 0 in
  selectedMenuItem (after (loop test_card (pressing Button1 400 400)) d) = (3 + 1) mod 4 /\
  selectedMenuItem (after (loop test_card (pressing Button0 400 400)) d) = (3 - 1 + 4) mod 4 /\
  selectedMenuItem
    (after (passes test_card
              (clicks Button1 [(1, 1, 1); (2, 2, 2); (3, 3, 3); (4, 4, 4)])) d) = 3.
Proof.
  intros d.
  destruct (menu_selection_cyclic test_card d) as (H1 & H2 & H3);
    [reflexivity | simpl; lia | reflexivity | reflexivity |].
  split; [apply H1 | split; [apply H2 |]].
  apply (H3 Button1 [(1, 1, 1); (2, 2, 2); (3, 3, 3); (4, 4, 4)]); [right|]; reflexivity.
Defined.

(** ** C5 *)

(** The claim fails at exactly TIMEOUT_MS, and outside the Locked state:
    with one symbol entered at time 0, the pass at time 5000 leaves the
    attempt as it is; and in the menu, where the cursor is still 4, no
    idle time resets it. *)
Lemma idle_timeout_not_at_5000 :
  (let d := one_symbol test_card in
   let d' := after (loop test_card (released 5000)) d in
   passIndex d > 0 /\ u32 (u32 5000 - lastPressTime d) >= TIMEOUT_MS /\
   ~ (passIndex d' = 0 /\ enteredPasscode d' = [0; 0; 0; 0])) /\
  (let d := unlocked test_card in
   let d' := after (loop test_card (released 100000)) d in
   passIndex d > 0 /\ u32 (u32 100000 - lastPressTime d) >= TIMEOUT_MS /\
   ~ (passIndex d' = 0 /\ enteredPasscode d' = [0; 0; 0; 0])).
Proof.
  split; cbv zeta.
  - rewrite one_symbol_eq. split; [reflexivity|]. split; [discriminate|].
    intros [H _]. vm_compute in H. discriminate H.
  - rewrite unlocked_eq. split; [reflexivity|]. split; [discriminate|].
    intros [H _]. vm_compute in H. discriminate H.
Qed.

Lemma idle_timeout_reset_witness :
  let d := one_symbol test_card in
  (let d' := after (loop test_card (released 5001)) d in
   passIndex d' = 0 /\ enteredPasscode d' = [0; 0; 0; 0]) /\
  (let d' := after (loop test_card (released 5000)) d in
   passIndex d' = passIndex d /\ enteredPasscode d' = enteredPasscode d).
Proof.
  intros d.
  assert (E : d = mkDev LOCKED [1; 0; 0; 0] 1 0 true true true true 0 0 0 0)
    by exact one_symbol_eq.
  split.
  - destruct (idle_timeout_reset test_card d (released 5001)) as [H _];
      [rewrite E; reflexivity | rewrite E; reflexivity | rewrite E; reflexivity
      | apply quiet_released |].
    apply H. rewrite E. reflexivity.
  - destruct (idle_timeout_reset test_card d (released 5000)) as [_ H];
      [rewrite E; reflexivity | rewrite E; reflexivity | rewrite E; reflexivity
      | apply quiet_released |].
    apply H. rewrite E. discriminate.
Defined.

(** ** C6 *)

(** The claim fails on the haptic side: "previous" at page 0 of the first
    content runs the motor for the press pulse, and the press time is
    recorded. *)
Lemma ignored_page_turn_still_pulses :
  let d := reading test_card in
  let t := pressing Button0 500 500 in
  currentState d = CONTENT /\ currentPage d = 0 /\
  ~ (after (loop test_card t) d = d /\
     Forall (fun e => drivesMotor e = false) (events (loop test_card t) d) /\
     Forall (fun e => touchesDisplay e = false) (events (loop test_card t) d)).
Proof.
  cbv zeta. rewrite reading_eq. split; [reflexivity|]. split; [reflexivity|].
  intros (_ & H & _). apply motor_free_iff in H. vm_compute in H. discriminate H.
Qed.

Lemma ignored_page_turn_witness :
  let d := mkDev CONTENT [0; 0; 0; 0] 4 400 true true true true 0 0 1 0 in
  run (loop test_card (pressing Button0 500 500)) d =
    (tt, with_lastButtons LOW HIGH HIGH HIGH (with_lastPressTime (u32 500) d),
     [Delay DEBOUNCE; DigitalWrite VIBRATION_MOTOR_PIN HIGH; Delay 30;
      DigitalWrite VIBRATION_MOTOR_PIN LOW]) /\
  run (loop test_card (pressing Button1 500 500)) d =
    (tt, with_lastButtons HIGH LOW HIGH HIGH (with_lastPressTime (u32 500) d),
     [Delay DEBOUNCE; DigitalWrite VIBRATION_MOTOR_PIN HIGH; Delay 30;
      DigitalWrite VIBRATION_MOTOR_PIN LOW]).
Proof.
  intros d.
  destruct (ignored_page_turn test_card d 500 500) as [H0 H1]; [reflexivity|].
  split; [apply H0 | apply H1]; reflexivity.
Defined.

(** ** C7 *)

Lemma slide_transition_witness :
  let p0 := mkPanel 0 0 0 0 0 (fun _ _ => 0) in
  let d := mkDev CONTENT [0; 0; 0; 0] 4 400 true true true true 1 0 3 0 in
  let d' := after (loop test_card (pressing Button1 500 500)) d in
  (exists p,
     paint (events (for_le 1 3 (slideStep test_card true (idiv SCREEN_W 16))) d) p0 = Some p /\
     pixel p 5 7 = test_card (7 * SCREEN_W + (SCREEN_W - 24 + 5)) /\
     pixel p 24 7 = 0) /\
  (events (loop test_card (pressing Button1 500 500)) d =
     Delay DEBOUNCE :: events buttonPressVibration d ++ events pageTurnVibration d
     ++ events (slideAnimation test_card (bool_decide (currentPage d' > currentPage d))) d
     ++ events indicatorIfPaged d'
   /\ memories d').
Proof.
  intros p0 d d'.
  destruct (slide_transition test_card) as (_ & S & _ & T).
  assert (M : memories d) by (unfold memories; simpl; repeat split; lia).
  split.
  - destruct (S true 3 p0 d) as (p & Hp & Hpix); [lia|].
    exists p. split; [exact Hp|]. split.
    + rewrite Hpix. reflexivity.
    + rewrite Hpix. reflexivity.
  - apply (T Button1 500 500 d M); [right; reflexivity | reflexivity |].
    unfold after.
    rewrite (memories_next test_card 500 500 d M); [|simpl; lia | reflexivity].
    simpl. lia.
Defined.

(** ** C8 *)

Lemma memories_end_to_end_witness :
  let d := mkDev MENU [0; 0; 0; 0] 4 300 true true true true 1 0 0 0 in
  let d1 := after (passes test_card (click ButtonSelect 1 1 1)) d in
  let d2 := after (passes test_card (click Button1 2 2 2)) d1 in
  let d3 := after (passes test_card (click Button1 3 3 3)) d2 in
  let d4 := after (loop test_card (pressing ButtonBack 4 4)) d3 in
  (currentState d1 = CONTENT /\ selectedMenuItem d1 = 1 /\
   currentPage d1 = 0 /\ maxPages d1 = 3) /\
  currentPage d2 = 1 /\ currentPage d3 = 2 /\
  (currentState d4 = MENU /\ selectedMenuItem d4 = 1).
Proof.
  intros d d1 d2 d3 d4.
  destruct (memories_end_to_end test_card d 1 1 1 2 2 2 3 3 3 4 4 eq_refl eq_refl eq_refl)
    as (H1 & _ & _ & _ & (_ & H2 & _) & (_ & H3 & _) & H4).
  split; [exact H1|]. split; [exact H2|]. split; [exact H3 | exact H4].
Defined.

(** ** C9 *)

Lemma match_ignores_cursor_witness :
  (let d' := after showLockedAnimation (one_symbol test_card) in
   passIndex d' = 0 /\ result checkPasscode d' = true) /\
  (let d' := after (loop test_card (released 5001)) (one_symbol test_card) in
   passIndex d' = 0 /\ result checkPasscode d' = true) /\
  (let d' := after (enterSymbol 0 (Color 0 100 255) ACCENT_BLUE) locked_start in
   currentState d' = LOCKED /\ passIndex d' = 0 + 1) /\
  (let d' := after (enterSymbol 0 (Color 0 100 255) ACCENT_BLUE ;;
                    enterSymbol 0 (Color 0 100 255) ACCENT_BLUE ;;
                    enterSymbol 0 (Color 0 100 255) ACCENT_BLUE ;;
                    enterSymbol 3 (Color 255 150 0) ACCENT_ORANGE) locked_start in
   currentState d' = MENU <-> [0; 0; 0; 3] = CORRECT_PASSCODE).
Proof.
  destruct (match_ignores_cursor test_card) as (_ & R & T & P & F).
  pose proof one_symbol_eq as E.
  split; [|split; [|split]].
  - apply R. rewrite E. reflexivity.
  - apply T; [rewrite E; reflexivity | rewrite E; reflexivity | rewrite E; reflexivity
             | apply quiet_released | rewrite E; reflexivity].
  - apply (P locked_start). simpl. lia.
  - apply (F locked_start); reflexivity.
Defined.

(** ** C10 *)

Lemma memories_pages_share_image_witness :
  let p0 := mkPanel 0 0 0 0 0 (fun _ _ => 0) in
  (exists p,
     paint (events (slideAnimation test_card true) power_on) p0 = Some p /\
     pixel p 5 7 = test_card (7 * SCREEN_W + 5)) /\
  (exists p,
     paint (events (slideAnimation test_card false) power_on) p0 = Some p /\
     pixel p 5 7 = test_card (7 * SCREEN_W + 5)).
Proof.
  intros p0.
  destruct (memories_pages_share_image test_card) as (_ & _ & _ & _ & _ & S & _).
  split.
  - destruct (S true p0 power_on) as (p & Hp & Hpix).
    exists p. split; [exact Hp|].
    apply Hpix; unfold SCREEN_W, SCREEN_H; lia.
  - destruct (S false p0 power_on) as (p & Hp & Hpix).
    exists p. split; [exact Hp|].
    apply Hpix; unfold SCREEN_W, SCREEN_H; lia.
Defined.

(** * Concrete runs of the further properties *)

(** ** X1 *)

Lemma reachable_wellFormed_witness :
  let d := mkDev MENU [0; 0; 0; 0] 4 300 true true true true 2 0 0 0 in
  wellFormed d /\ wellFormed (after (loop test_card (pressing ButtonSelect 400 400)) d).
Proof.
  intros d.
  assert (W : wellFormed d).
  { unfold wellFormed. simpl. repeat split; try lia. repeat constructor; lia. }
  split; [exact W|].
  destruct (reachable_wellFormed test_card) as (_ & Step & _).
  apply Step. exact W.
Defined.

(** ** X2 *)

Lemma never_relocks_witness :
  let d := mkDev MENU [0; 0; 0; 0] 4 300 true true true true 2 0 0 0 in
  let ticks := click Button1 400 400 400 ++ click ButtonSelect 500 500 500
               ++ click ButtonBack 600 600 600 in
  let d' := after (passes test_card ticks) d in
  (currentState d' = MENU \/ currentState d' = CONTENT) /\
  passIndex d' = passIndex d /\ enteredPasscode d' = enteredPasscode d.
Proof.
  intros d ticks. apply (never_relocks test_card d ticks). left. reflexivity.
Defined.

(** ** X3 *)

Lemma only_up_unlocks_witness :
  let d := mkDev LOCKED [0; 0; 0; 0] 3 0 true true true true 0 0 0 0 in
  currentState (after (loop test_card (pressing Button1 10 10)) d) = LOCKED /\
  currentState (after (passes test_card (click Button1 10 10 10 ++ click ButtonBack 20 20 20
                                         ++ click ButtonSelect 30 30 30)) d) = LOCKED.
Proof.
  intros d.
  destruct (only_up_unlocks test_card) as (One & Many).
  split.
  - apply One; reflexivity.
  - apply Many; [reflexivity | reflexivity | repeat constructor].
Defined.

(** ** X5 *)

Lemma idle_timeout_rollover_witness :
  let d := mkDev LOCKED [1; 0; 0; 0] 1 4294967000 true true true true 0 0 0 0 in
  let d' := after (loop test_card (released 5000)) d in
  passIndex d' = 0 /\ enteredPasscode d' = [0; 0; 0; 0].
Proof.
  intros d.
  apply (idle_timeout_rollover test_card d (released 5000) 5296);
    [reflexivity | simpl; lia | reflexivity | apply quiet_released | lia | reflexivity
    | unfold TIMEOUT_MS; lia].
Defined.

(** ** X6 *)

Lemma rejected_pass_witness :
  let bounce := mkTick (fun b => if decide (b = Button1) then LOW else HIGH)
                       (fun _ => HIGH) (fun _ => 0) 0 in
  let held := pressing ButtonSelect 0 0 in
  let d := mkDev MENU [0; 0; 0; 0] 4 0 true true false true 0 0 0 0 in
  run (loop test_card bounce) d =
    (tt, with_lastButtons HIGH HIGH HIGH HIGH d, [Delay DEBOUNCE]) /\
  run (loop test_card held) d = (tt, with_lastButtons HIGH HIGH LOW HIGH d, []).
Proof.
  intros bounce held d.
  destruct (rejected_pass test_card) as (Rejected & Held).
  split.
  - apply (Rejected bounce d); [intros b; destruct b; reflexivity | reflexivity].
  - apply (Held held d); [|reflexivity].
    intros b H. destruct b; try discriminate H. reflexivity.
Defined.

(** ** X7 *)


(** ** X8 *)

Lemma unlock_and_select_in_one_pass_witness :
  let d := mkDev LOCKED [0; 0; 0; 0] 3 0 true true true true 1 0 0 0 in
  let d' := after (loop test_card
                     (chord (fun b => bool_decide (b = Button0 \/ b = ButtonSelect)) 10 10)) d in
  currentState d' = CONTENT /\ selectedMenuItem d' = selectedMenuItem d /\
  currentPage d' = 0 /\ maxPages d' = pagesOf (selectedMenuItem d) /\
  enteredPasscode d' = CORRECT_PASSCODE.
Proof.
  intros d.
  apply (unlock_and_select_in_one_pass test_card d 10 10);
    [reflexivity | reflexivity | exists 0; reflexivity | simpl; lia | reflexivity | reflexivity].
Defined.

(** ** X9 *)

Lemma back_then_select_witness :
  let d := mkDev CONTENT [0; 0; 0; 0] 4 400 true true true true 0 3 6 0 in
  let m := after (passes test_card (click ButtonBack 500 500 500)) d in
  let c := after (passes test_card (click ButtonSelect 600 600 600)) m in
  (currentState m = MENU /\ selectedMenuItem m = selectedMenuItem d /\
   currentPage m = currentPage d /\ maxPages m = maxPages d) /\
  (currentState c = CONTENT /\ selectedMenuItem c = selectedMenuItem d /\
   currentPage c = 0 /\ lastMemoryPage c = 0 /\
   maxPages c = pagesOf (selectedMenuItem d)).
Proof.
  intros d.
  apply (back_then_select test_card d 500 500 500 600 600 600);
    [reflexivity | simpl; lia | reflexivity].
Defined.

(** ** X13 *)


(** ** X14 *)

Lemma page_indicator_dots_witness :
  let d := mkDev CONTENT [0; 0; 0; 0] 4 400 true true true true 0 2 6 0 in
  let es := events drawPageIndicator d in
  (Z.of_nat (length es) = 2 * maxPages d /\
   length (filter (fun e => currentDot e = true) es) = 1%nat) /\
  Forall (fun e => circleOnScreen e = true) es.
Proof.
  intros d es.
  destruct (page_indicator_dots d) as (_ & Dots & Fits & _).
  split.
  - apply Dots; simpl; lia.
  - apply Fits. simpl. lia.
Defined.

(** ** X19 *)


(** ** X20 *)


(** ** X21 *)

Lemma leds_after_a_press_witness :
  let d := mkDev MENU [0; 0; 0; 0] 4 300 true true true true 2 0 0 0 in
  let s := mkStrip (fun _ => 0) (fun _ => 0) in
  shows (ambient ((selectedMenuItem d + 1) mod 4))
        (glow (events (loop test_card (pressing Button1 400 400)) d) s) /\
  shows (Color 50 50 50)
        (glow (events (loop test_card (pressing ButtonSelect 400 400)) d) s).
Proof.
  intros d s.
  destruct (leds_after_a_press test_card d s 400 400) as (Down & _ & Select & _).
  split.
  - apply Down; [reflexivity | simpl; lia | reflexivity].
  - apply Select; reflexivity.
Defined.

(** ** X22 *)


(** ** X23 *)

Lemma about_reports_the_card_witness :
  let found := mkSdCard true 3 8589934592 true in
  let absent := mkSdCard false 0 0 false in
  In (Core (Display (Print "SD Card Ready")))
     (eventsS (drawAboutContent 0) (afterS (setup 0 1 2 3 test_card found) cold)) /\
  In (Core (Display (Print "No SD Card")))
     (eventsS (drawAboutContent 0) (afterS (setup 0 1 2 3 test_card absent) cold)).
Proof.
  intros found absent.
  split.
  - destruct (about_reports_the_card 0 1 2 3 test_card found cold 0) as (_ & _ & H & _).
    apply H. reflexivity.
  - destruct (about_reports_the_card 0 1 2 3 test_card absent cold 0) as (_ & _ & _ & H).
    apply H. reflexivity.
Defined.

(** ** X24 *)

Lemma passcode_circles_show_the_attempt_witness :
  let d := mkDev LOCKED [1; 2; 0; 0] 2 0 true true true true 0 0 0 0 in
  let es := events drawPasscodeCircles d in
  after drawPasscodeCircles d = d /\
  omap printedDigit es = take (Z.to_nat (passIndex d)) (enteredPasscode d) /\
  Z.of_nat (length (filter (fun e => emptySlot e = true) es)) = PASS_LENGTH - passIndex d.
Proof.
  intros d.
  apply (passcode_circles_show_the_attempt d); [reflexivity | simpl; unfold PASS_LENGTH; lia].
Defined.

(** ** X25 *)

Lemma every_press_is_acknowledged_witness :
  let d := mkDev CONTENT [0; 0; 0; 0] 4 400 true true true true 0 0 6 0 in
  lastPressTime (after (loop test_card (pressing ButtonSelect 500 500)) d) = u32 500 /\
  exists rest,
    events (loop test_card (pressing ButtonSelect 500 500)) d =
    [Delay DEBOUNCE; DigitalWrite VIBRATION_MOTOR_PIN HIGH; Delay 30;
     DigitalWrite VIBRATION_MOTOR_PIN LOW] ++ rest.
Proof.
  intros d. apply (every_press_is_acknowledged test_card ButtonSelect 500 500 d). reflexivity.
Defined.
